(** * Risk-metrics engine, series alignment, currency normalisation and peer
      ranking of the analyser server (server routes, TypeScript)

    A shallow embedding of [calculateFinancialMetrics], the date alignment,
    the currency factors, [getPeers] and the peer assembly of the
    [/api/beta/calculate] handler; then of the in-memory store
    ([MemStorage]), of the directory loader ([loadExcelData]) and of the
    state and the figures of the results and loading views.

    JavaScript numbers are IEEE-754 binary64 values: they are embedded as
    Rocq's primitive [float], whose operations are the binary64 ones
    (round to nearest, ties to even), so a definition evaluated here gives
    the number the program gives.  [null] and [undefined] are [None]. *)

From Stdlib Require Import ZArith Lia Bool Floats Uint63 String Ascii List.
From stdpp Require Import base option list gmap strings sorting.

Set Default Proof Using "Type".
Local Open Scope float_scope.

(* ================================================================== *)
(** ** JavaScript numbers                                              *)
(* ================================================================== *)

Module JsNum.

(** [ToBoolean] on a number: [false] for [+0], [-0] and [NaN]. *)
Definition truthy (x : float) : bool := negb (x =? 0) && negb (is_nan x).

(** [x === 0] on numbers: IEEE equality, true for [+0] and [-0], false
    for [NaN]. *)
Definition is_zero (x : float) : bool := x =? 0.

(** [x || d] where [x] is a number or [undefined]. *)
Definition or_default (x : option float) (d : float) : float :=
  match x with
  | Some v => if truthy v then v else d
  | None => d
  end.

(** [x || d] where [x] is a number. *)
Definition num_or (x d : float) : float := if truthy x then x else d.

(** [ToBoolean] on a number or [undefined]/[null]. *)
Definition present (x : option float) : bool :=
  match x with
  | Some v => truthy v
  | None => false
  end.

(** The number of an array length. *)
Definition of_nat (n : nat) : float := of_uint63 (Uint63.of_Z (Z.of_nat n)).

(** [a[i]] on a number array, used in arithmetic: an index out of range
    reads [undefined], which arithmetic turns into [NaN]. *)
Definition idx (a : list float) (i : nat) : float := nth i a nan.

(** [Math.sqrt]. *)
Definition Math_sqrt (x : float) : float := PrimFloat.sqrt x.

(** [x ** 2], taken as the correctly rounded square [x * x]. *)
Definition sq (x : float) : float := x * x.

(** [ToBoolean] on a string or [undefined]: the empty string is falsy. *)
Definition str_truthy (s : option string) : bool :=
  match s with
  | Some v => negb (String.eqb v "")
  | None => false
  end.

(** [s || d] on strings: the empty string and [undefined] are falsy. *)
Definition str_or (s : option string) (d : string) : string :=
  match s with
  | Some v => if String.eqb v "" then d else v
  | None => d
  end.

End JsNum.
Import JsNum.

(* ================================================================== *)
(** ** RegressionEngine: [calculateFinancialMetrics]                   *)
(* ================================================================== *)

Record Metrics : Type := mkMetrics
  { beta : float;
    alpha : float;
    correlation : float;
    rSquared : float;
    volatility : float }.

(** Body of the first loop, at index [i]: one simple return is pushed on
    each of the two arrays. *)
Definition returns_step (stockPrices marketPrices : list float)
    (acc : list float * list float) (i : nat) : list float * list float :=
  let sRet := (idx stockPrices i - idx stockPrices (i - 1)) / idx stockPrices (i - 1) in
  let mRet := (idx marketPrices i - idx marketPrices (i - 1)) / idx marketPrices (i - 1) in
  (fst acc ++ [sRet], snd acc ++ [mRet]).

(** [for (let i = 1; i < stockPrices.length; i++)]. *)
Definition returns_loop (stockPrices marketPrices : list float)
    : list float * list float :=
  fold_left (returns_step stockPrices marketPrices)
            (seq 1 (length stockPrices - 1)) ([], []).

(** Body of the second loop: the three running sums
    [(covariance, varianceMarket, varianceStock)]. *)
Definition sums_step (stockReturns marketReturns : list float)
    (meanStock meanMarket : float)
    (acc : float * float * float) (i : nat) : float * float * float :=
  let '(covariance, varianceMarket, varianceStock) := acc in
  let diffS := idx stockReturns i - meanStock in
  let diffM := idx marketReturns i - meanMarket in
  (covariance + diffS * diffM, varianceMarket + sq diffM, varianceStock + sq diffS).

(** [for (let i = 0; i < n; i++)]. *)
Definition sums_loop (stockReturns marketReturns : list float)
    (meanStock meanMarket : float) (n : nat) : float * float * float :=
  fold_left (sums_step stockReturns marketReturns meanStock meanMarket)
            (seq 0 n) (0, 0, 0).

(** [arr.reduce((a, b) => a + b, 0)]. *)
Definition reduce_add (arr : list float) : float :=
  fold_left PrimFloat.add arr 0.

Definition calculateFinancialMetrics (stockPrices marketPrices : list float)
    : option Metrics :=
  if negb (length stockPrices =? length marketPrices)%nat
     || (length stockPrices <? 2)%nat then None
  else
    let '(stockReturns, marketReturns) := returns_loop stockPrices marketPrices in
    let n := length stockReturns in
    if (n <? 2)%nat then None
    else
      let meanStock := reduce_add stockReturns / of_nat n in
      let meanMarket := reduce_add marketReturns / of_nat n in
      let '(covariance, varianceMarket, varianceStock) :=
        sums_loop stockReturns marketReturns meanStock meanMarket n in
      if is_zero varianceMarket || is_zero varianceStock then None
      else
        let beta := covariance / varianceMarket in
        let alpha := meanStock - beta * meanMarket in
        let correlation :=
          covariance / (Math_sqrt varianceStock * Math_sqrt varianceMarket) in
        let rSquared := sq correlation in
        let standardDeviation := Math_sqrt (varianceStock / (of_nat n - 1)) in
        let volatility := standardDeviation * Math_sqrt 252 in
        Some (mkMetrics beta alpha correlation rSquared volatility).

(** *** The quantities the specification names

    The simple returns [r[i] = (p[i] - p[i-1]) / p[i-1]], the arithmetic
    mean, and the sum of centred products; sums run from the left, starting
    at [0], as a sum written with a running total does. *)

Fixpoint simple_returns (p : list float) : list float :=
  match p with
  | a :: (b :: _) as rest => (b - a) / a :: simple_returns rest
  | _ => []
  end.

Definition mean (r : list float) : float :=
  reduce_add r / of_nat (length r).

Definition centred_sum (xs ys : list float) (mx my : float) : float :=
  fold_left (fun acc xy => acc + (fst xy - mx) * (snd xy - my)) (combine xs ys) 0.

Definition covariance_of (sr mr : list float) : float :=
  centred_sum sr mr (mean sr) (mean mr).

Definition variance_of (r : list float) : float :=
  centred_sum r r (mean r) (mean r).

(** The claimed correlation, with one square root of the product. *)
Definition correlation_claimed (sr mr : list float) : float :=
  covariance_of sr mr / Math_sqrt (variance_of sr * variance_of mr).

(** The correlation as the code forms it: the product of two square roots. *)
Definition correlation_coded (sr mr : list float) : float :=
  covariance_of sr mr / (Math_sqrt (variance_of sr) * Math_sqrt (variance_of mr)).

(** The return the first loop computes at index [i]. *)
Definition ret_at (p : list float) (i : nat) : float :=
  (idx p i - idx p (i - 1)) / idx p (i - 1).

(** The bundle built from the two return vectors, field by field as the
    code forms it. *)
Definition metrics_of_returns (sr mr : list float) : Metrics :=
  let b := covariance_of sr mr / variance_of mr in
  let c := correlation_coded sr mr in
  mkMetrics b (mean sr - b * mean mr) c (sq c)
    (Math_sqrt (variance_of sr / (of_nat (length sr) - 1)) * Math_sqrt 252).

(** Scenario inputs of the specification. *)
Definition scenarioA_stock : list float := [100; 102; 101; 105; 107].
Definition scenarioA_market : list float := [1000; 1010; 1005; 1020; 1030].
Definition scenarioB_market : list float := [1000; 1020; 1010; 1050; 1070].
Definition scenarioB_stock : list float := map (fun p => p / 10) scenarioB_market.
(** Scenario C: exactly two price points. *)
Definition scenarioC_stock : list float := [100; 102].
Definition scenarioC_market : list float := [1000; 1010].

(** The leading prices [p[i-1]], for [i = 1 .. n-1]. *)
Definition leading_prices (p : list float) : list float := removelast p.

Definition nonpositive (x : float) : bool := x <=? 0.
Definition positive_price (x : float) : bool := 0 <? x.

(** Inputs with a zero and with a negative leading price, and a constant
    strictly positive series. *)
Definition zero_led_stock : list float := [0; 1; 2].
Definition negative_led_stock : list float := [-1; 1; 2].
Definition constant_stock : list float := [5; 5; 5].
Definition rising_market : list float := [1; 2; 3].

(* ================================================================== *)
(** ** The line of binary64 values                                     *)
(* ================================================================== *)

(** The order of two numbers is read off an integer: the value a number
    stands for, in units of the least positive number [2^emin]. *)
Module F64.
Local Open Scope Z_scope.

Abbreviation fexp64 := (fexp prec emax).

(** The magnitude of a finite value in units of [2^emin]. *)
Definition mag (m : positive) (e : Z) : Z := Zpos m * 2 ^ (e - emin).

(** A bound above every finite magnitude: the place of the infinities. *)
Definition top : Z := 2 ^ (emax - emin).

Definition rank (x : spec_float) : Z :=
  match x with
  | S754_zero _ => 0
  | S754_nan => 0
  | S754_infinity s => cond_Zopp s top
  | S754_finite s m e => cond_Zopp s (mag m e)
  end.

(** A value with the sign [s] and not zero. *)
Definition signed (s : bool) (x : spec_float) : Prop :=
  x = S754_infinity s \/ exists m e, x = S754_finite s m e.

(** The place of a number on the line. *)
Definition frank (x : float) : Z := rank (Prim2SF x).

End F64.

(* ================================================================== *)
(** ** Strings and arrays of the host language                         *)
(* ================================================================== *)

Module Js.

(** [s.split('.')[0]]: the part of [s] before its first dot. *)
Fixpoint before_dot (s : string) : string :=
  match s with
  | EmptyString => EmptyString
  | String c rest =>
      if Ascii.eqb c "."%char then EmptyString else String c (before_dot rest)
  end.

(** [s.endsWith(suffix)]. *)
Definition endsWith (s suffix : string) : bool :=
  let n := String.length s in
  let k := String.length suffix in
  (k <=? n)%nat && String.eqb (String.substring (n - k) k s) suffix.

(** [Array.from(new Set(arr))]: the first occurrence of each element, in
    insertion order. *)
Definition set_add (acc : list string) (s : string) : list string :=
  if bool_decide (s ∈ acc) then acc else acc ++ [s].

Definition Array_from_Set (arr : list string) : list string :=
  fold_left set_add arr [].

(** [arr.slice(0, k)]. *)
Definition slice0 {A} (k : nat) (arr : list A) : list A := take k arr.

(** A comparator result [> 0]: the first argument sorts after the
    second.  A [NaN] result counts as [0]. *)
Definition after (c : float) : bool := 0 <? c.

(** [Array.prototype.sort(cmp)].  The language fixes that the sort is
    stable and leaves the sequence of comparator calls to the engine; it is
    embedded as the insertion sort engines use on short arrays: each
    element in turn moves left past every element that compares [> 0]
    against it.  [sorted_rev] is the sorted prefix, last element first. *)
Fixpoint insert_left {A} (cmp : A -> A -> float) (x : A) (sorted_rev : list A)
    : list A :=
  match sorted_rev with
  | [] => [x]
  | y :: rest =>
      if after (cmp y x) then y :: insert_left cmp x rest
      else x :: y :: rest
  end.

Definition sort {A} (cmp : A -> A -> float) (arr : list A) : list A :=
  rev (fold_left (fun sorted_rev x => insert_left cmp x sorted_rev) arr []).

(** The comparator ranks the elements of [l] by [key], the greater key
    first: it puts [a] after [b] exactly when [a]'s key is the smaller. *)
Definition ranks_by {A} (cmp : A -> A -> float) (key : A -> Z) (l : list A)
    : Prop :=
  forall a b, a ∈ l -> b ∈ l -> after (cmp a b) = (key a <? key b)%Z.

(** A promise of the data provider: it resolves with a value or rejects. *)
Inductive Promise (A : Type) : Type :=
| Rejects
| Resolves (a : A).
Arguments Rejects {A}.
Arguments Resolves {A} a.

(** [p.catch(() => null)]. *)
Definition catch_null {A} (p : Promise A) : option A :=
  match p with
  | Rejects => None
  | Resolves a => Some a
  end.

End Js.
Import Js.

(* ================================================================== *)
(** ** Answers of the market-data provider                             *)
(* ================================================================== *)

(** One row of a daily history.  [date] is the calendar day the code keys
    on, [d.date.toISOString().split('T')[0]]. *)
Record HistoricalRow : Type := mkRow
  { date : string;
    close : option float }.

Module AssetProfile.
Record t : Type := mk
  { industry : option string;
    sector : option string }.
End AssetProfile.

Module SummaryDetail.
Record t : Type := mk
  { marketCap : option float;
    trailingPE : option float;
    dividendYield : option float }.
End SummaryDetail.

Module FinancialData.
Record t : Type := mk
  { financialCurrency : option string;
    totalRevenue : option float;
    ebitda : option float;
    debtToEquity : option float;
    profitMargins : option float }.
End FinancialData.

Module KeyStatistics.
Record t : Type := mk
  { enterpriseValue : option float;
    priceToBook : option float }.
End KeyStatistics.

Module QuoteSummary.
Record t : Type := mk
  { assetProfile : option AssetProfile.t;
    summaryDetail : option SummaryDetail.t;
    financialData : option FinancialData.t;
    defaultKeyStatistics : option KeyStatistics.t }.
End QuoteSummary.

Module Quote.
Record t : Type := mk
  { currency : option string;
    marketCap : option float;
    longName : option string;
    shortName : option string;
    regularMarketPrice : option float }.
End Quote.

(** The [modules] option of [quoteSummary]. *)
Inductive SummaryModule : Type :=
| ModAssetProfile
| ModSummaryDetail
| ModFinancialData
| ModDefaultKeyStatistics.

(** The provider as one request sees it ([yf]); the date range of a
    request is fixed, so a history depends on the symbol only. *)
Module Yf.
Record t : Type := mk
  { historical : string -> Promise (list HistoricalRow);
    quote : string -> Promise Quote.t;
    quoteSummary : string -> list SummaryModule -> Promise QuoteSummary.t;
    recommendationsBySymbol : string -> Promise (option (list string)) }.
End Yf.
Abbreviation Provider := Yf.t.

(** A row of the industry directory ([industryList]). *)
Module Directory.
Record entry : Type := mk
  { symbol : string;
    name : string;
    industry : string }.
End Directory.

(** [fetchHistoricalData]: the history, or [null] when the fetch throws. *)
Definition fetchHistoricalData (yf : Provider) (ticker : string)
    : option (list HistoricalRow) :=
  catch_null (Yf.historical yf ticker).

(* ================================================================== *)
(** ** TimeSeriesAligner: the date map and the paired prices           *)
(* ================================================================== *)

(** [marketData.forEach(d => { if (d && d.close) dateMap.set(day, d.close) })]. *)
Definition dateMap_step (dateMap : gmap string float) (d : HistoricalRow)
    : gmap string float :=
  if present (close d) then
    match close d with
    | Some c => <[date d := c]> dateMap
    | None => dateMap
    end
  else dateMap.

Definition build_dateMap (marketData : list HistoricalRow) : gmap string float :=
  fold_left dateMap_step marketData ∅.

(** Body of [stockData.forEach]: a pair is pushed when [mPrice && d.close]. *)
Definition align_step (dateMap : gmap string float)
    (acc : list float * list float) (d : HistoricalRow)
    : list float * list float :=
  let mPrice := dateMap !! date d in
  if present mPrice && present (close d) then
    match close d, mPrice with
    | Some c, Some mp => (fst acc ++ [c], snd acc ++ [mp])
    | _, _ => acc
    end
  else acc.

(** The two parallel arrays [(sPrices, mPrices)]. *)
Definition align_prices (dateMap : gmap string float)
    (stockData : list HistoricalRow) : list float * list float :=
  fold_left (align_step dateMap) stockData ([], []).

(* ================================================================== *)
(** ** CurrencyNormalizer: the two factors                             *)
(* ================================================================== *)

(** [currency === 'USD' ? exchangeRate : 1]. *)
Definition usd_factor (currency : string) (exchangeRate : float) : float :=
  if String.eqb currency "USD" then exchangeRate else 1.

(** Optional chaining on the provider's answers. *)
Definition quote_currency (q : option Quote.t) : option string :=
  q ≫= Quote.currency.
Definition quote_marketCap (q : option Quote.t) : option float :=
  q ≫= Quote.marketCap.
Definition fin_data (f : option QuoteSummary.t) : option FinancialData.t :=
  f ≫= QuoteSummary.financialData.
Definition fin_stats (f : option QuoteSummary.t) : option KeyStatistics.t :=
  f ≫= QuoteSummary.defaultKeyStatistics.
Definition fin_detail (f : option QuoteSummary.t) : option SummaryDetail.t :=
  f ≫= QuoteSummary.summaryDetail.
Definition fin_currency (f : option QuoteSummary.t) : option string :=
  fin_data f ≫= FinancialData.financialCurrency.
Definition fin_totalRevenue (f : option QuoteSummary.t) : option float :=
  fin_data f ≫= FinancialData.totalRevenue.
Definition fin_ebitda (f : option QuoteSummary.t) : option float :=
  fin_data f ≫= FinancialData.ebitda.
Definition fin_enterpriseValue (f : option QuoteSummary.t) : option float :=
  fin_stats f ≫= KeyStatistics.enterpriseValue.

(** [(ev && rev) ? ev / (rev * financialFactor / priceFactor) : undefined]. *)
Definition evRevenueMultiple_of (ev rev : option float)
    (priceFactor financialFactor : float) : option float :=
  if present ev && present rev then
    match ev, rev with
    | Some e, Some r => Some (e / (r * financialFactor / priceFactor))
    | _, _ => None
    end
  else None.


(** The alignment of the handler: the date map of the reference (market)
    series, then the walk over the primary (stock) series. *)
Definition align (primary reference : list HistoricalRow)
    : list float * list float :=
  align_prices (build_dateMap reference) primary.

(** *** The join the specification describes *)

(** The reference close of day [d]: the close of the last row of that day
    whose close is valid, if there is one. *)
Definition reference_close (reference : list HistoricalRow) (d : string)
    : option float :=
  List.find (fun r => String.eqb (date r) d && present (close r)) (rev reference)
  ≫= close.

(** The rows of the primary series that are joined, in their order. *)
Definition joined_rows (primary reference : list HistoricalRow)
    : list HistoricalRow :=
  List.filter
    (fun r => present (reference_close reference (date r)) && present (close r))
    primary.

(** Inputs: a reference close that is negative, and a primary series with
    two rows on one day. *)
Definition day1 : string := "2024-01-02".
Definition negative_reference : list HistoricalRow := [mkRow day1 (Some (-5))].
Definition one_row_primary : list HistoricalRow := [mkRow day1 (Some 10)].
Definition positive_reference : list HistoricalRow := [mkRow day1 (Some 5)].
Definition two_rows_primary : list HistoricalRow :=
  [mkRow day1 (Some 10); mkRow day1 (Some 11)].

(* ================================================================== *)
(** ** PeerDiscovery: [getPeers]                                       *)
(* ================================================================== *)

Module PeerCandidate.
Record t : Type := mk
  { slug : string;
    sector : string;
    marketCap : float }.
End PeerCandidate.

(** The directory's industry of a bare ticker:
    [industryList.find(i => i.symbol === base)?.industry]. *)
Definition directory_industry (industryList : list Directory.entry)
    (base : string) : option string :=
  Directory.industry <$>
    List.find (fun i => String.eqb (Directory.symbol i) base) industryList.

(** [industryList.filter(...).map(item => `${item.symbol}.NS`)]. *)
Definition industryPeers (industryList : list Directory.entry)
    (excelIndustry tickerBase : string) : list string :=
  map (fun item => String.append (Directory.symbol item) ".NS")
      (List.filter
         (fun item => String.eqb (Directory.industry item) excelIndustry
                      && negb (String.eqb (Directory.symbol item) tickerBase))
         industryList).

(** The candidate symbols: the recommender's, then, when the target has a
    directory industry, the directory's peers merged in through a [Set]. *)
Definition gather (industryList : list Directory.entry)
    (recommendations : option (list string))
    (excelIndustry : option string) (tickerBase : string) : list string :=
  let candidateSymbols := default [] recommendations in
  if str_truthy excelIndustry then
    Array_from_Set
      (candidateSymbols ++ industryPeers industryList (default "" excelIndustry) tickerBase)
  else candidateSymbols.

(** Body of the verification callback for [symbol], whose summary is [s]. *)
Definition verifyPeer (yf : Provider) (industryList : list Directory.entry)
    (ticker targetIndustry : string) (excelIndustry : option string)
    (exchangeRate : float) (s : option QuoteSummary.t) (symbol : string)
    : option PeerCandidate.t :=
  match s ≫= QuoteSummary.assetProfile with
  | None => None
  | Some profile =>
      if String.eqb symbol ticker then None
      else
        let isSameIndustry :=
          match AssetProfile.industry profile with
          | Some i => String.eqb i targetIndustry
          | None => false
          end
          || (str_truthy excelIndustry
              && bool_decide
                   (directory_industry industryList (before_dot symbol) = excelIndustry)) in
        if negb isSameIndustry then None
        else
          let quote := catch_null (Yf.quote yf symbol) in
          let peerCurrency :=
            str_or (quote_currency quote)
                   (str_or (fin_currency s) "INR") in
          let peerConversionFactor := usd_factor peerCurrency exchangeRate in
          let peerMarketCap :=
            or_default (fin_detail s ≫= SummaryDetail.marketCap) 0
            * peerConversionFactor in
          Some (PeerCandidate.mk
                  symbol
                  (String.append (str_or (AssetProfile.sector profile) "Unknown")
                     (String.append " > "
                        (str_or (AssetProfile.industry profile) "Unknown")))
                  peerMarketCap)
  end.

(** The verification of one candidate, its summary fetched. *)
Definition verify_symbol (yf : Provider) (industryList : list Directory.entry)
    (ticker targetIndustry : string) (excelIndustry : option string)
    (exchangeRate : float) (symbol : string) : option PeerCandidate.t :=
  verifyPeer yf industryList ticker targetIndustry excelIndustry exchangeRate
    (catch_null
       (Yf.quoteSummary yf symbol [ModAssetProfile; ModSummaryDetail; ModFinancialData]))
    symbol.

(** The comparator [(a, b) => b.marketCap - a.marketCap]. *)
Definition byMarketCap (a b : PeerCandidate.t) : float :=
  PeerCandidate.marketCap b - PeerCandidate.marketCap a.

(** The verified peers, before ranking: [verifiedPeers.filter(p => p !== null)]. *)
Definition verifiedPeers (yf : Provider) (industryList : list Directory.entry)
    (ticker targetIndustry : string) (excelIndustry : option string)
    (exchangeRate : float) (candidateSymbols : list string)
    : list PeerCandidate.t :=
  let peerSummaries :=
    map (fun s => catch_null
                    (Yf.quoteSummary yf s [ModAssetProfile; ModSummaryDetail; ModFinancialData]))
        (slice0 20 candidateSymbols) in
  omap id
    (imap (fun i symbol =>
             verifyPeer yf industryList ticker targetIndustry excelIndustry
                        exchangeRate (mjoin (peerSummaries !! i)) symbol)
          (slice0 20 candidateSymbols)).

Definition getPeers (yf : Provider) (industryList : list Directory.entry)
    (ticker : string) (exchangeRate : float) : list PeerCandidate.t :=
  let summary := catch_null (Yf.quoteSummary yf ticker [ModAssetProfile; ModSummaryDetail]) in
  match summary ≫= QuoteSummary.assetProfile with
  | None => []
  | Some profile =>
      let targetIndustry := str_or (AssetProfile.industry profile) "" in
      let tickerBase := before_dot ticker in
      let excelIndustry := directory_industry industryList tickerBase in
      match Yf.recommendationsBySymbol yf ticker with
      | Rejects => []
      | Resolves recommendations =>
          let candidateSymbols :=
            gather industryList recommendations excelIndustry tickerBase in
          slice0 10
            (sort byMarketCap
               (verifiedPeers yf industryList ticker targetIndustry excelIndustry
                              exchangeRate candidateSymbols))
      end
  end.

(* ================================================================== *)
(** ** AnalysisOrchestrator: the [/api/beta/calculate] handler         *)
(* ================================================================== *)

Module Target.
Record t : Type := mk
  { ticker : string;
    name : string;
    marketIndex : string;
    beta : float;
    volatility : float;
    alpha : float;
    correlation : float;
    rSquared : float;
    period : string;
    marketCap : float;
    revenue : float;
    enterpriseValue : float;
    evRevenueMultiple : option float;
    peRatio : option float;
    pbRatio : option float;
    dividendYield : option float;
    ebitda : float;
    debtToEquity : option float;
    profitMargin : option float }.
End Target.

Module Peer.
Record t : Type := mk
  { ticker : string;
    name : string;
    beta : option float;
    volatility : option float;
    alpha : option float;
    correlation : option float;
    rSquared : option float;
    marketCap : float;
    revenue : float;
    enterpriseValue : float;
    evRevenueMultiple : option float;
    peRatio : option float;
    pbRatio : option float;
    dividendYield : option float;
    ebitda : float;
    debtToEquity : option float;
    profitMargin : option float;
    sector : string }.
End Peer.

(** The parsed request body. *)
Record Request : Type := mkRequest
  { req_ticker : string;
    req_exchange : string;
    req_period : option string }.

(** The object literal [targetData]. *)
Definition targetData (req : Request) (fullTicker : string) (metrics : Metrics)
    (quote financials : option _) (exchangeRate : float) : Target.t :=
  let tradingCurrency := str_or (quote_currency quote) "INR" in
  let financialCurrency := str_or (fin_currency financials) tradingCurrency in
  let priceFactor := usd_factor tradingCurrency exchangeRate in
  let financialFactor := usd_factor financialCurrency exchangeRate in
  {| Target.ticker := fullTicker;
     Target.name :=
       str_or (quote ≫= Quote.longName)
              (str_or (quote ≫= Quote.shortName) (req_ticker req));
     Target.marketIndex :=
       if String.eqb (req_exchange req) "NSE" then "NIFTY 50" else "BSE SENSEX";
     Target.beta := beta metrics;
     Target.volatility := volatility metrics;
     Target.alpha := alpha metrics;
     Target.correlation := correlation metrics;
     Target.rSquared := rSquared metrics;
     Target.period := str_or (req_period req) "5Y";
     Target.marketCap := or_default (quote_marketCap quote) 0 * priceFactor;
     Target.revenue := or_default (fin_totalRevenue financials) 0 * financialFactor;
     Target.enterpriseValue :=
       or_default (fin_enterpriseValue financials) 0 * priceFactor;
     Target.evRevenueMultiple :=
       evRevenueMultiple_of (fin_enterpriseValue financials)
                            (fin_totalRevenue financials) priceFactor financialFactor;
     Target.peRatio := fin_detail financials ≫= SummaryDetail.trailingPE;
     Target.pbRatio := fin_stats financials ≫= KeyStatistics.priceToBook;
     Target.dividendYield := fin_detail financials ≫= SummaryDetail.dividendYield;
     Target.ebitda := or_default (fin_ebitda financials) 0 * financialFactor;
     Target.debtToEquity := fin_data financials ≫= FinancialData.debtToEquity;
     Target.profitMargin := fin_data financials ≫= FinancialData.profitMargins |}.

(** The object a peer's callback returns once its history is in hand. *)
Definition peerData (peer : PeerCandidate.t) (pMet : option Metrics)
    (pQuote pFin : option _) (exchangeRate : float) : Peer.t :=
  let pTradingCurr := str_or (quote_currency pQuote) "INR" in
  let pFinancialCurr := str_or (fin_currency pFin) pTradingCurr in
  let pPriceFact := usd_factor pTradingCurr exchangeRate in
  let pFinancialFact := usd_factor pFinancialCurr exchangeRate in
  {| Peer.ticker := PeerCandidate.slug peer;
     Peer.name := str_or (pQuote ≫= Quote.shortName) (PeerCandidate.slug peer);
     Peer.beta := beta <$> pMet;
     Peer.volatility := volatility <$> pMet;
     Peer.alpha := alpha <$> pMet;
     Peer.correlation := correlation <$> pMet;
     Peer.rSquared := rSquared <$> pMet;
     Peer.marketCap := or_default (quote_marketCap pQuote) 0 * pPriceFact;
     Peer.revenue := or_default (fin_totalRevenue pFin) 0 * pFinancialFact;
     Peer.enterpriseValue := or_default (fin_enterpriseValue pFin) 0 * pPriceFact;
     Peer.evRevenueMultiple :=
       evRevenueMultiple_of (fin_enterpriseValue pFin) (fin_totalRevenue pFin)
                            pPriceFact pFinancialFact;
     Peer.peRatio := fin_detail pFin ≫= SummaryDetail.trailingPE;
     Peer.pbRatio := fin_stats pFin ≫= KeyStatistics.priceToBook;
     Peer.dividendYield := fin_detail pFin ≫= SummaryDetail.dividendYield;
     Peer.ebitda := or_default (fin_ebitda pFin) 0 * pFinancialFact;
     Peer.debtToEquity := fin_data pFin ≫= FinancialData.debtToEquity;
     Peer.profitMargin := fin_data pFin ≫= FinancialData.profitMargins;
     Peer.sector := PeerCandidate.sector peer |}.

(** The callback of [peerList.map]: three fetches, then [null] when the
    history is missing or shorter than two rows. *)
Definition peerResult (yf : Provider) (dateMap : gmap string float)
    (exchangeRate : float) (peer : PeerCandidate.t) : option Peer.t :=
  let pData := fetchHistoricalData yf (PeerCandidate.slug peer) in
  let pQuote := catch_null (Yf.quote yf (PeerCandidate.slug peer)) in
  let pFin :=
    catch_null (Yf.quoteSummary yf (PeerCandidate.slug peer)
                  [ModFinancialData; ModDefaultKeyStatistics; ModSummaryDetail]) in
  match pData with
  | None => None
  | Some rows =>
      if (length rows <? 2)%nat then None
      else
        let '(pSPrices, pMPrices) := align_prices dateMap rows in
        let pMet := calculateFinancialMetrics pSPrices pMPrices in
        Some (peerData peer pMet pQuote pFin exchangeRate)
  end.

(** The comparator [(a, b) => (b?.marketCap || 0) - (a?.marketCap || 0)]. *)
Definition byPeerMarketCap (a b : Peer.t) : float :=
  num_or (Peer.marketCap b) 0 - num_or (Peer.marketCap a) 0.

(** [peerResults.filter(p => p !== null).sort(...)]. *)
Definition finalPeers (yf : Provider) (dateMap : gmap string float)
    (exchangeRate : float) (peerList : list PeerCandidate.t) : list Peer.t :=
  sort byPeerMarketCap (omap id (map (peerResult yf dateMap exchangeRate) peerList)).

(** What the handler answers. *)
Inductive Response : Type :=
| Status404
| Status400
| Json (target : Target.t) (peers : list Peer.t).

(** The suffix and the benchmark of an exchange, and the full ticker. *)
Definition suffix_of (exchange : string) : string :=
  if String.eqb exchange "NSE" then ".NS" else ".BO".

Definition marketTicker_of (exchange : string) : string :=
  if String.eqb exchange "NSE" then "^NSEI" else "^BSESN".

Definition fullTicker_of (req : Request) : string :=
  let suffix := suffix_of (req_exchange req) in
  if endsWith (req_ticker req) suffix then req_ticker req
  else String.append (req_ticker req) suffix.

(** The handler, from the parsed body to the response.  The write of the
    search record to the store comes between the two last steps and does
    not enter the response. *)
Definition handler (yf : Provider) (industryList : list Directory.entry)
    (req : Request) : Response :=
  let marketTicker := marketTicker_of (req_exchange req) in
  let fullTicker := fullTicker_of req in
  let marketData := fetchHistoricalData yf marketTicker in
  let stockData := fetchHistoricalData yf fullTicker in
  let quote := catch_null (Yf.quote yf fullTicker) in
  let financials :=
    catch_null (Yf.quoteSummary yf fullTicker
                  [ModFinancialData; ModDefaultKeyStatistics; ModSummaryDetail]) in
  let usdInr := catch_null (Yf.quote yf "USDINR=X") in
  let exchangeRate := or_default (usdInr ≫= Quote.regularMarketPrice) 83 in
  match marketData, stockData with
  | Some marketData, Some stockData =>
      if (length marketData =? 0)%nat || (length stockData =? 0)%nat then Status404
      else
        let dateMap := build_dateMap marketData in
        let '(sPrices, mPrices) := align_prices dateMap stockData in
        match calculateFinancialMetrics sPrices mPrices with
        | None => Status400
        | Some metrics =>
            let target :=
              targetData req fullTicker metrics quote financials exchangeRate in
            let peerList := getPeers yf industryList fullTicker exchangeRate in
            Json target (finalPeers yf dateMap exchangeRate peerList)
        end
  | _, _ => Status404
  end.


(** *** What the specification says of a normalised field *)

(** [out], a field as a function of the exchange rate, is the raw value
    [raw] normalised under [currency]: multiplied by the rate when the
    currency is USD, and the raw value itself otherwise and at rate [1]. *)
Definition normalized_by (currency : string) (raw : float) (out : float -> float)
    : Prop :=
  (currency = "USD"%string -> forall fx, out fx = raw * fx)
  /\ (currency <> "USD"%string -> forall fx, out fx = raw)
  /\ out 1 = raw.

(** *** Sample answers of the provider *)

Definition sample_request : Request := mkRequest "TGT" "NSE" None.
Definition sample_metrics : Metrics := mkMetrics 1 0 1 1 1.

(** Fundamentals with the given enterprise value, revenue and reporting
    currency, and nothing else. *)
Definition fin_of (ev rev : option float) (cur : option string) : QuoteSummary.t :=
  QuoteSummary.mk None None
    (Some (FinancialData.mk cur rev None None None))
    (Some (KeyStatistics.mk ev None)).

(** A quote with the given trading currency and market cap. *)
Definition quote_of (cur : option string) (mc : option float) : Quote.t :=
  Quote.mk cur mc None None None.

(** A provider whose recommender names one symbol twice; every summary
    has the same profile and a market cap of [100]; nothing else answers. *)
Definition software_summary : QuoteSummary.t :=
  QuoteSummary.mk
    (Some (AssetProfile.mk (Some "Software"%string) (Some "Technology"%string)))
    (Some (SummaryDetail.mk (Some 100) None None))
    None None.

Definition twice_provider : Provider :=
  Yf.mk (fun _ => Rejects)
        (fun _ => Rejects)
        (fun _ _ => Resolves software_summary)
        (fun _ => Resolves (Some ["AAA.NS"; "AAA.NS"]%string)).

(** The provider [yf] with the history fetch of [c] failing. *)
Definition fail_history (yf : Provider) (c : string) : Provider :=
  Yf.mk (fun s => if String.eqb s c then Rejects else Yf.historical yf s)
        (Yf.quote yf) (Yf.quoteSummary yf) (Yf.recommendationsBySymbol yf).

(** The provider [yf] with the quote fetch of [c] failing. *)
Definition fail_quote (yf : Provider) (c : string) : Provider :=
  Yf.mk (Yf.historical yf)
        (fun s => if String.eqb s c then Rejects else Yf.quote yf s)
        (Yf.quoteSummary yf) (Yf.recommendationsBySymbol yf).

(** The provider [yf] with every summary fetch of [c] failing. *)
Definition fail_summary (yf : Provider) (c : string) : Provider :=
  Yf.mk (Yf.historical yf) (Yf.quote yf)
        (fun s mods => if String.eqb s c then Rejects else Yf.quoteSummary yf s mods)
        (Yf.recommendationsBySymbol yf).

(** The key the peers are ranked by, as a place on the line of numbers. *)
Definition candidate_rank (p : PeerCandidate.t) : Z :=
  F64.frank (PeerCandidate.marketCap p).
Definition peer_rank (p : Peer.t) : Z :=
  F64.frank (num_or (Peer.marketCap p) 0).

(** The test that keeps every peer but [c]. *)
Definition not_ticker (c : string) (p : Peer.t) : bool :=
  negb (String.eqb (Peer.ticker p) c).

(** The response with the peer [c] left out. *)
Definition without_peer (c : string) (r : Response) : Response :=
  match r with
  | Json target peers => Json target (List.filter (not_ticker c) peers)
  | _ => r
  end.

(** A provider that gives every symbol a two-row history and a summary,
    recommends one symbol, and has no quote: every quote fetch fails. *)
Definition day2 : string := "2024-01-03".
Definition history_only_provider : Provider :=
  Yf.mk (fun _ => Resolves [mkRow day1 (Some 10); mkRow day2 (Some 11)])
        (fun _ => Rejects) (fun _ _ => Resolves software_summary)
        (fun _ => Resolves (Some ["AAA.NS"]%string)).

Definition sample_dateMap : gmap string float :=
  build_dateMap [mkRow day1 (Some 100); mkRow day2 (Some 101)].

Definition sample_peer : PeerCandidate.t :=
  PeerCandidate.mk "AAA.NS" "Technology > Software" 100.

(** The provider [yf] with every fetch for [c] but its history failing. *)
Definition fail_quote_and_summary (yf : Provider) (c : string) : Provider :=
  fail_summary (fail_quote yf c) c.

(** A provider with a two-row history for every symbol and a quote for
    ["BBB.NS"] only, of market cap [50]. *)
Definition one_quote_provider : Provider :=
  Yf.mk (fun _ => Resolves [mkRow day1 (Some 10); mkRow day2 (Some 11)])
        (fun s => if String.eqb s "BBB.NS"
                  then Resolves (quote_of (Some "INR"%string) (Some 50))
                  else Rejects)
        (fun _ _ => Rejects)
        (fun _ => Rejects).

Definition two_candidates : list PeerCandidate.t :=
  [PeerCandidate.mk "AAA.NS" "Technology > Software" 100;
   PeerCandidate.mk "BBB.NS" "Technology > Software" 20].

(* ================================================================== *)
(** ** More of the host language: string search, [Map], [Math.min]     *)
(* ================================================================== *)

Module JsStr.

(** [s.includes(sub)]. *)
Fixpoint includes (s sub : string) : bool :=
  String.prefix sub s
  || match s with
     | EmptyString => false
     | String _ rest => includes rest sub
     end.

(** [s.split(sep)] for a separator that is not empty: the pieces between
    the occurrences of [sep], found from the left and not overlapping.
    [skip] counts the characters of a matched separator still to pass. *)
Fixpoint split_go (sep : string) (skip : nat) (s : string) : list string :=
  match s with
  | EmptyString => [EmptyString]
  | String c rest =>
      match skip with
      | S k => split_go sep k rest
      | O =>
          if String.prefix sep s
          then EmptyString :: split_go sep (String.length sep - 1) rest
          else match split_go sep 0 rest with
               | piece :: pieces => String c piece :: pieces
               | [] => [String c EmptyString]
               end
      end
  end.

Definition split (sep s : string) : list string := split_go sep 0 s.

(** [arr.includes(x)] on an array of strings. *)
Definition Array_includes (arr : list string) (x : string) : bool :=
  existsb (String.eqb x) arr.

End JsStr.
Import JsStr.

(** A [Map]: its entries in insertion order.  [set] on a key that is
    there replaces the value in place; on a new key it appends. *)
Module JsMap.
Section Map.
Context {K V : Type} (same : K -> K -> bool).

Definition has (m : list (K * V)) (k : K) : bool :=
  existsb (fun kv => same (fst kv) k) m.

Definition get (m : list (K * V)) (k : K) : option V :=
  snd <$> List.find (fun kv => same (fst kv) k) m.

Definition set (m : list (K * V)) (k : K) (v : V) : list (K * V) :=
  if has m k
  then map (fun kv => if same (fst kv) k then (fst kv, v) else kv) m
  else m ++ [(k, v)].

Definition values (m : list (K * V)) : list V := map snd m.

End Map.

(** The key equality of a [Map] on numbers ([SameValueZero]): [+0] and
    [-0] are one key, and [NaN] is a key. *)
Definition same_number (x y : float) : bool :=
  (x =? y) || (is_nan x && is_nan y).

End JsMap.

Module JsMath.

(** [Math.min(a, b)]: [NaN] when either is; [-0] is below [+0]. *)
Definition Math_min (a b : float) : float :=
  if is_nan a || is_nan b then nan
  else if a <? b then a
  else if b <? a then b
  else if get_sign a then a else b.

(** [arr[i]] for a number [i]: the element at [i] when [i] is an index of
    the array, [undefined] otherwise ([-0] reads index [0]). *)
Definition array_at {A} (arr : list A) (i : float) : option A :=
  snd <$> List.find (fun kv => of_nat (fst kv) =? i) (imap pair arr).

End JsMath.
Import JsMath.

(* ================================================================== *)
(** ** MemStorage: the in-memory store                                 *)
(* ================================================================== *)

(** The record [createSearch] is given, with the fields the handler
    passes. *)
Module InsertSearch.
Record t : Type := mk
  { ticker : string;
    exchange : string;
    startDate : string;
    endDate : string;
    beta : option float;
    peers : list Peer.t }.
End InsertSearch.

(** A stored search.  The date [createdAt] is its time value, the number
    [getTime()] gives. *)
Module Search.
Record t : Type := mk
  { ticker : string;
    exchange : string;
    startDate : string;
    endDate : string;
    peers : list Peer.t;
    id : float;
    beta : option float;
    createdAt : float }.
End Search.

(** A company profile: its ticker and its other columns, [data]; the
    stored profile has the time value of its last write besides. *)
Module InsertCompanyProfile.
Record t (Data : Type) : Type := mk
  { ticker : string;
    data : Data }.
Arguments mk {Data} ticker data.
Arguments ticker {Data} t.
Arguments data {Data} t.
End InsertCompanyProfile.

Module CompanyProfile.
Record t (Data : Type) : Type := mk
  { ticker : string;
    data : Data;
    updatedAt : float }.
Arguments mk {Data} ticker data updatedAt.
Arguments ticker {Data} t.
Arguments data {Data} t.
Arguments updatedAt {Data} t.
End CompanyProfile.

Module MemStorage.
Section Store.
Context {Data : Type}.

(** The three private fields. *)
Record t : Type := mk
  { searches : list (float * Search.t);
    companyProfiles : list (string * CompanyProfile.t Data);
    nextId : float }.

(** [new MemStorage()]. *)
Definition new : t := mk [] [] 1.

(** [createSearch]; [now] is the clock's reading, [new Date()].  The
    beta is [search.beta ?? null]: an absent beta is stored as [null], and
    both are [None]. *)
Definition createSearch (now : float) (search : InsertSearch.t) (st : t)
    : Search.t * t :=
  let id := nextId st in
  let newSearch :=
    {| Search.ticker := InsertSearch.ticker search;
       Search.exchange := InsertSearch.exchange search;
       Search.startDate := InsertSearch.startDate search;
       Search.endDate := InsertSearch.endDate search;
       Search.peers := InsertSearch.peers search;
       Search.id := id;
       Search.beta := InsertSearch.beta search;
       Search.createdAt := now |} in
  (newSearch,
   {| searches := JsMap.set JsMap.same_number (searches st) id newSearch;
      companyProfiles := companyProfiles st;
      nextId := nextId st + 1 |}).

(** The comparator [(a, b) => b.createdAt.getTime() - a.createdAt.getTime()]. *)
Definition byCreatedAt (a b : Search.t) : float :=
  Search.createdAt b - Search.createdAt a.

Definition getRecentSearches (st : t) : list Search.t :=
  slice0 10 (sort byCreatedAt (JsMap.values (searches st))).

Definition getCompanyProfile (ticker : string) (st : t)
    : option (CompanyProfile.t Data) :=
  JsMap.get String.eqb (companyProfiles st) ticker.

Definition upsertCompanyProfile (now : float) (profile : InsertCompanyProfile.t Data)
    (st : t) : CompanyProfile.t Data * t :=
  let updatedProfile :=
    {| CompanyProfile.ticker := InsertCompanyProfile.ticker profile;
       CompanyProfile.data := InsertCompanyProfile.data profile;
       CompanyProfile.updatedAt := now |} in
  (updatedProfile,
   {| searches := searches st;
      companyProfiles :=
        JsMap.set String.eqb (companyProfiles st)
                  (InsertCompanyProfile.ticker profile) updatedProfile;
      nextId := nextId st |}).

(** The ids of the stored searches ascend in the order of creation and
    lie below the counter. *)
Definition ids_in_order (st : t) : Prop :=
  StronglySorted (fun a b => (fst a <? fst b) = true) (searches st)
  /\ Forall (fun kv => (fst kv <? nextId st) = true) (searches st).

(** The time a search was created, as a place on the line of numbers. *)
Definition created_rank (s : Search.t) : Z := F64.frank (Search.createdAt s).

End Store.
Arguments t Data : clear implicits.
End MemStorage.

(** The handler with the store: a search is written once the response
    is assembled, before it is sent; the 404 and 400 answers return
    before.  [fullTicker] and [metrics.beta] are the response's [ticker]
    and [beta]. *)
Definition calculate_route {Data} (yf : Provider)
    (industryList : list Directory.entry) (now : float)
    (startDate endDate : string) (req : Request) (st : MemStorage.t Data)
    : Response * MemStorage.t Data :=
  match handler yf industryList req with
  | Json target finalPeers =>
      let '(_, st') :=
        MemStorage.createSearch now
          {| InsertSearch.ticker := fullTicker_of req;
             InsertSearch.exchange := req_exchange req;
             InsertSearch.startDate := startDate;
             InsertSearch.endDate := endDate;
             InsertSearch.beta := Some (Target.beta target);
             InsertSearch.peers := finalPeers |} st in
      (Json target finalPeers, st')
  | r => (r, st)
  end.

(* ================================================================== *)
(** ** The industry directory: [loadExcelData]                         *)
(* ================================================================== *)

Module Excel.

(** A cell value, as the program reads it through [x || ''] and
    [String(..)]: a text cell is truthy when not empty and is its own
    string; any other value (a number, a date, a formula object) comes
    with its truthiness and its string. *)
Inductive Cell : Type :=
| Text (s : string)
| Other (truthy : bool) (shown : string).

(** A row, [row.values.slice(1)]: an array with holes, [None] where the
    sheet has no value. *)
Definition Row : Type := list (option Cell).

(** [String(x || '')]. *)
Definition String_or_empty (x : option Cell) : string :=
  match x with
  | Some (Text s) => s
  | Some (Other true shown) => shown
  | _ => EmptyString
  end.

(** [rowData[i]]: [undefined] at a hole and past the end. *)
Definition cell_at (rowData : Row) (i : nat) : option Cell := mjoin (rowData !! i).

(** [headers.findIndex(p)]: the callback sees [undefined] at a hole, and
    gives [None] when it throws there.  [Throws], [-1] or the index. *)
Inductive Found : Type :=
| Throws
| NotFound
| At (i : nat).

Fixpoint findIndex_from (p : option string -> option bool)
    (headers : list (option string)) (i : nat) : Found :=
  match headers with
  | [] => NotFound
  | h :: rest =>
      match p h with
      | None => Throws
      | Some true => At i
      | Some false => findIndex_from p rest (S i)
      end
  end.

Definition findIndex (p : option string -> option bool)
    (headers : list (option string)) : Found :=
  findIndex_from p headers 0.

(** The three callbacks.  The first two call [h.includes], which throws
    on [undefined]; the third only compares. *)
Definition is_name (h : option string) : option bool :=
  match h with
  | None => None
  | Some h => Some (includes h "company" || String.eqb h "name")
  end.

Definition is_ticker (h : option string) : option bool :=
  match h with
  | None => None
  | Some h => Some (includes h "ticker" || String.eqb h "symbol")
  end.

Definition is_industry (h : option string) : option bool :=
  match h with
  | None => Some false
  | Some h =>
      Some (String.eqb h "industry group" || String.eqb h "industry"
            || String.eqb h "sector")
  end.

Section Load.
(** [String.prototype.trim] and [toLowerCase] of the host. *)
Variable trim : string -> string.
Variable toLowerCase : string -> string.

(** [rawData[0].map(h => String(h || '').trim().toLowerCase())]: [map]
    leaves a hole a hole. *)
Definition headers_of (row : Row) : list (option string) :=
  map (fmap (fun h => toLowerCase (trim (String_or_empty (Some h))))) row.

(** [rawTicker.includes(':') ? rawTicker.split(':')[1] : rawTicker]. *)
Definition symbol_of (rawTicker : string) : string :=
  if includes rawTicker ":" then default EmptyString (split ":" rawTicker !! 1%nat)
  else rawTicker.

(** A column that may be missing: [idx !== -1 ? String(..).trim() : '']. *)
Definition column (rowData : Row) (idx : option nat) : string :=
  match idx with
  | Some i => trim (String_or_empty (cell_at rowData i))
  | None => EmptyString
  end.

(** The callback of [rawData.slice(1).map]. *)
Definition entry_of (nameIdx : option nat) (tickerIdx : nat)
    (industryIdx : option nat) (rowData : Row) : Directory.entry :=
  let rawTicker := trim (String_or_empty (cell_at rowData tickerIdx)) in
  {| Directory.symbol := symbol_of rawTicker;
     Directory.name := column rowData nameIdx;
     Directory.industry := column rowData industryIdx |}.

(** [-1] as no index. *)
Definition index_of (f : Found) : option nat :=
  match f with
  | At i => Some i
  | _ => None
  end.

(** [loadExcelData], from the rows of the first sheet to the directory.
    [sheet] is [None] when the file or its first sheet is missing or the
    read throws; [industryList] is the directory before the call, which
    stays when nothing is assigned. *)
Definition loadExcelData (sheet : option (list Row))
    (industryList : list Directory.entry) : list Directory.entry :=
  match sheet with
  | None => industryList
  | Some rawData =>
      match rawData with
      | [] => industryList
      | header :: rows =>
          let headers := headers_of header in
          match findIndex is_name headers with
          | Throws => industryList
          | nameIdx =>
              match findIndex is_ticker headers with
              | Throws => industryList
              | NotFound => industryList
              | At tickerIdx =>
                  match findIndex is_industry headers with
                  | Throws => industryList
                  | industryIdx =>
                      List.filter
                        (fun item => negb (String.eqb (Directory.symbol item) ""))
                        (map (entry_of (index_of nameIdx) tickerIdx
                                       (index_of industryIdx))
                             rows)
                  end
              end
          end
      end
  end.

End Load.

(** [trim] and [toLowerCase] on text of the ASCII range: the white space
    is the tab, the line ends and the space; the letters are [A] to [Z]. *)
Definition is_space (c : ascii) : bool :=
  let n := nat_of_ascii c in
  ((9 <=? n) && (n <=? 13))%nat || (n =? 32)%nat.

Fixpoint trim_start (s : string) : string :=
  match s with
  | String c rest => if is_space c then trim_start rest else s
  | EmptyString => EmptyString
  end.

Fixpoint trim_end (s : string) : string :=
  match s with
  | String c rest =>
      match trim_end rest with
      | EmptyString => if is_space c then EmptyString else String c EmptyString
      | rest' => String c rest'
      end
  | EmptyString => EmptyString
  end.

Definition ascii_trim (s : string) : string := trim_end (trim_start s).

Definition lower (c : ascii) : ascii :=
  let n := nat_of_ascii c in
  if ((65 <=? n) && (n <=? 90))%nat then ascii_of_nat (n + 32) else c.

Fixpoint ascii_toLowerCase (s : string) : string :=
  match s with
  | String c rest => String (lower c) (ascii_toLowerCase rest)
  | EmptyString => EmptyString
  end.

End Excel.

(* ================================================================== *)
(** ** The results view: [getBetaConfig], columns, peer statistics     *)
(* ================================================================== *)

Module Results.

(** The object [getBetaConfig] returns; [icon] is the icon's name. *)
Record BetaConfig : Type := mkBetaConfig
  { label : string;
    color : string;
    bg : string;
    icon : string;
    ring : string }.

(** The thresholds [1.2] and [0.8], as the binary64 numbers the literals
    denote. *)
Definition threshold_aggressive : float := 0x1.3333333333333p+0.
Definition threshold_defensive : float := 0x1.999999999999ap-1.

Definition getBetaConfig (beta : option float) : BetaConfig :=
  match beta with
  | None =>
      mkBetaConfig "N/A" "text-muted-foreground" "bg-muted/50" "Minus" "ring-border"
  | Some beta =>
      if threshold_aggressive <? beta then
        mkBetaConfig "Aggressive" "text-red-500" "bg-red-500/8" "TrendingUp"
                     "ring-red-500/30"
      else if beta <? threshold_defensive then
        mkBetaConfig "Defensive" "text-emerald-500" "bg-emerald-500/8"
                     "TrendingDown" "ring-emerald-500/30"
      else
        mkBetaConfig "Neutral" "text-primary" "bg-primary/8" "Minus"
                     "ring-primary/30"
  end.

(** The place of a label on the scale from defensive to aggressive. *)
Definition risk_level (label : string) : nat :=
  if String.eqb label "Defensive" then 0
  else if String.eqb label "Neutral" then 1
  else 2.

(** An entry of [METRICS_CONFIG]; its [format] function, which prints a
    number, is not part of the model. *)
Record MetricConfig : Type := mkMetricConfig
  { id : string;
    metric_label : string;
    category : string }.

Definition METRICS_CONFIG : list MetricConfig :=
  [ mkMetricConfig "marketCap" "Mkt Cap" "Size";
    mkMetricConfig "revenue" "Revenue" "Size";
    mkMetricConfig "enterpriseValue" "EV" "Size";
    mkMetricConfig "evRevenueMultiple" "EV/Rev" "Valuation";
    mkMetricConfig "peRatio" "P/E" "Valuation";
    mkMetricConfig "pbRatio" "P/B" "Valuation";
    mkMetricConfig "dividendYield" "Div Yield" "Income";
    mkMetricConfig "ebitda" "EBITDA" "Profit";
    mkMetricConfig "debtToEquity" "D/E" "Risk";
    mkMetricConfig "profitMargin" "Margin" "Profit";
    mkMetricConfig "volatility" "Volatility" "Risk";
    mkMetricConfig "rSquared" "R²" "Risk" ].

(** The initial state of [visibleMetrics]. *)
Definition initial_visibleMetrics : list string :=
  ["marketCap"; "revenue"; "enterpriseValue"; "evRevenueMultiple"; "peRatio";
   "volatility"]%string.

(** The updater of [toggleMetric]:
    [prev.includes(id) ? prev.filter(m => m !== id) : [...prev, id]]. *)
Definition toggleMetric (id : string) (prev : list string) : list string :=
  if Array_includes prev id
  then List.filter (fun m => negb (String.eqb m id)) prev
  else prev ++ [id].

(** [METRICS_CONFIG.filter(m => visibleMetrics.includes(m.id))]: the
    columns of the peer table and of the CSV export. *)
Definition active (visibleMetrics : list string) : list MetricConfig :=
  List.filter (fun m => Array_includes visibleMetrics (id m)) METRICS_CONFIG.

(** [data.peers.map(p => p.beta).filter(b => b !== null)]. *)
Definition validBetas (peers : list Peer.t) : list float := omap Peer.beta peers.

Definition avgBeta (peers : list Peer.t) : option float :=
  let validBetas := validBetas peers in
  if (0 <? length validBetas)%nat
  then Some (reduce_add validBetas / of_nat (length validBetas))
  else None.

(** The comparator [(a, b) => a - b]. *)
Definition ascending (a b : float) : float := a - b.

Definition sortedBetas (peers : list Peer.t) : list float :=
  sort ascending (validBetas peers).

(** [Math.floor(sortedBetas.length / 2)]. *)
Definition mid (peers : list Peer.t) : nat := length (sortedBetas peers) / 2.

(** [medianBeta]; [mid - 1] is read only when the length is even and not
    zero, where [mid] is at least one. *)
Definition medianBeta (peers : list Peer.t) : option float :=
  let sortedBetas := sortedBetas peers in
  let mid := mid peers in
  if (length sortedBetas =? 0)%nat then None
  else if negb (length sortedBetas mod 2 =? 0)%nat then sortedBetas !! mid
  else Some ((idx sortedBetas (mid - 1) + idx sortedBetas mid) / 2).

(** [peer.sector?.split(" > ")[1]]: the industry shown for a peer. *)
Definition sector_industry (sector : string) : option string :=
  split " > " sector !! 1%nat.

(** The industry cell of the CSV export: [.. || "N/A"]. *)
Definition csv_industry (sector : string) : string :=
  str_or (sector_industry sector) "N/A".

(** [targetIndustry], read off the first peer. *)
Definition targetIndustry (peers : list Peer.t) : option string :=
  match peers with
  | p :: _ => split " > " (Peer.sector p) !! 1%nat
  | [] => Some EmptyString
  end.

End Results.

(* ================================================================== *)
(** ** The loading view: [LoadingState]                                *)
(* ================================================================== *)

Module Loading.

Definition LOADING_STAGES : list string :=
  [ "Fetching historical price data…";
    "Running beta regression model…";
    "Identifying peer comparables…";
    "Converting financials to INR…";
    "Computing valuation multiples…";
    "Finalizing analysis output…" ]%string.

(** The updater of the stage timer:
    [s => Math.min(s + 1, LOADING_STAGES.length - 1)]. *)
Definition stage_tick (s : float) : float :=
  Math_min (s + 1) (of_nat (length LOADING_STAGES) - 1).

(** The updater of the progress timer: [p => Math.min(p + 1.2, 95)], with
    [1.2] the binary64 number the literal denotes. *)
Definition progress_tick (p : float) : float :=
  Math_min (p + 0x1.3333333333333p+0) 95.

(** The two states after [k] ticks of their timer, from [useState(0)]. *)
Definition stage_after (k : nat) : float := Nat.iter k stage_tick 0.
Definition progress_after (k : nat) : float := Nat.iter k progress_tick 0.

(** [LOADING_STAGES[stage]]. *)
Definition stage_text (stage : float) : option string :=
  array_at LOADING_STAGES stage.

End Loading.

(** A binary64 value that is not below zero: a zero, or a value of the
    sign [+]. *)
Definition not_below_zero (x : spec_float) : Prop :=
  (exists s, x = S754_zero s) \/ F64.signed false x.

(* ================================================================== *)
(** ** Providers and responses to compare with; samples                *)
(* ================================================================== *)

(** The provider [yf] with the recommender failing. *)
Definition fail_recommendations (yf : Provider) : Provider :=
  Yf.mk (Yf.historical yf) (Yf.quote yf) (Yf.quoteSummary yf) (fun _ => Rejects).

(** The response with no peer. *)
Definition without_peers (r : Response) : Response :=
  match r with
  | Json target _ => Json target []
  | _ => r
  end.

(** The peers of a response; a response without a target has none. *)
Definition response_peers (r : Response) : list Peer.t :=
  match r with
  | Json _ peers => peers
  | _ => []
  end.

(** The target of a response, or [d]. *)
Definition response_target (r : Response) (d : Target.t) : Target.t :=
  match r with
  | Json target _ => target
  | _ => d
  end.

Module Samples.
Import Excel.

(** A provider with five days of history: the benchmark has the market
    prices of Scenario A, every other symbol the stock prices; it
    recommends one symbol, gives every symbol one summary, and no quote. *)
Definition five_days : list string :=
  ["2024-01-01"; "2024-01-02"; "2024-01-03"; "2024-01-04"; "2024-01-05"]%string.

Definition history_of (prices : list float) : list HistoricalRow :=
  zip_with (fun d p => mkRow d (Some p)) five_days prices.

Definition scenario_provider : Provider :=
  Yf.mk (fun s => if String.eqb s "^NSEI" then Resolves (history_of scenarioA_market)
                  else Resolves (history_of scenarioA_stock))
        (fun _ => Rejects)
        (fun _ _ => Resolves software_summary)
        (fun _ => Resolves (Some ["AAA.NS"]%string)).

Definition scenario_response : Response :=
  handler scenario_provider [] sample_request.

(** A sheet with a name, a ticker and an industry column; the second
    data row has no ticker. *)
Definition sample_sheet : list Row :=
  [ [Some (Text "Company Name"); Some (Text " Ticker "); Some (Text "Industry")];
    [Some (Text "Tata Consultancy"); Some (Text "NSE:TCS"); Some (Text "Software")];
    [Some (Text "No Ticker Ltd"); None; Some (Text "Software")];
    [Some (Text "Infosys"); Some (Text " INFY "); Some (Text "Software")] ]%string.

(** The same sheet with an empty first header cell. *)
Definition blank_header_sheet : list Row :=
  [ [None; Some (Text "Ticker"); Some (Text "Industry")];
    [Some (Text "Tata Consultancy"); Some (Text "NSE:TCS"); Some (Text "Software")] ]%string.

(** A sheet with no industry column. *)
Definition no_industry_sheet : list Row :=
  [ [Some (Text "Name"); Some (Text "Symbol")];
    [Some (Text "Target"); Some (Text "TGT")];
    [Some (Text "Other"); Some (Text "AAA")] ]%string.

Definition load (sheet : list Row) : list Directory.entry :=
  loadExcelData ascii_trim ascii_toLowerCase (Some sheet) [].

(** A search as the handler passes it, and three of them created at the
    times [1000], [3000] and [2000]. *)
Definition sample_search : InsertSearch.t :=
  InsertSearch.mk "TGT.NS" "NSE" "2020-01-01" "2025-01-01" (Some 1) [].

Definition store_of_three : MemStorage.t unit :=
  snd (MemStorage.createSearch 2000 sample_search
         (snd (MemStorage.createSearch 3000 sample_search
                 (snd (MemStorage.createSearch 1000 sample_search MemStorage.new))))).

(** A store whose counter stands at [2^53], the first count [n] with
    [n + 1 = n] in binary64. *)
Definition saturated_store : MemStorage.t unit :=
  MemStorage.mk [] [] 0x1p+53.

Definition sample_profile : InsertCompanyProfile.t string :=
  InsertCompanyProfile.mk "TCS.NS" "Software".

(** A peer of the response with the given beta, or with none. *)
Definition peer_with_beta (b : option float) : Peer.t :=
  peerData sample_peer ((fun b => mkMetrics b 0 1 1 1) <$> b) None None 83.

Definition three_betas : list Peer.t :=
  [peer_with_beta (Some 2); peer_with_beta None; peer_with_beta (Some 0.5);
   peer_with_beta (Some 1)].

Definition two_betas : list Peer.t :=
  [peer_with_beta (Some 2); peer_with_beta (Some 0.5)].

End Samples.

(* ================================================================== *)
(** * Facts of binary64 arithmetic                                     *)
(* ================================================================== *)

(** Proved from the specification of the primitive operations
    ([FloatAxioms]): operations that are exact, and the order of numbers. *)
Module F64Facts.
Import F64.
Local Open Scope Z_scope.



Lemma iter_pos_nat {A} (f : A -> A) (p : positive) (x : A) :
  SpecFloat.iter_pos f p x = Nat.iter (Pos.to_nat p) f x.
Proof.
  revert x; induction p as [p IH|p IH|]; intros x; cbn [SpecFloat.iter_pos].
  - rewrite !IH, Pos2Nat.inj_xI, <- Nat.iter_add, <- Nat.iter_succ_r.
    f_equal. lia.
  - rewrite !IH, Pos2Nat.inj_xO, <- Nat.iter_add. f_equal. lia.
  - reflexivity.
Qed.

Lemma Zpos_iter_xO (n : nat) (m : positive) :
  Zpos (Nat.iter n xO m) = Zpos m * 2 ^ Z.of_nat n.
Proof.
  induction n as [|n IH].
  - simpl. lia.
  - rewrite Nat2Z.inj_succ, Z.pow_succ_r by lia.
    change (Nat.iter (S n) xO m) with (xO (Nat.iter n xO m)).
    rewrite Pos2Z.inj_xO, IH. lia.
Qed.

Lemma digits_iter_xO (n : nat) (m : positive) :
  Zpos (digits2_pos (Nat.iter n xO m)) = Zpos (digits2_pos m) + Z.of_nat n.
Proof.
  induction n as [|n IH].
  - simpl. lia.
  - change (Nat.iter (S n) xO m) with (xO (Nat.iter n xO m)).
    cbn [digits2_pos]. rewrite Pos2Z.inj_succ, IH. lia.
Qed.

(** Shifting out [n] zero bits loses nothing. *)
Lemma shr_exact (n : nat) (m : positive) :
  Nat.iter n shr_1 (Build_shr_record (Zpos (Nat.iter n xO m)) false false)
  = Build_shr_record (Zpos m) false false.
Proof.
  revert m; induction n as [|n IH]; intros m; [reflexivity|].
  rewrite (Nat.iter_succ n shr_1), (Nat.iter_succ_r n xO m), IH.
  reflexivity.
Qed.

Lemma bounded_canonical (m : positive) (e : Z) :
  bounded prec emax m e = true ->
  fexp64 (Zpos (digits2_pos m) + e) = e /\ e <= emax - prec.
Proof.
  unfold bounded, canonical_mantissa. intros H.
  apply andb_true_iff in H as [H1 H2].
  apply Z.eqb_eq in H1. apply Z.leb_le in H2. done.
Qed.

Lemma shr_nonpos (r : shr_record) (e n : Z) :
  n <= 0 -> shr r e n = (r, e).
Proof. intros Hn. destruct n; [reflexivity|lia|reflexivity]. Qed.

Lemma shr_of_nat (r : shr_record) (e : Z) (n : nat) :
  shr r e (Z.of_nat n) = (Nat.iter n shr_1 r, e + Z.of_nat n).
Proof.
  destruct n as [|n].
  - simpl. f_equal. lia.
  - unfold shr. change (Z.of_nat (S n)) with (Zpos (Pos.of_succ_nat n)).
    cbv beta iota. rewrite iter_pos_nat, SuccNat2Pos.id_succ.
    reflexivity.
Qed.

(** Rounding a value that already fits: [m * 2^n] at exponent [e - n],
    for a canonical [(m, e)], rounds to [(m, e)]. *)
Lemma round_exact (s : bool) (m : positive) (e : Z) (n : nat) :
  bounded prec emax m e = true ->
  binary_round_aux prec emax s (Zpos (Nat.iter n xO m)) (e - Z.of_nat n) loc_Exact
  = S754_finite s m e.
Proof.
  intros Hb. destruct (bounded_canonical _ _ Hb) as [Hc He].
  unfold binary_round_aux, shr_fexp.
  cbn [Zdigits2]. rewrite digits_iter_xO.
  replace (Zpos (digits2_pos m) + Z.of_nat n + (e - Z.of_nat n))
    with (Zpos (digits2_pos m) + e) by lia.
  rewrite Hc.
  replace (e - (e - Z.of_nat n)) with (Z.of_nat n) by lia.
  cbn [shr_record_of_loc]. rewrite shr_of_nat, shr_exact.
  cbn [shr_m loc_of_shr_record round_nearest_even Zdigits2].
  replace (e - Z.of_nat n + Z.of_nat n) with e by lia.
  rewrite Hc, Z.sub_diag. cbn [shr shr_m].
  apply Z.leb_le in He. by rewrite He.
Qed.

(** *** Shapes of a binary64 value *)

Lemma Prim2SF_nan (x : float) : is_nan x = true -> Prim2SF x = S754_nan.
Proof. intros H. unfold Prim2SF. by rewrite H. Qed.

Lemma Prim2SF_not_nan (x : float) : is_nan x = false -> Prim2SF x <> S754_nan.
Proof.
  intros H. unfold Prim2SF. rewrite H.
  destruct (PrimFloat.is_zero x); [discriminate|].
  destruct (is_infinity x); [discriminate|].
  destruct (Z.frexp x) as [r ex].
  destruct (shr_fexp _ _ _ _ _) as [sh e'].
  destruct (shr_m sh); discriminate.
Qed.

Lemma is_nan_Prim2SF (x : float) : is_nan x = true <-> Prim2SF x = S754_nan.
Proof.
  split; [apply Prim2SF_nan|].
  intros H. destruct (is_nan x) eqn:E; [reflexivity|].
  by apply Prim2SF_not_nan in E.
Qed.

Lemma SFeqb_inf (x : spec_float) :
  SFeqb (SFabs x) (S754_infinity false) = true <-> exists s, x = S754_infinity s.
Proof.
  split.
  - destruct x as [s|s| |s m e]; try discriminate; eauto.
  - intros [s ->]. reflexivity.
Qed.

Lemma is_infinity_Prim2SF (x : float) :
  is_infinity x = true <-> exists s, Prim2SF x = S754_infinity s.
Proof.
  unfold is_infinity. rewrite FloatAxioms.eqb_spec, FloatAxioms.abs_spec.
  apply SFeqb_inf.
Qed.

(** A finite value is a zero or a canonical mantissa and exponent. *)
Lemma is_finite_Prim2SF (x : float) :
  is_finite x = true ->
  (exists s, Prim2SF x = S754_zero s)
  \/ (exists s m e, Prim2SF x = S754_finite s m e /\ bounded prec emax m e = true).
Proof.
  unfold is_finite. intros H. apply negb_true_iff, orb_false_iff in H as [Hn Hi].
  apply Prim2SF_not_nan in Hn.
  pose proof (Prim2SF_valid x) as Hv.
  destruct (Prim2SF x) as [s|s| |s m e] eqn:E; [eauto| |done|eauto 6].
  assert (is_infinity x = true) by (apply is_infinity_Prim2SF; eauto).
  congruence.
Qed.

(** *** Operations that are exact *)

Lemma mul_1_r (x : float) : (x * 1)%float = x.
Proof.
  apply Prim2SF_inj. rewrite FloatAxioms.mul_spec.
  change (Prim2SF 1) with (S754_finite false 4503599627370496 (-52)).
  pose proof (Prim2SF_valid x) as Hv.
  destruct (Prim2SF x) as [s|s| |s m e]; cbn [SF64mul SFmul];
    rewrite ?xorb_false_r; try reflexivity.
  rewrite Pos.mul_comm.
  change (4503599627370496 * m)%positive with (Nat.iter 52 xO m).
  change (e + -52) with (e - Z.of_nat 52).
  by apply round_exact.
Qed.

Lemma fexp64_eq (z : Z) : fexp64 z = Z.max (z - 53) (-1074).
Proof. reflexivity. Qed.

Lemma div_eucl_exact (b q : Z) : 0 < b -> Z.div_eucl (b * q) b = (q, 0).
Proof.
  intros Hb. pose proof (Z_div_mod (b * q) b ltac:(lia)) as H.
  destruct (Z.div_eucl (b * q) b) as [q' r']. destruct H as [H1 H2].
  assert (q' = q /\ r' = 0) as [-> ->]; [|reflexivity].
  apply (Z.div_mod_unique b); [lia|lia|lia].
Qed.

Lemma new_location_0 (k : Z) : new_location k 0 = loc_Exact.
Proof. unfold new_location. by destruct (Z.even k). Qed.

Lemma div_1_r (x : float) : (x / 1)%float = x.
Proof.
  apply Prim2SF_inj. rewrite FloatAxioms.div_spec.
  change (Prim2SF 1) with (S754_finite false 4503599627370496 (-52)).
  pose proof (Prim2SF_valid x) as Hv.
  destruct (Prim2SF x) as [s|s| |s m e]; cbn [SF64div SFdiv];
    rewrite ?xorb_false_r; try reflexivity.
  cbn [valid_binary] in Hv. destruct (bounded_canonical _ _ Hv) as [Hc He].
  unfold SFdiv_core_binary. cbn [Zdigits2].
  change (Zpos (digits2_pos 4503599627370496)) with 53.
  rewrite fexp64_eq in Hc. rewrite fexp64_eq.
  set (d := Zpos (digits2_pos m)) in *.
  set (e1 := Z.max (d + e - (53 + -52) - 53) (-1074)).
  assert (He1 : e1 <= e /\ e - 1 <= e1) by lia.
  rewrite (Z.min_l e1) by lia.
  destruct (e - -52 - e1) as [|p|p] eqn:Hs; [lia| |lia].
  rewrite Z.shiftl_mul_pow2 by lia.
  replace (Zpos m * 2 ^ Zpos p)
    with (4503599627370496 * (Zpos m * 2 ^ Z.of_nat (Z.to_nat (e - e1)))).
  2:{ replace (Zpos p) with (52 + Z.of_nat (Z.to_nat (e - e1))) by lia.
      rewrite Z.pow_add_r by lia. change (2 ^ 52) with 4503599627370496. lia. }
  rewrite div_eucl_exact by lia. rewrite new_location_0.
  rewrite <- Zpos_iter_xO.
  replace e1 with (e - Z.of_nat (Z.to_nat (e - e1))) at 2 by lia.
  by apply round_exact.
Qed.

Lemma Prim2SF_zero_eqb (x : float) (s : bool) :
  Prim2SF x = S754_zero s -> (x =? 0)%float = true.
Proof. intros H. rewrite FloatAxioms.eqb_spec, H. reflexivity. Qed.

(** A finite non-zero value divided by itself is exactly [1]. *)
Lemma div_diag (x : float) :
  is_finite x = true -> (x =? 0)%float = false -> (x / x)%float = 1%float.
Proof.
  intros Hf Hz. apply Prim2SF_inj. rewrite FloatAxioms.div_spec.
  destruct (is_finite_Prim2SF x Hf) as [[s E]|(s & m & e & E & Hb)].
  { apply Prim2SF_zero_eqb in E. congruence. }
  rewrite E. cbn [SF64div SFdiv]. unfold SFdiv_core_binary.
  rewrite !Z.sub_diag. change (Z.min (fexp64 0) 0) with (-53).
  change (0 - -53) with 53.
  rewrite Z.shiftl_mul_pow2 by lia.
  rewrite div_eucl_exact by lia. rewrite new_location_0.
  rewrite xorb_nilpotent. reflexivity.
Qed.

(** Zero times a finite value is a zero. *)
Lemma mul_0_l (f : float) :
  is_finite f = true -> (0 * f =? 0)%float = true.
Proof.
  intros Hf. rewrite FloatAxioms.eqb_spec, FloatAxioms.mul_spec.
  change (Prim2SF 0) with (S754_zero false).
  destruct (is_finite_Prim2SF f Hf) as [[s E]|(s & m & e & E & Hb)];
    rewrite E; reflexivity.
Qed.

(** *** The order of binary64 values *)

Lemma digits_bounds (m : positive) :
  2 ^ (Zpos (digits2_pos m) - 1) <= Zpos m < 2 ^ Zpos (digits2_pos m).
Proof.
  induction m as [m IH|m IH|]; cbn [digits2_pos]; [| |simpl; lia].
  - rewrite Pos2Z.inj_succ, (Pos2Z.inj_xI m).
    replace (Z.succ (Zpos (digits2_pos m)) - 1)
      with (Z.succ (Zpos (digits2_pos m) - 1)) by lia.
    rewrite !Z.pow_succ_r by lia. lia.
  - rewrite Pos2Z.inj_succ, (Pos2Z.inj_xO m).
    replace (Z.succ (Zpos (digits2_pos m)) - 1)
      with (Z.succ (Zpos (digits2_pos m) - 1)) by lia.
    rewrite !Z.pow_succ_r by lia. lia.
Qed.

Lemma bounded_shape (m : positive) (e : Z) :
  bounded prec emax m e = true ->
  -1074 <= e <= 971 /\ Zpos (digits2_pos m) <= 53
  /\ (e = -1074 \/ Zpos (digits2_pos m) = 53).
Proof.
  intros Hb. destruct (bounded_canonical _ _ Hb) as [Hc He].
  rewrite fexp64_eq in Hc. change (emax - prec) with 971 in He. lia.
Qed.

Lemma mag_bounds (m : positive) (e : Z) :
  bounded prec emax m e = true -> 1 <= mag m e < top.
Proof.
  intros Hb. destruct (bounded_shape _ _ Hb) as (He & Hd & _).
  pose proof (digits_bounds m) as [_ Hm].
  unfold mag, top. change emin with (-1074). change emax with 1024.
  assert (H1 : 0 < 2 ^ (e - -1074)) by (apply Z.pow_pos_nonneg; lia).
  split; [nia|].
  assert (H2 : 2 ^ Zpos (digits2_pos m) <= 2 ^ 53)
    by (apply Z.pow_le_mono_r; lia).
  assert (H3 : 2 ^ (e - -1074) <= 2 ^ 2045) by (apply Z.pow_le_mono_r; lia).
  replace (1024 - -1074) with (53 + 2045) by lia.
  rewrite Z.pow_add_r by lia.
  assert (H4 : 0 < 2 ^ 53) by lia.
  nia.
Qed.

Lemma mag_lt_exp (m1 m2 : positive) (e1 e2 : Z) :
  bounded prec emax m1 e1 = true -> bounded prec emax m2 e2 = true ->
  e1 < e2 -> mag m1 e1 < mag m2 e2.
Proof.
  intros Hb1 Hb2 Hlt.
  destruct (bounded_shape _ _ Hb1) as (He1 & Hd1 & _).
  destruct (bounded_shape _ _ Hb2) as (He2 & Hd2 & Hn2).
  pose proof (digits_bounds m1) as [_ Hm1].
  pose proof (digits_bounds m2) as [Hm2 _].
  assert (Hd : Zpos (digits2_pos m2) = 53) by lia. rewrite Hd in Hm2.
  assert (H1 : 2 ^ Zpos (digits2_pos m1) <= 2 ^ 53)
    by (apply Z.pow_le_mono_r; lia).
  unfold mag. change emin with (-1074).
  replace (e2 - -1074) with ((e2 - e1 - 1) + 1 + (e1 - -1074)) by lia.
  rewrite !Z.pow_add_r by lia.
  assert (H2 : 0 < 2 ^ (e1 - -1074)) by (apply Z.pow_pos_nonneg; lia).
  assert (H3 : 0 < 2 ^ (e2 - e1 - 1)) by (apply Z.pow_pos_nonneg; lia).
  change (2 ^ (53 - 1)) with 4503599627370496 in Hm2.
  change (2 ^ 53) with 9007199254740992 in H1.
  change (2 ^ 1) with 2.
  assert (Zpos m1 < Zpos m2 * (2 ^ (e2 - e1 - 1) * 2)) by nia.
  nia.
Qed.

Lemma mag_compare_same_exp (m1 m2 : positive) (e : Z) :
  -1074 <= e -> (mag m1 e ?= mag m2 e) = (m1 ?= m2)%positive.
Proof.
  intros He. unfold mag. change emin with (-1074).
  assert (H2 : 0 < 2 ^ (e - -1074)) by (apply Z.pow_pos_nonneg; lia).
  rewrite Pos2Z.inj_compare.
  symmetry. apply Zmult_compare_compat_r. lia.
Qed.

Lemma top_pos : 0 < top.
Proof. reflexivity. Qed.

Ltac cmp_goal :=
  f_equal; symmetry;
  first [ apply Z.compare_lt_iff | apply Z.compare_gt_iff | apply Z.compare_eq_iff ].

Lemma SFcompare_rank (x y : spec_float) :
  valid_binary x = true -> valid_binary y = true ->
  x <> S754_nan -> y <> S754_nan ->
  SFcompare x y = Some (rank x ?= rank y).
Proof.
  intros Hx Hy Nx Ny. pose proof top_pos as Ht.
  destruct x as [sx|sx| |sx mx ex], y as [sy|sy| |sy my ey];
    try contradiction; cbn [valid_binary] in *;
    try (pose proof (mag_bounds _ _ Hx) as Bx);
    try (pose proof (mag_bounds _ _ Hy) as By);
    cbn [rank SFcompare].
  - reflexivity.
  - destruct sy; cbn [cond_Zopp]; cmp_goal; lia.
  - destruct sy; cbn [cond_Zopp]; cmp_goal; lia.
  - destruct sx; cbn [cond_Zopp]; cmp_goal; lia.
  - destruct sx, sy; cbn [cond_Zopp]; cmp_goal; lia.
  - destruct sx, sy; cbn [cond_Zopp]; cmp_goal; lia.
  - destruct sx; cbn [cond_Zopp]; cmp_goal; lia.
  - destruct sx, sy; cbn [cond_Zopp]; cmp_goal; lia.
  - destruct (bounded_shape _ _ Hx) as (Hex & _).
    destruct sx, sy; cbn [cond_Zopp]; try (cmp_goal; lia).
    + rewrite Z.compare_opp.
      destruct (Z.compare_spec ex ey) as [->|Hlt|Hgt].
      * change (Pos.compare_cont Eq mx my) with (mx ?= my)%positive.
        rewrite mag_compare_same_exp by lia.
        by rewrite <- Pos.compare_antisym.
      * pose proof (mag_lt_exp _ _ _ _ Hx Hy Hlt). cmp_goal; lia.
      * pose proof (mag_lt_exp _ _ _ _ Hy Hx Hgt). cmp_goal; lia.
    + destruct (Z.compare_spec ex ey) as [->|Hlt|Hgt].
      * change (Pos.compare_cont Eq mx my) with (mx ?= my)%positive.
        by rewrite mag_compare_same_exp by lia.
      * pose proof (mag_lt_exp _ _ _ _ Hx Hy Hlt). cmp_goal; lia.
      * pose proof (mag_lt_exp _ _ _ _ Hy Hx Hgt). cmp_goal; lia.
Qed.

(** *** The sign of a rounded value *)

Lemma shr_m_of_loc (m : Z) (l : location) : shr_m (shr_record_of_loc m l) = m.
Proof. by destruct l as [|[]]. Qed.

Lemma shr_1_m (r : shr_record) :
  0 <= shr_m r -> shr_m (shr_1 r) = shr_m r / 2.
Proof.
  destruct r as [m rr ss]. cbn [shr_m]. intros Hm.
  rewrite <- Z.div2_div.
  destruct m as [|[p|p|]|]; try reflexivity; lia.
Qed.

Lemma iter_shr_m (n : nat) (r : shr_record) :
  0 <= shr_m r ->
  shr_m (Nat.iter n shr_1 r) = shr_m r / 2 ^ Z.of_nat n.
Proof.
  intros Hm. induction n as [|n IH].
  - simpl. by rewrite Z.div_1_r.
  - rewrite Nat.iter_succ, shr_1_m, IH.
    + rewrite Nat2Z.inj_succ, Z.pow_succ_r, Z.div_div by lia.
      f_equal. lia.
    + rewrite IH. apply Z.div_pos; [lia|]. apply Z.pow_pos_nonneg; lia.
Qed.

Lemma shr_fexp_pos (m : positive) (e : Z) (l : location) :
  -1074 <= e ->
  0 < shr_m (fst (shr_fexp prec emax (Zpos m) e l))
  /\ -1074 <= snd (shr_fexp prec emax (Zpos m) e l).
Proof.
  intros He. unfold shr_fexp. cbn [Zdigits2]. rewrite fexp64_eq.
  pose proof (digits_bounds m) as [Hm _].
  set (d := Zpos (digits2_pos m)) in *.
  destruct (Z_le_gt_dec (Z.max (d + e - 53) (-1074) - e) 0) as [Hn|Hn].
  - rewrite shr_nonpos by done. cbn [fst snd]. rewrite shr_m_of_loc. lia.
  - rewrite <- (Z2Nat.id (Z.max (d + e - 53) (-1074) - e)) by lia.
    rewrite shr_of_nat. cbn [fst snd].
    rewrite iter_shr_m by (rewrite shr_m_of_loc; lia).
    rewrite shr_m_of_loc, Z2Nat.id by lia.
    split; [|lia].
    apply Z.div_str_pos. split; [apply Z.pow_pos_nonneg; lia|].
    etrans; [|exact Hm]. apply Z.pow_le_mono_r; lia.
Qed.

Lemma round_nearest_even_pos (m : Z) (l : location) :
  0 < m -> 0 < round_nearest_even m l.
Proof.
  intros Hm. destruct l as [|[]]; cbn [round_nearest_even]; try lia.
  destruct (Z.even m); lia.
Qed.

Lemma binary_round_aux_signed (s : bool) (m : positive) (e : Z) (l : location) :
  -1074 <= e -> signed s (binary_round_aux prec emax s (Zpos m) e l).
Proof.
  intros He. unfold binary_round_aux.
  destruct (shr_fexp_pos m e l He) as [H1 H2].
  destruct (shr_fexp prec emax (Zpos m) e l) as [r1 e1]. cbn [fst snd] in *.
  pose proof (round_nearest_even_pos (shr_m r1) (loc_of_shr_record r1) H1) as H3.
  destruct (round_nearest_even (shr_m r1) (loc_of_shr_record r1)) as [|m2|m2];
    try lia.
  destruct (shr_fexp_pos m2 e1 loc_Exact H2) as [H4 H5].
  destruct (shr_fexp prec emax (Zpos m2) e1 loc_Exact) as [r2 e2].
  cbn [fst snd] in *.
  destruct (shr_m r2) as [|m3|m3]; try lia.
  destruct (e2 <=? emax - prec); [right; eauto|by left].
Qed.

Lemma binary_round_signed (s : bool) (m : positive) (e : Z) :
  -1074 <= e -> signed s (binary_round prec emax s m e).
Proof.
  intros He. unfold binary_round, shl_align. rewrite fexp64_eq.
  destruct (Z.max (Zpos (digits2_pos m) + e - 53) (-1074) - e) eqn:E;
    apply binary_round_aux_signed; lia.
Qed.

Lemma SFltb_zero_signed (s : bool) (x : spec_float) :
  signed s x -> SFltb (S754_zero false) x = negb s.
Proof. intros [->|(m & e & ->)]; by destruct s. Qed.

Lemma shl_align_fst (m : positive) (e ez : Z) :
  ez <= e -> Zpos (fst (shl_align m e ez)) = Zpos m * 2 ^ (e - ez).
Proof.
  intros Hle. unfold shl_align.
  destruct (ez - e) as [|d|d] eqn:E; [|lia|]; cbn [fst].
  - replace (e - ez) with 0 by lia. lia.
  - rewrite (Pos.iter_swap_gen _ _ Zpos xO (Z.mul 2)) by reflexivity.
    change (Pos.iter (Z.mul 2) (Zpos m) d) with (Z.shiftl (Zpos m) (Zpos d)).
    rewrite Z.shiftl_mul_pow2 by lia. f_equal. f_equal. lia.
Qed.

Lemma mag_split (m : positive) (e ez : Z) :
  -1074 <= ez <= e -> mag m e = Zpos m * 2 ^ (e - ez) * 2 ^ (ez - -1074).
Proof.
  intros H. unfold mag. change emin with (-1074).
  rewrite <- Z.mul_assoc, <- Z.pow_add_r by lia. f_equal. f_equal. lia.
Qed.

Lemma cond_Zopp_mul (s : bool) (a k : Z) : cond_Zopp s (a * k) = cond_Zopp s a * k.
Proof. destruct s; cbn [cond_Zopp]; lia. Qed.

(** The sign of a difference is the order of the operands. *)
Lemma SFsub_pos_rank (x y : spec_float) :
  valid_binary x = true -> valid_binary y = true ->
  x <> S754_nan -> y <> S754_nan ->
  SFltb (S754_zero false) (SF64sub y x) = (rank x <? rank y).
Proof.
  intros Hx Hy Nx Ny. pose proof top_pos as Ht.
  destruct x as [sx|sx| |sx mx ex], y as [sy|sy| |sy my ey];
    try contradiction; cbn [valid_binary] in *;
    try (pose proof (mag_bounds _ _ Hx) as Bx);
    try (pose proof (mag_bounds _ _ Hy) as By);
    cbn [rank SF64sub SFsub].
  - by destruct sx, sy.
  - destruct sy; cbn [cond_Zopp]; symmetry;
      [apply Z.ltb_ge|apply Z.ltb_lt]; lia.
  - destruct sy; cbn [cond_Zopp]; symmetry;
      [apply Z.ltb_ge|apply Z.ltb_lt]; lia.
  - destruct sx; cbn [cond_Zopp negb]; symmetry;
      [apply Z.ltb_lt|apply Z.ltb_ge]; lia.
  - destruct sx, sy; cbn [cond_Zopp negb]; symmetry;
      first [apply Z.ltb_lt; lia|apply Z.ltb_ge; lia].
  - destruct sx, sy; cbn [cond_Zopp negb]; symmetry;
      first [apply Z.ltb_lt; lia|apply Z.ltb_ge; lia].
  - destruct sx; cbn [cond_Zopp negb]; symmetry;
      [apply Z.ltb_lt|apply Z.ltb_ge]; lia.
  - destruct sx, sy; cbn [cond_Zopp negb]; symmetry;
      first [apply Z.ltb_lt; lia|apply Z.ltb_ge; lia].
  - destruct (bounded_shape _ _ Hx) as (Hex & _).
    destruct (bounded_shape _ _ Hy) as (Hey & _).
    set (ez := Z.min ey ex).
    rewrite !shl_align_fst by lia.
    rewrite (mag_split mx ex ez), (mag_split my ey ez) by lia.
    rewrite !cond_Zopp_mul.
    set (a := cond_Zopp sx (Zpos mx) * 2 ^ (ex - ez)).
    set (b := cond_Zopp sy (Zpos my) * 2 ^ (ey - ez)).
    assert (Hk : 0 < 2 ^ (ez - -1074)) by (apply Z.pow_pos_nonneg; lia).
    assert (Hab : (a * 2 ^ (ez - -1074) <? b * 2 ^ (ez - -1074)) = (0 <? b - a)).
    { destruct (Z.ltb_spec 0 (b - a)); [apply Z.ltb_lt|apply Z.ltb_ge]; nia. }
    rewrite Hab. unfold binary_normalize.
    destruct (b - a) as [|p|p] eqn:E.
    + reflexivity.
    + rewrite (SFltb_zero_signed false) by (apply binary_round_signed; lia).
      reflexivity.
    + rewrite (SFltb_zero_signed true) by (apply binary_round_signed; lia).
      reflexivity.
Qed.


(** *** Products are numbers *)

Lemma shr_fexp_nonneg (m e : Z) (l : location) :
  0 <= m -> 0 <= shr_m (fst (shr_fexp prec emax m e l)).
Proof.
  intros Hm. unfold shr_fexp.
  destruct (Z_le_gt_dec (fexp64 (Zdigits2 m + e) - e) 0) as [Hn|Hn].
  - rewrite shr_nonpos by done. cbn [fst]. by rewrite shr_m_of_loc.
  - rewrite <- (Z2Nat.id (fexp64 (Zdigits2 m + e) - e)) by lia.
    rewrite shr_of_nat. cbn [fst].
    rewrite iter_shr_m by (by rewrite shr_m_of_loc).
    rewrite shr_m_of_loc. apply Z.div_pos; [done|].
    apply Z.pow_pos_nonneg; lia.
Qed.

Lemma round_nearest_even_nonneg (m : Z) (l : location) :
  0 <= m -> 0 <= round_nearest_even m l.
Proof.
  intros Hm. destruct l as [|[]]; cbn [round_nearest_even]; try lia.
  destruct (Z.even m); lia.
Qed.

Lemma binary_round_aux_not_nan (s : bool) (m : positive) (e : Z) (l : location) :
  binary_round_aux prec emax s (Zpos m) e l <> S754_nan.
Proof.
  unfold binary_round_aux.
  pose proof (shr_fexp_nonneg (Zpos m) e l ltac:(lia)) as H1.
  destruct (shr_fexp prec emax (Zpos m) e l) as [r1 e1]. cbn [fst] in H1.
  pose proof (round_nearest_even_nonneg _ (loc_of_shr_record r1) H1) as H2.
  pose proof (shr_fexp_nonneg _ e1 loc_Exact H2) as H3.
  destruct (shr_fexp prec emax _ e1 loc_Exact) as [r2 e2]. cbn [fst] in H3.
  destruct (shr_m r2) as [|m3|m3]; [done| |lia].
  by destruct (e2 <=? emax - prec).
Qed.

Lemma not_nan_Prim2SF (x : float) : Prim2SF x <> S754_nan -> is_nan x = false.
Proof.
  intros H. destruct (is_nan x) eqn:E; [|reflexivity].
  by apply Prim2SF_nan in E.
Qed.

(** A number times a finite non-zero number is a number. *)
Lemma mul_not_nan (x f : float) :
  is_nan x = false -> is_finite f = true -> (f =? 0)%float = false ->
  is_nan (x * f)%float = false.
Proof.
  intros Hx Hf Hz. apply not_nan_Prim2SF. rewrite FloatAxioms.mul_spec.
  apply Prim2SF_not_nan in Hx.
  destruct (is_finite_Prim2SF f Hf) as [[s E]|(s & m & e & E & Hb)].
  { apply Prim2SF_zero_eqb in E. congruence. }
  rewrite E. destruct (Prim2SF x) as [sx|sx| |sx mx ex]; cbn [SF64mul SFmul];
    [done|done|done|]. apply binary_round_aux_not_nan.
Qed.

(** Zero times anything is a zero or [NaN]: never a number that counts. *)
Lemma mul_0_l_falsy (f : float) :
  (negb (0 * f =? 0) && negb (is_nan (0 * f)))%float = false.
Proof.
  destruct (is_nan (0 * f)%float) eqn:En; [by rewrite andb_false_r|].
  rewrite andb_true_r. apply negb_false_iff.
  rewrite FloatAxioms.eqb_spec.
  apply Prim2SF_not_nan in En. revert En.
  rewrite FloatAxioms.mul_spec. change (Prim2SF 0) with (S754_zero false).
  by destruct (Prim2SF f) as [s|s| |s m e].
Qed.

(** *** The same facts on numbers *)

Lemma compare_frank (x y : float) :
  is_nan x = false -> is_nan y = false ->
  SFcompare (Prim2SF x) (Prim2SF y) = Some (frank x ?= frank y).
Proof.
  intros Hx Hy. apply SFcompare_rank;
    auto using Prim2SF_valid, Prim2SF_not_nan.
Qed.

Lemma ltb_frank (x y : float) :
  is_nan x = false -> is_nan y = false ->
  (x <? y)%float = (frank x <? frank y).
Proof.
  intros Hx Hy. rewrite FloatAxioms.ltb_spec. unfold SFltb, Z.ltb.
  by rewrite compare_frank.
Qed.

Lemma leb_frank (x y : float) :
  is_nan x = false -> is_nan y = false ->
  (x <=? y)%float = (frank x <=? frank y).
Proof.
  intros Hx Hy. rewrite FloatAxioms.leb_spec. unfold SFleb, Z.leb.
  rewrite compare_frank by done. by destruct (frank x ?= frank y).
Qed.

Lemma eqb_frank (x y : float) :
  is_nan x = false -> is_nan y = false ->
  (x =? y)%float = (frank x =? frank y).
Proof.
  intros Hx Hy. rewrite FloatAxioms.eqb_spec, Z.eqb_compare. unfold SFeqb.
  rewrite compare_frank by done. by destruct (frank x ?= frank y).
Qed.

(** [y - x > 0] exactly when [x < y]. *)
Lemma sub_pos_frank (x y : float) :
  is_nan x = false -> is_nan y = false ->
  (0 <? y - x)%float = (frank x <? frank y).
Proof.
  intros Hx Hy. rewrite FloatAxioms.ltb_spec, FloatAxioms.sub_spec.
  change (Prim2SF 0) with (S754_zero false).
  apply SFsub_pos_rank; auto using Prim2SF_valid, Prim2SF_not_nan.
Qed.

Lemma frank_0 : frank 0 = 0.
Proof. reflexivity. Qed.

End F64Facts.

(* ================================================================== *)
(** * Properties of [calculateFinancialMetrics]                        *)
(* ================================================================== *)

Section RegressionLoops.

Lemma idx_cons_S (a : float) (l : list float) (i : nat) :
  idx (a :: l) (S i) = idx l i.
Proof. reflexivity. Qed.

(** A loop that pushes one value per index on each of two arrays. *)
Lemma push_loop_map (f g : nat -> float) (ixs : list nat) (l1 l2 : list float) :
  fold_left (fun acc i => (fst acc ++ [f i], snd acc ++ [g i])) ixs (l1, l2)
  = (l1 ++ map f ixs, l2 ++ map g ixs).
Proof.
  revert l1 l2; induction ixs as [|i ixs IH]; intros l1 l2; simpl.
  - by rewrite !app_nil_r.
  - rewrite IH, <- !app_assoc. reflexivity.
Qed.

Lemma ret_at_shift (a : float) (p : list float) (i : nat) :
  (1 <= i)%nat -> ret_at (a :: p) (S i) = ret_at p i.
Proof.
  intros Hi. unfold ret_at.
  replace (S i - 1)%nat with (S (i - 1)) by lia.
  reflexivity.
Qed.

Lemma map_ret_at (p : list float) :
  map (ret_at p) (seq 1 (length p - 1)) = simple_returns p.
Proof.
  induction p as [|a [|b t] IH]; try reflexivity.
  change (length (a :: b :: t) - 1)%nat with (S (length t)).
  change (simple_returns (a :: b :: t))
    with ((b - a) / a :: simple_returns (b :: t)).
  rewrite <- IH.
  replace (length (b :: t) - 1)%nat with (length t) by (simpl; lia).
  change (seq 1 (S (length t))) with (1%nat :: seq 2 (length t)).
  rewrite <- (seq_shift (length t) 1), map_cons, map_map.
  f_equal. apply map_ext_in. intros i Hi. apply in_seq in Hi.
  apply ret_at_shift. lia.
Qed.

Lemma returns_loop_spec (s m : list float) :
  length s = length m ->
  returns_loop s m = (simple_returns s, simple_returns m).
Proof.
  intros Hlen. unfold returns_loop.
  change (returns_step s m)
    with (fun acc i => (fst acc ++ [ret_at s i], snd acc ++ [ret_at m i])).
  rewrite push_loop_map. simpl.
  rewrite map_ret_at. rewrite Hlen at 1. by rewrite map_ret_at.
Qed.

Lemma length_simple_returns (p : list float) :
  length (simple_returns p) = (length p - 1)%nat.
Proof.
  induction p as [|a [|b t] IH]; try reflexivity.
  change (simple_returns (a :: b :: t))
    with ((b - a) / a :: simple_returns (b :: t)).
  simpl length in *. lia.
Qed.

Lemma fold_left_map_ext {A B C} (f : A -> B -> A) (h : A -> C -> A)
    (g : C -> B) (l : list C) (a : A) :
  (forall a x, f a (g x) = h a x) ->
  fold_left f (map g l) a = fold_left h l a.
Proof.
  intros Hext. revert a; induction l as [|x l IH]; intros a; simpl;
    [reflexivity|]. by rewrite Hext, IH.
Qed.

Lemma sums_loop_acc (ms mm : float) (sr mr : list float) (acc : float * float * float) :
  length sr = length mr ->
  fold_left (sums_step sr mr ms mm) (seq 0 (length sr)) acc
  = (fold_left (fun a xy => a + (fst xy - ms) * (snd xy - mm)) (combine sr mr) (fst (fst acc)),
     fold_left (fun a xy => a + (fst xy - mm) * (snd xy - mm)) (combine mr mr) (snd (fst acc)),
     fold_left (fun a xy => a + (fst xy - ms) * (snd xy - ms)) (combine sr sr) (snd acc)).
Proof.
  revert mr acc; induction sr as [|x sr IH]; intros [|y mr] [[c vm] vs] Hlen;
    try discriminate; [reflexivity|].
  simpl length. change (seq 0 (S (length sr))) with (0%nat :: seq 1 (length sr)).
  rewrite <- seq_shift. simpl fold_left at 1.
  rewrite (fold_left_map_ext _ (sums_step sr mr ms mm)).
  2:{ intros [[c' vm'] vs'] i. reflexivity. }
  rewrite IH by (simpl in Hlen; lia). reflexivity.
Qed.

Lemma sums_loop_spec (sr mr : list float) (ms mm : float) :
  length sr = length mr ->
  sums_loop sr mr ms mm (length sr)
  = (centred_sum sr mr ms mm, centred_sum mr mr mm mm, centred_sum sr sr ms ms).
Proof. intros Hlen. unfold sums_loop. by rewrite sums_loop_acc. Qed.

End RegressionLoops.

(** [calculateFinancialMetrics], unfolded over the quantities above. *)
Lemma calculateFinancialMetrics_unfold (s m : list float) :
  calculateFinancialMetrics s m =
  if negb (length s =? length m)%nat || (length s <? 2)%nat then None
  else if (length (simple_returns s) <? 2)%nat then None
  else if is_zero (variance_of (simple_returns m))
          || is_zero (variance_of (simple_returns s)) then None
  else Some (metrics_of_returns (simple_returns s) (simple_returns m)).
Proof.
  unfold calculateFinancialMetrics.
  destruct (length s =? length m)%nat eqn:Hlen; [|reflexivity].
  apply Nat.eqb_eq in Hlen.
  destruct (length s <? 2)%nat eqn:H2; [reflexivity|]. simpl negb. simpl orb.
  rewrite returns_loop_spec by done.
  destruct (length (simple_returns s) <? 2)%nat eqn:Hn; [reflexivity|].
  rewrite sums_loop_spec by (rewrite !length_simple_returns; lia).
  fold (mean (simple_returns s)).
  assert (Hm : reduce_add (simple_returns m) / of_nat (length (simple_returns s))
               = mean (simple_returns m)).
  { unfold mean. by rewrite !length_simple_returns, Hlen. }
  rewrite Hm.
  reflexivity.
Qed.

(** Two numbers are different when a test separates them. *)
Lemma float_neq_by (f : float -> bool) (x y : float) :
  f x = negb (f y) -> x <> y.
Proof. intros H ->. by destruct (f y). Qed.

Lemma Some_neq {A} (a b : A) : a <> b -> Some a <> Some b.
Proof.
  intros Hne H. apply Hne.
  exact (f_equal (fun o => match o with Some x => x | None => a end) H).
Qed.

(** Scenario A, evaluated. *)
Lemma scenarioA_value :
  calculateFinancialMetrics scenarioA_stock scenarioA_market
  = Some (mkMetrics 0x1.28aac928bf09fp+1 (-0x1.66a8ff3a41e00p-15)
            0x1.f546fbb76c722p-1 0x1.eac774754723ap-1 0x1.4acdd1eaf5d04p-2).
Proof. vm_compute. reflexivity. Qed.

(** Scenario B, evaluated: the correlation is one unit in the last place
    above [1]. *)
Lemma scenarioB_value :
  calculateFinancialMetrics scenarioB_stock scenarioB_market
  = Some (mkMetrics 1 0 0x1.0000000000001p+0 0x1.0000000000002p+0
            0x1.4acdd1eaf5d04p-2).
Proof. vm_compute. reflexivity. Qed.

(** A result of Some is the bundle of the return vectors. *)
Lemma calculateFinancialMetrics_Some (s m : list float) (r : Metrics) :
  calculateFinancialMetrics s m = Some r ->
  length s = length m
  /\ (2 <= length (simple_returns s))%nat
  /\ is_zero (variance_of (simple_returns m)) = false
  /\ is_zero (variance_of (simple_returns s)) = false
  /\ r = metrics_of_returns (simple_returns s) (simple_returns m).
Proof.
  rewrite calculateFinancialMetrics_unfold.
  destruct (length s =? length m)%nat eqn:Hlen; [|discriminate].
  destruct (length s <? 2)%nat eqn:H2; [discriminate|]. cbn [negb orb].
  destruct (length (simple_returns s) <? 2)%nat eqn:Hn; [discriminate|].
  destruct (is_zero (variance_of (simple_returns m))) eqn:Hm; [discriminate|].
  destruct (is_zero (variance_of (simple_returns s))) eqn:Hs; [discriminate|].
  cbn [orb]. intros [= <-].
  apply Nat.eqb_eq in Hlen. apply Nat.ltb_ge in Hn. done.
Qed.

(** C1 (as amended).  Whenever [calculateFinancialMetrics] gives a result,
    its fields are: beta = covariance / varianceMarket; alpha = meanStock -
    beta * meanMarket; correlation = covariance / (sqrt varianceStock * sqrt
    varianceMarket), the product of the two square roots; rSquared =
    correlation squared; volatility = sqrt (varianceStock / (n - 1)) * sqrt
    252, with [n] the number of returns; the covariance and the variances
    being the sums of centred products over the simple returns, not divided
    by [n]. *)
Theorem metrics_formulas (s m : list float) (r : Metrics) :
  calculateFinancialMetrics s m = Some r ->
  let sr := simple_returns s in
  let mr := simple_returns m in
  beta r = covariance_of sr mr / variance_of mr
  /\ alpha r = mean sr - beta r * mean mr
  /\ correlation r
     = covariance_of sr mr / (Math_sqrt (variance_of sr) * Math_sqrt (variance_of mr))
  /\ rSquared r = correlation r * correlation r
  /\ volatility r
     = Math_sqrt (variance_of sr / (of_nat (length sr) - 1)) * Math_sqrt 252.
Proof.
  intros H. apply calculateFinancialMetrics_Some in H as (_ & _ & _ & _ & ->).
  repeat split.
Qed.

Lemma metrics_formulas_witness :
  let r := mkMetrics 0x1.28aac928bf09fp+1 (-0x1.66a8ff3a41e00p-15)
             0x1.f546fbb76c722p-1 0x1.eac774754723ap-1 0x1.4acdd1eaf5d04p-2 in
  let sr := simple_returns scenarioA_stock in
  let mr := simple_returns scenarioA_market in
  beta r = covariance_of sr mr / variance_of mr
  /\ alpha r = mean sr - beta r * mean mr
  /\ correlation r
     = covariance_of sr mr / (Math_sqrt (variance_of sr) * Math_sqrt (variance_of mr))
  /\ rSquared r = correlation r * correlation r
  /\ volatility r
     = Math_sqrt (variance_of sr / (of_nat (length sr) - 1)) * Math_sqrt 252.
Proof.
  exact (metrics_formulas scenarioA_stock scenarioA_market _ scenarioA_value).
Defined.

(** C1, as stated, fails: on Scenario B the correlation the code returns is
    not [covariance / sqrt (varianceStock * varianceMarket)]; the claimed
    formula gives [1] there and the code gives the next number above [1]. *)
Lemma claimed_correlation_differs :
  exists r,
    calculateFinancialMetrics scenarioB_stock scenarioB_market = Some r
    /\ correlation_claimed (simple_returns scenarioB_stock)
                           (simple_returns scenarioB_market) = 1
    /\ correlation r = 0x1.0000000000001p+0
    /\ correlation r
       <> correlation_claimed (simple_returns scenarioB_stock)
                              (simple_returns scenarioB_market).
Proof.
  eexists. split; [apply scenarioB_value|]. cbn [correlation].
  split; [vm_compute; reflexivity|]. split; [reflexivity|].
  apply (float_neq_by (fun x => x =? 1)). vm_compute. reflexivity.
Qed.

(** On equal-length inputs: absent exactly for fewer than two returns or
    a variance that is exactly zero. *)
Lemma calculateFinancialMetrics_None (s m : list float) :
  length s = length m ->
  calculateFinancialMetrics s m = None
  <-> (length (simple_returns s) < 2)%nat
      \/ (length (simple_returns m) < 2)%nat
      \/ is_zero (variance_of (simple_returns s)) = true
      \/ is_zero (variance_of (simple_returns m)) = true.
Proof.
  intros Hlen. rewrite calculateFinancialMetrics_unfold.
  rewrite !length_simple_returns, <- Hlen, Nat.eqb_refl. cbn [negb orb].
  destruct (length s <? 2)%nat eqn:H2.
  { apply Nat.ltb_lt in H2. split; [intros _; left; lia|done]. }
  apply Nat.ltb_ge in H2.
  destruct (length s - 1 <? 2)%nat eqn:Hn.
  { apply Nat.ltb_lt in Hn. split; [intros _; left; lia|done]. }
  apply Nat.ltb_ge in Hn.
  destruct (is_zero (variance_of (simple_returns m))) eqn:Hm;
    destruct (is_zero (variance_of (simple_returns s))) eqn:Hs; cbn [orb];
    (split; [first [discriminate|auto]
            |intros [?|[?|[?|?]]]; first [reflexivity|lia|congruence]]).
Qed.

(** C2.  On equal-length inputs the result is absent exactly when there
    are fewer than two returns or one of the two variances is exactly zero;
    two price points give an absent result; and a result that is present
    carries all five fields, each computed from the return vectors. *)
Theorem absent_iff (s m : list float) :
  length s = length m ->
  (calculateFinancialMetrics s m = None
   <-> (length (simple_returns s) < 2)%nat
       \/ (length (simple_returns m) < 2)%nat
       \/ is_zero (variance_of (simple_returns s)) = true
       \/ is_zero (variance_of (simple_returns m)) = true)
  /\ (length s = 2%nat -> calculateFinancialMetrics s m = None)
  /\ (calculateFinancialMetrics s m <> None ->
      calculateFinancialMetrics s m
      = Some (metrics_of_returns (simple_returns s) (simple_returns m))).
Proof.
  intros Hlen. split; [by apply calculateFinancialMetrics_None|]. split.
  - intros H2. apply calculateFinancialMetrics_None; [done|]. left.
    rewrite length_simple_returns. lia.
  - intros Hne.
    destruct (calculateFinancialMetrics s m) as [r|] eqn:E; [|done].
    by apply calculateFinancialMetrics_Some in E as (_ & _ & _ & _ & ->).
Qed.

Lemma absent_iff_witness :
  (calculateFinancialMetrics scenarioC_stock scenarioC_market = None
   <-> (length (simple_returns scenarioC_stock) < 2)%nat
       \/ (length (simple_returns scenarioC_market) < 2)%nat
       \/ is_zero (variance_of (simple_returns scenarioC_stock)) = true
       \/ is_zero (variance_of (simple_returns scenarioC_market)) = true)
  /\ (length scenarioC_stock = 2%nat -> calculateFinancialMetrics scenarioC_stock scenarioC_market = None)
  /\ (calculateFinancialMetrics scenarioC_stock scenarioC_market <> None ->
      calculateFinancialMetrics scenarioC_stock scenarioC_market
      = Some (metrics_of_returns (simple_returns scenarioC_stock) (simple_returns scenarioC_market))).
Proof. exact (absent_iff scenarioC_stock scenarioC_market eq_refl). Defined.

(** C4, as stated, fails.  A series whose first leading price is zero, and
    one whose first leading price is negative, both give a populated result
    (the zero one with [NaN] in it: the division is carried out); and a
    strictly positive series of length three, being constant, gives an
    absent result. *)
Lemma leading_price_not_guarded :
  (existsb nonpositive (leading_prices zero_led_stock) = true
   /\ exists r, calculateFinancialMetrics zero_led_stock rising_market = Some r
                /\ is_nan (beta r) = true)
  /\ (existsb nonpositive (leading_prices negative_led_stock) = true
      /\ calculateFinancialMetrics negative_led_stock rising_market
         = Some (mkMetrics (-6) 4 (-1) 1 0x1.0d663a9caa399p+5))
  /\ (forallb positive_price constant_stock = true
      /\ forallb positive_price rising_market = true
      /\ length constant_stock = 3%nat
      /\ calculateFinancialMetrics constant_stock rising_market = None).
Proof.
  split; [|split].
  - split; [reflexivity|]. eexists. split; [vm_compute; reflexivity|reflexivity].
  - split; [reflexivity|]. vm_compute. reflexivity.
  - repeat split; vm_compute; reflexivity.
Qed.

(** C4 (as amended).  The code has no test on the sign of a price: on
    equal-length inputs the first loop pushes a return for every index
    [1 .. n-1], dividing by the leading price whatever it is, so [n] prices
    give [n-1] returns; the result is absent when there are fewer than
    three prices, and with three or more it is present exactly when neither
    variance is exactly zero. *)
Theorem returns_unguarded (s m : list float) :
  length s = length m ->
  returns_loop s m = (simple_returns s, simple_returns m)
  /\ length (simple_returns s) = (length s - 1)%nat
  /\ length (simple_returns m) = (length m - 1)%nat
  /\ ((length s < 3)%nat -> calculateFinancialMetrics s m = None)
  /\ ((3 <= length s)%nat ->
      (calculateFinancialMetrics s m <> None
       <-> is_zero (variance_of (simple_returns s)) = false
           /\ is_zero (variance_of (simple_returns m)) = false)).
Proof.
  intros Hlen. split; [by apply returns_loop_spec|].
  rewrite !length_simple_returns. split; [done|]. split; [done|].
  pose proof (calculateFinancialMetrics_None s m Hlen) as Hiff.
  rewrite !length_simple_returns, <- Hlen in Hiff.
  split.
  - intros H3. apply Hiff. left. lia.
  - intros H3. split.
    + intros Hne.
      destruct (is_zero (variance_of (simple_returns s))) eqn:Hs;
        [exfalso; apply Hne, Hiff; auto|].
      destruct (is_zero (variance_of (simple_returns m))) eqn:Hm;
        [exfalso; apply Hne, Hiff; auto|]. done.
    + intros [Hs Hm] Hnone. apply Hiff in Hnone as [?|[?|[?|?]]];
        first [lia|congruence].
Qed.

Lemma returns_unguarded_witness :
  returns_loop negative_led_stock rising_market
  = (simple_returns negative_led_stock, simple_returns rising_market)
  /\ length (simple_returns negative_led_stock) = (length negative_led_stock - 1)%nat
  /\ length (simple_returns rising_market) = (length rising_market - 1)%nat
  /\ ((length negative_led_stock < 3)%nat ->
      calculateFinancialMetrics negative_led_stock rising_market = None)
  /\ ((3 <= length negative_led_stock)%nat ->
      (calculateFinancialMetrics negative_led_stock rising_market <> None
       <-> is_zero (variance_of (simple_returns negative_led_stock)) = false
           /\ is_zero (variance_of (simple_returns rising_market)) = false)).
Proof. exact (returns_unguarded negative_led_stock rising_market eq_refl). Defined.

(** C9, as stated, fails on its own example: on Scenario B the code returns
    a correlation and an rSquared that are not [1]. *)
Lemma scenarioB_correlation_not_one :
  simple_returns scenarioB_stock = simple_returns scenarioB_market
  /\ exists r,
       calculateFinancialMetrics scenarioB_stock scenarioB_market = Some r
       /\ beta r = 1
       /\ correlation r = 0x1.0000000000001p+0 /\ correlation r <> 1
       /\ rSquared r = 0x1.0000000000002p+0 /\ rSquared r <> 1.
Proof.
  split; [vm_compute; reflexivity|].
  eexists. split; [apply scenarioB_value|]. cbn [beta correlation rSquared].
  repeat split; apply (float_neq_by (fun x => x =? 1)); vm_compute; reflexivity.
Qed.

(** C9 (as amended).  When the two return vectors are identical and the
    result is present, with [v] the common variance a finite number: beta
    is exactly [1]; the correlation is [v / (sqrt v * sqrt v)] and rSquared
    is its square, which are [1] up to the rounding of the square roots and
    of their product. *)
Theorem identical_returns_metrics (s m : list float) (r : Metrics) :
  simple_returns s = simple_returns m ->
  calculateFinancialMetrics s m = Some r ->
  let v := variance_of (simple_returns m) in
  is_finite v = true ->
  beta r = 1
  /\ correlation r = v / (Math_sqrt v * Math_sqrt v)
  /\ rSquared r = correlation r * correlation r.
Proof.
  intros Heq H v Hfin.
  apply calculateFinancialMetrics_Some in H as (_ & _ & Hm & _ & ->).
  rewrite Heq. cbn [metrics_of_returns beta correlation rSquared].
  fold v in Hm |- *.
  change (covariance_of (simple_returns m) (simple_returns m)) with v.
  unfold correlation_coded.
  change (covariance_of (simple_returns m) (simple_returns m)) with v.
  change (variance_of (simple_returns m)) with v.
  split; [|done].
  by apply F64Facts.div_diag.
Qed.

Lemma identical_returns_metrics_witness :
  let r := mkMetrics 1 0 0x1.0000000000001p+0 0x1.0000000000002p+0
             0x1.4acdd1eaf5d04p-2 in
  let v := variance_of (simple_returns scenarioB_market) in
  beta r = 1
  /\ correlation r = v / (Math_sqrt v * Math_sqrt v)
  /\ rSquared r = correlation r * correlation r.
Proof.
  apply (identical_returns_metrics scenarioB_stock scenarioB_market).
  - vm_compute. reflexivity.
  - apply scenarioB_value.
  - vm_compute. reflexivity.
Defined.

(* ================================================================== *)
(** * Properties of the alignment                                      *)
(* ================================================================== *)

Section Alignment.

Implicit Types (primary reference : list HistoricalRow) (d : string).

Lemma build_dateMap_snoc reference (r : HistoricalRow) :
  build_dateMap (reference ++ [r]) = dateMap_step (build_dateMap reference) r.
Proof. unfold build_dateMap. by rewrite fold_left_app. Qed.

Lemma reference_close_snoc reference (r : HistoricalRow) d :
  reference_close (reference ++ [r]) d
  = if String.eqb (date r) d && present (close r) then close r
    else reference_close reference d.
Proof.
  unfold reference_close. rewrite rev_unit. cbn [List.find].
  by destruct (String.eqb (date r) d && present (close r)).
Qed.

(** The date map holds, for each day, the last valid reference close. *)
Lemma build_dateMap_lookup reference d :
  build_dateMap reference !! d = reference_close reference d.
Proof.
  induction reference as [|r reference IH] using rev_ind; [reflexivity|].
  rewrite build_dateMap_snoc, reference_close_snoc. unfold dateMap_step.
  destruct (close r) as [c|] eqn:Hc; cbn [present].
  - destruct (truthy c) eqn:Ht.
    + destruct (String.eqb_spec (date r) d) as [->|Hne]; cbn [andb].
      * by rewrite lookup_insert_eq.
      * by rewrite lookup_insert_ne.
    + by rewrite andb_false_r.
  - by rewrite andb_false_r.
Qed.

Lemma reference_close_present reference d :
  present (reference_close reference d) = true
  <-> exists r, r ∈ reference /\ date r = d /\ present (close r) = true.
Proof.
  induction reference as [|r reference IH] using rev_ind.
  - split; [discriminate|]. intros (r & Hr & _). by apply elem_of_nil in Hr.
  - rewrite reference_close_snoc.
    destruct (String.eqb_spec (date r) d) as [Hd|Hd]; cbn [andb].
    + destruct (present (close r)) eqn:Hp.
      * split; [|done]. intros _. exists r. split; [|done].
        apply elem_of_app. right. by apply list_elem_of_singleton.
      * rewrite IH. split.
        -- intros (r' & Hr' & H). exists r'. split; [|done].
           apply elem_of_app. by left.
        -- intros (r' & Hr' & Hd' & Hp'). apply elem_of_app in Hr' as [Hr'|Hr'].
           ++ eauto.
           ++ apply list_elem_of_singleton in Hr' as ->. congruence.
    + rewrite IH. split.
      * intros (r' & Hr' & H). exists r'. split; [|done].
        apply elem_of_app. by left.
      * intros (r' & Hr' & Hd' & Hp'). apply elem_of_app in Hr' as [Hr'|Hr'].
        -- eauto.
        -- apply list_elem_of_singleton in Hr' as ->. congruence.
Qed.

Lemma align_step_eq (dateMap : gmap string float)
    (acc : list float * list float) (r : HistoricalRow) :
  align_step dateMap acc r
  = if present (dateMap !! date r) && present (close r)
    then (fst acc ++ omap close [r],
          snd acc ++ omap (fun r => dateMap !! date r) [r])
    else acc.
Proof.
  unfold align_step.
  destruct (present (dateMap !! date r) && present (close r)) eqn:Hp;
    [|reflexivity].
  apply andb_true_iff in Hp as [Hm Hc]. cbn.
  destruct (close r); [|discriminate].
  by destruct (dateMap !! date r); [|discriminate].
Qed.

Lemma omap_cons_app {A B} (f : A -> option B) (x : A) (l : list A) :
  omap f (x :: l) = omap f [x] ++ omap f l.
Proof. apply (omap_app f [x] l). Qed.

(** The walk over the primary series, from any two arrays. *)
Lemma align_prices_acc (dateMap : gmap string float) primary
    (acc : list float * list float) :
  let rows :=
    List.filter (fun r => present (dateMap !! date r) && present (close r))
                primary in
  fold_left (align_step dateMap) primary acc
  = (fst acc ++ omap close rows, snd acc ++ omap (fun r => dateMap !! date r) rows).
Proof.
  revert acc; induction primary as [|r primary IH]; intros [sP mP]; cbn zeta.
  - cbn. by rewrite !app_nil_r.
  - cbn [fold_left List.filter]. rewrite IH, align_step_eq.
    destruct (present (dateMap !! date r) && present (close r)); [|reflexivity].
    cbn [fst snd].
    rewrite (omap_cons_app close r (List.filter _ primary)),
      (omap_cons_app _ r (List.filter _ primary)), <- !app_assoc.
    reflexivity.
Qed.

Lemma list_omap_pointwise {A B} (f g : A -> option B) (l : list A) :
  (forall x, f x = g x) -> omap f l = omap g l.
Proof.
  intros Hfg. induction l as [|x l IH]; [reflexivity|].
  rewrite (omap_cons_app f), (omap_cons_app g), IH. cbn. by rewrite Hfg.
Qed.

Lemma filter_sublist {A} (f : A -> bool) (l : list A) :
  sublist (List.filter f l) l.
Proof.
  induction l as [|x l IH]; cbn; [constructor|].
  destruct (f x); by constructor.
Qed.

Lemma omap_length_present {A} (f : A -> option float) (l : list A) :
  Forall (fun r => present (f r) = true) l -> length (omap f l) = length l.
Proof.
  induction 1 as [|r l Hr _ IH]; [reflexivity|]. cbn.
  destruct (f r); [|discriminate]. cbn. by rewrite IH.
Qed.

End Alignment.

(** C3, as stated, fails.  A reference close that is negative is not
    positive, and the day is paired all the same; and a primary series with
    two rows on one day gives that day two pairs. *)
Lemma align_not_positive_nor_once :
  (align one_row_primary negative_reference = ([10], [-5])
   /\ positive_price (-5) = false)
  /\ align two_rows_primary positive_reference = ([10; 11], [5; 5]).
Proof. repeat split; vm_compute; reflexivity. Qed.

(** C3 (as amended).  The alignment is an order-preserving inner join on
    the primary series, with "valid" read as the code tests it: present,
    not zero and not [NaN].  The joined rows are the primary rows, in their
    order, whose own close is valid and whose day has a valid close in the
    reference series; each joined row gives one pair, its own close with
    the last valid reference close of its day; so a day is paired exactly
    when it has a valid close in both series, and at most once when the
    primary series has no two rows on one day. *)
Theorem align_inner_join (primary reference : list HistoricalRow) :
  let rows := joined_rows primary reference in
  align primary reference
  = (omap close rows, omap (fun r => reference_close reference (date r)) rows)
  /\ length (fst (align primary reference)) = length rows
  /\ length (snd (align primary reference)) = length rows
  /\ sublist rows primary
  /\ (forall r, r ∈ rows <->
        r ∈ primary /\ present (close r) = true
        /\ exists r', r' ∈ reference /\ date r' = date r
                      /\ present (close r') = true)
  /\ (forall d, d ∈ map date rows <->
        (exists r, r ∈ primary /\ date r = d /\ present (close r) = true)
        /\ (exists r', r' ∈ reference /\ date r' = d
                       /\ present (close r') = true))
  /\ (NoDup (map date primary) -> NoDup (map date rows)).
Proof.
  intros rows.
  assert (Hrows : forall r, r ∈ rows <->
            r ∈ primary /\ present (reference_close reference (date r)) = true
            /\ present (close r) = true).
  { intros r. unfold rows, joined_rows.
    rewrite !list_elem_of_In, filter_In, andb_true_iff. tauto. }
  assert (Heq : align primary reference
    = (omap close rows, omap (fun r => reference_close reference (date r)) rows)).
  { unfold align, align_prices. rewrite align_prices_acc. cbn [fst snd app].
    unfold rows, joined_rows.
    rewrite (List.filter_ext _
      (fun r => present (reference_close reference (date r)) && present (close r))).
    2:{ intros r. by rewrite build_dateMap_lookup. }
    f_equal. apply list_omap_pointwise.
    intros r. by rewrite build_dateMap_lookup. }
  split; [exact Heq|]. rewrite Heq. cbn [fst snd].
  split; [|split; [|split; [|split; [|split]]]].
  - apply omap_length_present, Forall_forall. intros r Hr.
    by apply Hrows in Hr as (_ & _ & ?).
  - apply omap_length_present, Forall_forall. intros r Hr.
    by apply Hrows in Hr as (_ & ? & _).
  - apply filter_sublist.
  - intros r. rewrite Hrows, reference_close_present. tauto.
  - intros d. rewrite list_elem_of_In, in_map_iff. split.
    + intros (r & <- & Hr). apply list_elem_of_In, Hrows in Hr as (Hin & Href & Hc).
      apply reference_close_present in Href. eauto.
    + intros [(r & Hin & <- & Hc) Href]. exists r. split; [done|].
      apply list_elem_of_In, Hrows. by rewrite reference_close_present.
  - intros Hnd. eapply sublist_NoDup; [exact Hnd|].
    apply (fmap_sublist date). apply filter_sublist.
Qed.

(* ================================================================== *)
(** * Properties of [sort]                                             *)
(* ================================================================== *)

Section SortFacts.

Context {A : Type} (cmp : A -> A -> float) (key : A -> Z).

Local Abbreviation ins := (fun sorted_rev x => insert_left cmp x sorted_rev).
Local Abbreviation asc := (fun a b => (key a <= key b)%Z).
Local Abbreviation desc := (fun a b => (key b <= key a)%Z).

Ltac in_list := rewrite ?elem_of_app, ?elem_of_cons in *; tauto.

Lemma insert_left_perm (x : A) (acc : list A) :
  insert_left cmp x acc ≡ₚ x :: acc.
Proof.
  induction acc as [|y acc IH]; cbn [insert_left]; [reflexivity|].
  destruct (after (cmp y x)); [|reflexivity].
  rewrite IH. apply perm_swap.
Qed.

Lemma fold_insert_perm (l acc : list A) :
  fold_left ins l acc ≡ₚ l ++ acc.
Proof.
  revert acc; induction l as [|x l IH]; intros acc; cbn [fold_left app];
    [reflexivity|].
  rewrite IH, insert_left_perm. by rewrite Permutation_middle.
Qed.

Lemma sort_perm (l : list A) : sort cmp l ≡ₚ l.
Proof.
  unfold sort. rewrite <- Permutation_rev, fold_insert_perm.
  by rewrite app_nil_r.
Qed.

Lemma sort_elem_of (l : list A) (a : A) : a ∈ sort cmp l <-> a ∈ l.
Proof. by rewrite sort_perm. Qed.

Lemma sort_length (l : list A) : length (sort cmp l) = length l.
Proof. by rewrite sort_perm. Qed.

Lemma insert_left_sorted (x : A) (acc : list A) :
  ranks_by cmp key (x :: acc) ->
  StronglySorted asc acc -> StronglySorted asc (insert_left cmp x acc).
Proof.
  intros Hr Hs. induction Hs as [|y acc Hs IH Hy]; cbn [insert_left].
  - repeat constructor.
  - rewrite (Hr y x) by in_list.
    destruct (Z.ltb_spec (key y) (key x)) as [Hlt|Hge].
    + constructor.
      * apply IH. intros a b Ha Hb. apply Hr; in_list.
      * rewrite insert_left_perm. constructor; [lia|done].
    + constructor; [by constructor|].
      constructor; [done|].
      eapply Forall_impl; [exact Hy|]. cbn. intros z Hz. lia.
Qed.

Lemma fold_insert_sorted (l acc : list A) :
  ranks_by cmp key (l ++ acc) ->
  StronglySorted asc acc -> StronglySorted asc (fold_left ins l acc).
Proof.
  revert acc; induction l as [|x l IH]; intros acc Hr Hs; cbn [fold_left];
    [done|].
  apply IH.
  - intros a b Ha Hb. apply Hr.
    + rewrite elem_of_app, insert_left_perm in Ha. in_list.
    + rewrite elem_of_app, insert_left_perm in Hb. in_list.
  - apply insert_left_sorted; [|done].
    intros a b Ha Hb. apply Hr; in_list.
Qed.

Lemma StronglySorted_rev_flip (R : A -> A -> Prop) (l : list A) :
  StronglySorted R l -> StronglySorted (fun a b => R b a) (rev l).
Proof.
  induction 1 as [|x l Hs IH Hx]; cbn; [constructor|].
  apply StronglySorted_app_2; [|done|repeat constructor].
  intros a b Ha Hb. apply list_elem_of_singleton in Hb as ->.
  rewrite list_elem_of_In, <- in_rev, <- list_elem_of_In in Ha.
  by eapply Forall_forall in Hx.
Qed.

(** The sorted array is in descending order of the key. *)
Lemma sort_sorted (l : list A) :
  ranks_by cmp key l -> StronglySorted desc (sort cmp l).
Proof.
  intros Hr. unfold sort.
  apply (StronglySorted_rev_flip asc), fold_insert_sorted; [|constructor].
  by rewrite app_nil_r.
Qed.

Lemma StronglySorted_lookup (R : A -> A -> Prop) (l : list A)
    (i j : nat) (a b : A) :
  StronglySorted R l -> (i < j)%nat ->
  l !! i = Some a -> l !! j = Some b -> R a b.
Proof.
  intros Hs. revert i j. induction Hs as [|x l Hs IH Hx]; intros i j Hij Ha Hb.
  - by rewrite lookup_nil in Ha.
  - destruct j as [|j]; [lia|]. cbn in Hb. destruct i as [|i].
    + cbn in Ha. injection Ha as ->.
      eapply Forall_forall in Hx; [exact Hx|]. by eapply list_elem_of_lookup_2.
    + cbn in Ha. apply (IH i j); [lia|done|done].
Qed.

(** The sort is stable: the elements of one key keep their order. *)
Lemma insert_left_filter (x : A) (acc : list A) (k : Z) :
  ranks_by cmp key (x :: acc) ->
  List.filter (fun a => key a =? k)%Z (insert_left cmp x acc)
  = List.filter (fun a => key a =? k)%Z (x :: acc).
Proof.
  intros Hr. induction acc as [|y acc IH]; [reflexivity|].
  cbn [insert_left].
  rewrite (Hr y x) by in_list.
  destruct (Z.ltb_spec (key y) (key x)) as [Hlt|Hge]; [|reflexivity].
  cbn [List.filter]. rewrite IH by (intros a b Ha Hb; apply Hr; in_list).
  cbn [List.filter].
  destruct (Z.eqb_spec (key y) k) as [Hy|Hy]; [|reflexivity].
  destruct (Z.eqb_spec (key x) k) as [Hx|Hx]; [lia|reflexivity].
Qed.

Lemma fold_insert_filter (l acc : list A) (k : Z) :
  ranks_by cmp key (l ++ acc) ->
  List.filter (fun a => key a =? k)%Z (fold_left ins l acc)
  = rev (List.filter (fun a => key a =? k)%Z l)
    ++ List.filter (fun a => key a =? k)%Z acc.
Proof.
  revert acc; induction l as [|x l IH]; intros acc Hr; [reflexivity|].
  cbn [fold_left]. rewrite IH.
  - rewrite insert_left_filter by (intros a b Ha Hb; apply Hr; in_list).
    cbn [List.filter]. destruct (key x =? k)%Z; cbn [rev];
      by rewrite <- ?app_assoc.
  - intros a b Ha Hb. apply Hr.
    + rewrite elem_of_app, insert_left_perm in Ha. in_list.
    + rewrite elem_of_app, insert_left_perm in Hb. in_list.
Qed.

Lemma sort_stable (l : list A) (k : Z) :
  ranks_by cmp key l ->
  List.filter (fun a => key a =? k)%Z (sort cmp l)
  = List.filter (fun a => key a =? k)%Z l.
Proof.
  intros Hr. unfold sort.
  rewrite filter_rev, fold_insert_filter by (by rewrite app_nil_r).
  cbn [List.filter]. by rewrite app_nil_r, rev_involutive.
Qed.

(** Sorting commutes with dropping elements. *)
Lemma insert_left_filter_out (P : A -> bool) (x : A) (acc : list A) :
  P x = false ->
  List.filter P (insert_left cmp x acc) = List.filter P acc.
Proof.
  intros Hx. induction acc as [|y acc IH]; cbn [insert_left List.filter].
  - by rewrite Hx.
  - destruct (after (cmp y x)); cbn [List.filter]; [by rewrite IH|].
    by rewrite Hx.
Qed.

Lemma insert_left_head (x : A) (acc : list A) :
  ranks_by cmp key (x :: acc) ->
  Forall (fun z => (key x <= key z)%Z) acc ->
  insert_left cmp x acc = x :: acc.
Proof.
  intros Hr Hall. destruct acc as [|y acc]; [reflexivity|].
  cbn [insert_left]. rewrite (Hr y x) by in_list.
  apply Forall_cons in Hall as [Hy _].
  by destruct (Z.ltb_spec (key y) (key x)); [lia|].
Qed.

Lemma insert_left_filter_in (P : A -> bool) (x : A) (acc : list A) :
  ranks_by cmp key (x :: acc) -> StronglySorted asc acc ->
  P x = true ->
  List.filter P (insert_left cmp x acc) = insert_left cmp x (List.filter P acc).
Proof.
  intros Hr Hs Hx. induction Hs as [|y acc Hs IH Hy].
  - cbn. by rewrite Hx.
  - cbn [insert_left]. rewrite (Hr y x) by in_list.
    destruct (Z.ltb_spec (key y) (key x)) as [Hlt|Hge].
    + cbn [List.filter].
      rewrite IH by (intros a b Ha Hb; apply Hr; in_list).
      destruct (P y); [|reflexivity].
      cbn [insert_left]. rewrite (Hr y x) by in_list.
      by destruct (Z.ltb_spec (key y) (key x)); [|lia].
    + change (List.filter P (x :: y :: acc))
        with (if P x then x :: List.filter P (y :: acc)
              else List.filter P (y :: acc)).
      rewrite Hx. symmetry. apply insert_left_head.
      * intros a b Ha Hb. apply Hr.
        -- apply elem_of_cons in Ha as [->|Ha]; [in_list|].
           apply list_elem_of_In, filter_In in Ha as [Ha _].
           apply list_elem_of_In in Ha. in_list.
        -- apply elem_of_cons in Hb as [->|Hb]; [in_list|].
           apply list_elem_of_In, filter_In in Hb as [Hb _].
           apply list_elem_of_In in Hb. in_list.
      * apply Forall_forall. intros z Hz.
        apply list_elem_of_In, filter_In in Hz as [Hz _].
        apply list_elem_of_In, elem_of_cons in Hz as [->|Hz]; [done|].
        eapply Forall_forall in Hy; [|exact Hz]. cbn in Hy. lia.
Qed.

Lemma fold_insert_filter_comm (P : A -> bool) (l acc : list A) :
  ranks_by cmp key (l ++ acc) -> StronglySorted asc acc ->
  fold_left ins (List.filter P l) (List.filter P acc)
  = List.filter P (fold_left ins l acc).
Proof.
  revert acc; induction l as [|x l IH]; intros acc Hr Hs; [reflexivity|].
  assert (Hr1 : ranks_by cmp key (x :: acc))
    by (intros a b Ha Hb; apply Hr; in_list).
  assert (Hr2 : ranks_by cmp key (l ++ insert_left cmp x acc)).
  { intros a b Ha Hb. apply Hr.
    - rewrite elem_of_app, insert_left_perm in Ha. in_list.
    - rewrite elem_of_app, insert_left_perm in Hb. in_list. }
  cbn [fold_left List.filter].
  rewrite <- IH by (by try apply insert_left_sorted).
  destruct (P x) eqn:Hx; cbn [fold_left].
  - by rewrite insert_left_filter_in.
  - by rewrite insert_left_filter_out.
Qed.

Lemma sort_filter (P : A -> bool) (l : list A) :
  ranks_by cmp key l ->
  sort cmp (List.filter P l) = List.filter P (sort cmp l).
Proof.
  intros Hr. unfold sort. rewrite filter_rev. f_equal.
  apply (fold_insert_filter_comm P l []); [by rewrite app_nil_r|constructor].
Qed.

End SortFacts.

(* ================================================================== *)
(** * Properties of the currency factors and of the emitted fields     *)
(* ================================================================== *)

Lemma usd_factor_usd (fx : float) : usd_factor "USD" fx = fx.
Proof. reflexivity. Qed.

Lemma usd_factor_other (currency : string) (fx : float) :
  currency <> "USD"%string -> usd_factor currency fx = 1.
Proof.
  intros Hne. unfold usd_factor.
  by destruct (String.eqb_spec currency "USD").
Qed.

Lemma usd_factor_1 (currency : string) : usd_factor currency 1 = 1.
Proof. unfold usd_factor. by destruct (String.eqb currency "USD"). Qed.

(** A value times the factor of its currency is that value, normalised. *)
Lemma normalized_by_factor (currency : string) (raw : float) :
  normalized_by currency raw (fun fx => raw * usd_factor currency fx).
Proof.
  split; [|split].
  - intros -> fx. by rewrite usd_factor_usd.
  - intros Hne fx. by rewrite usd_factor_other, F64Facts.mul_1_r.
  - by rewrite usd_factor_1, F64Facts.mul_1_r.
Qed.

(** C6.  In the target's object and in a peer's object, each monetary
    field is its raw value (the provider's value, or [0] when that is
    missing) normalised under its own currency: the trading currency for
    the market cap and the enterprise value, the reporting currency for
    the revenue and the EBITDA.  Normalised means: multiplied by the
    exchange rate when that currency is USD, so linear in the rate;
    unchanged, so the same at every rate, when it is not; and equal to the
    raw value at rate [1]. *)
Theorem currency_normalization :
  (forall req fullTicker metrics quote financials,
     let tradingCurrency := str_or (quote_currency quote) "INR" in
     let financialCurrency := str_or (fin_currency financials) tradingCurrency in
     let t := targetData req fullTicker metrics quote financials in
     normalized_by tradingCurrency (or_default (quote_marketCap quote) 0)
       (fun fx => Target.marketCap (t fx))
     /\ normalized_by tradingCurrency (or_default (fin_enterpriseValue financials) 0)
          (fun fx => Target.enterpriseValue (t fx))
     /\ normalized_by financialCurrency (or_default (fin_totalRevenue financials) 0)
          (fun fx => Target.revenue (t fx))
     /\ normalized_by financialCurrency (or_default (fin_ebitda financials) 0)
          (fun fx => Target.ebitda (t fx)))
  /\ (forall peer pMet pQuote pFin,
        let pTradingCurr := str_or (quote_currency pQuote) "INR" in
        let pFinancialCurr := str_or (fin_currency pFin) pTradingCurr in
        let p := peerData peer pMet pQuote pFin in
        normalized_by pTradingCurr (or_default (quote_marketCap pQuote) 0)
          (fun fx => Peer.marketCap (p fx))
        /\ normalized_by pTradingCurr (or_default (fin_enterpriseValue pFin) 0)
             (fun fx => Peer.enterpriseValue (p fx))
        /\ normalized_by pFinancialCurr (or_default (fin_totalRevenue pFin) 0)
             (fun fx => Peer.revenue (p fx))
        /\ normalized_by pFinancialCurr (or_default (fin_ebitda pFin) 0)
             (fun fx => Peer.ebitda (p fx))).
Proof.
  split; intros; repeat split; try apply normalized_by_factor.
Qed.

(** The multiple, from the two raw values and the two factors. *)
Lemma evRevenueMultiple_of_present (ev rev : option float) (p f : float) :
  present ev = true -> present rev = true ->
  exists e r, ev = Some e /\ rev = Some r /\ truthy e = true /\ truthy r = true
              /\ evRevenueMultiple_of ev rev p f = Some (e / (r * f / p)).
Proof.
  intros He Hr. unfold evRevenueMultiple_of. rewrite He, Hr. cbn [andb].
  destruct ev as [e|]; [|discriminate]. destruct rev as [r|]; [|discriminate].
  exists e, r. done.
Qed.

Lemma evRevenueMultiple_of_absent (ev rev : option float) (p f : float) :
  present ev = false \/ present rev = false ->
  evRevenueMultiple_of ev rev p f = None.
Proof.
  intros H. unfold evRevenueMultiple_of.
  destruct H as [-> | ->]; [reflexivity|by rewrite andb_false_r].
Qed.

Lemma or_default_present (x : option float) (d v : float) :
  x = Some v -> truthy v = true -> or_default x d = v.
Proof. intros -> Hv. cbn. by rewrite Hv. Qed.

(** With the price factor [1] the multiple is the quotient of the two
    normalised values. *)
Lemma evRevenueMultiple_of_quotient (ev rev : option float) (f : float) :
  present ev = true -> present rev = true ->
  evRevenueMultiple_of ev rev 1 f
  = Some (or_default ev 0 * 1 / (or_default rev 0 * f)).
Proof.
  intros He Hr.
  destruct (evRevenueMultiple_of_present ev rev 1 f He Hr)
    as (e & r & -> & -> & Te & Tr & ->).
  rewrite (or_default_present _ _ e), (or_default_present _ _ r) by done.
  by rewrite F64Facts.mul_1_r, F64Facts.div_1_r.
Qed.

(** C8, as stated, fails.  An enterprise value that is present and is [0],
    with a revenue that is present and not zero, gives an absent multiple,
    not [0 / revenue]; and with a USD trading currency the multiple is not
    the quotient of the two normalised values: at enterprise value [1],
    revenue [11] and rate [83] the code gives [1 / (11 * 1 / 83)], the
    number below [83 / 11]. *)
Lemma evRevenueMultiple_not_quotient :
  (let t := targetData sample_request "TGT.NS" sample_metrics
              (Some (quote_of (Some "INR"%string) None))
              (Some (fin_of (Some 0) (Some 5) (Some "INR"%string))) 83 in
   fin_enterpriseValue (Some (fin_of (Some 0) (Some 5) (Some "INR"%string))) = Some 0
   /\ Target.revenue t = 5
   /\ Target.evRevenueMultiple t = None)
  /\ (let t := targetData sample_request "TGT.NS" sample_metrics
                 (Some (quote_of (Some "USD"%string) None))
                 (Some (fin_of (Some 1) (Some 11) (Some "INR"%string))) 83 in
      Target.enterpriseValue t = 83
      /\ Target.revenue t = 11
      /\ Target.evRevenueMultiple t = Some 0x1.e2e8ba2e8ba2ep+2
      /\ Target.enterpriseValue t / Target.revenue t = 0x1.e2e8ba2e8ba2fp+2
      /\ Target.evRevenueMultiple t
         <> Some (Target.enterpriseValue t / Target.revenue t)).
Proof.
  split.
  - repeat split; vm_compute; reflexivity.
  - repeat split; try (vm_compute; reflexivity).
    change (Target.evRevenueMultiple _) with (Some 0x1.e2e8ba2e8ba2ep+2).
    apply Some_neq, (float_neq_by (fun x => x =? 0x1.e2e8ba2e8ba2ep+2)).
    vm_compute. reflexivity.
Qed.

(** C8 (as amended).  In the target's object and in a peer's object: when
    the enterprise value and the revenue are both present, not zero and not
    [NaN], the multiple is [ev / (rev * financialFactor / priceFactor)] on
    the raw values, and when the trading currency is not USD that is the
    quotient of the emitted enterprise value by the emitted revenue; when
    either is absent, zero or [NaN] the multiple is absent. *)
Theorem evRevenueMultiple_formula :
  (forall req fullTicker metrics quote financials fx,
     let tradingCurrency := str_or (quote_currency quote) "INR" in
     let financialCurrency := str_or (fin_currency financials) tradingCurrency in
     let priceFactor := usd_factor tradingCurrency fx in
     let financialFactor := usd_factor financialCurrency fx in
     let ev := fin_enterpriseValue financials in
     let rev := fin_totalRevenue financials in
     let t := targetData req fullTicker metrics quote financials fx in
     (present ev = true -> present rev = true ->
      exists e r, ev = Some e /\ rev = Some r
        /\ Target.evRevenueMultiple t
           = Some (e / (r * financialFactor / priceFactor)))
     /\ (present ev = true -> present rev = true ->
         tradingCurrency <> "USD"%string ->
         Target.evRevenueMultiple t
         = Some (Target.enterpriseValue t / Target.revenue t))
     /\ (present ev = false \/ present rev = false ->
         Target.evRevenueMultiple t = None))
  /\ (forall peer pMet pQuote pFin fx,
        let pTradingCurr := str_or (quote_currency pQuote) "INR" in
        let pFinancialCurr := str_or (fin_currency pFin) pTradingCurr in
        let pPriceFact := usd_factor pTradingCurr fx in
        let pFinancialFact := usd_factor pFinancialCurr fx in
        let ev := fin_enterpriseValue pFin in
        let rev := fin_totalRevenue pFin in
        let p := peerData peer pMet pQuote pFin fx in
        (present ev = true -> present rev = true ->
         exists e r, ev = Some e /\ rev = Some r
           /\ Peer.evRevenueMultiple p
              = Some (e / (r * pFinancialFact / pPriceFact)))
        /\ (present ev = true -> present rev = true ->
            pTradingCurr <> "USD"%string ->
            Peer.evRevenueMultiple p
            = Some (Peer.enterpriseValue p / Peer.revenue p))
        /\ (present ev = false \/ present rev = false ->
            Peer.evRevenueMultiple p = None)).
Proof.
  split; intros; (split; [|split]).
  - intros He Hr.
    destruct (evRevenueMultiple_of_present ev rev priceFactor financialFactor He Hr)
      as (e & r & ? & ? & _ & _ & ?). by exists e, r.
  - intros He Hr Hne. cbn [t targetData Target.evRevenueMultiple
      Target.enterpriseValue Target.revenue].
    rewrite (usd_factor_other _ _ Hne). by apply evRevenueMultiple_of_quotient.
  - apply evRevenueMultiple_of_absent.
  - intros He Hr.
    destruct (evRevenueMultiple_of_present ev rev pPriceFact pFinancialFact He Hr)
      as (e & r & ? & ? & _ & _ & ?). by exists e, r.
  - intros He Hr Hne. cbn [p peerData Peer.evRevenueMultiple
      Peer.enterpriseValue Peer.revenue].
    rewrite (usd_factor_other _ _ Hne). by apply evRevenueMultiple_of_quotient.
  - apply evRevenueMultiple_of_absent.
Qed.

(* ================================================================== *)
(** * Properties of [getPeers]                                         *)
(* ================================================================== *)

Section PeerFacts.

Context (yf : Provider) (industryList : list Directory.entry).

(** The [Set] keeps one copy of each symbol. *)
Lemma fold_set_add_NoDup (arr acc : list string) :
  NoDup acc -> NoDup (fold_left set_add arr acc).
Proof.
  revert acc; induction arr as [|s arr IH]; intros acc Hnd; [done|].
  cbn [fold_left]. apply IH. unfold set_add. case_bool_decide; [done|].
  apply NoDup_app. split; [done|]. split; [|apply NoDup_singleton].
  intros x Hx Hs. apply list_elem_of_singleton in Hs as ->. done.
Qed.

Lemma Array_from_Set_NoDup (arr : list string) : NoDup (Array_from_Set arr).
Proof. apply fold_set_add_NoDup. constructor. Qed.

Lemma gather_NoDup (recommendations : option (list string))
    (excelIndustry : option string) (tickerBase : string) :
  str_truthy excelIndustry = true \/ NoDup (default [] recommendations) ->
  NoDup (gather industryList recommendations excelIndustry tickerBase).
Proof.
  intros H. unfold gather.
  destruct (str_truthy excelIndustry); [apply Array_from_Set_NoDup|].
  by destruct H.
Qed.

(** What a verified candidate is made of. *)
Lemma verifyPeer_Some (ticker targetIndustry : string)
    (excelIndustry : option string) (exchangeRate : float)
    (s : option QuoteSummary.t) (symbol : string) (p : PeerCandidate.t) :
  verifyPeer yf industryList ticker targetIndustry excelIndustry exchangeRate
             s symbol = Some p ->
  PeerCandidate.slug p = symbol
  /\ symbol <> ticker
  /\ PeerCandidate.marketCap p
     = or_default (fin_detail s ≫= SummaryDetail.marketCap) 0
       * usd_factor
           (str_or (quote_currency (catch_null (Yf.quote yf symbol)))
                   (str_or (fin_currency s) "INR"))
           exchangeRate.
Proof.
  unfold verifyPeer.
  destruct (s ≫= QuoteSummary.assetProfile) as [profile|]; [|discriminate].
  destruct (String.eqb_spec symbol ticker) as [|Hne]; [discriminate|].
  match goal with |- context [negb ?b] => destruct b end; [|discriminate].
  cbn [negb]. intros [= <-]. done.
Qed.

Lemma verifiedPeers_omap (ticker targetIndustry : string)
    (excelIndustry : option string) (exchangeRate : float)
    (candidateSymbols : list string) :
  verifiedPeers yf industryList ticker targetIndustry excelIndustry
                exchangeRate candidateSymbols
  = omap (verify_symbol yf industryList ticker targetIndustry excelIndustry exchangeRate)
         (slice0 20 candidateSymbols).
Proof.
  unfold verifiedPeers.
  rewrite (imap_ext _
    (const (verify_symbol yf industryList ticker targetIndustry excelIndustry
                          exchangeRate))).
  2:{ intros i symbol Hi. unfold verify_symbol.
      change (map ?f ?l) with (f <$> l).
      by rewrite list_lookup_fmap, Hi. }
  rewrite imap_const. generalize (slice0 20 candidateSymbols).
  intros l. induction l as [|x l IH]; [reflexivity|]. cbn.
  destruct (verify_symbol _ _ _ _ _ _ x); cbn; by rewrite IH.
Qed.

Lemma omap_slug_sublist {B} (g : string -> option B) (h : B -> string)
    (l : list string) :
  (forall x y, g x = Some y -> h y = x) ->
  sublist (map h (omap g l)) l.
Proof.
  intros Hg. induction l as [|x l IH]; [constructor|]. cbn.
  destruct (g x) as [y|] eqn:E; cbn.
  - rewrite (Hg x y E). by constructor.
  - by constructor.
Qed.

End PeerFacts.

(** *** Numbers that count *)

Lemma truthy_not_nan (x : float) : truthy x = true -> is_nan x = false.
Proof.
  unfold truthy. intros H. apply andb_true_iff in H as [_ H].
  by apply negb_true_iff in H.
Qed.

Lemma or_default_not_nan (x : option float) : is_nan (or_default x 0) = false.
Proof.
  unfold or_default. destruct x as [v|]; [|reflexivity].
  destruct (truthy v) eqn:E; [by apply truthy_not_nan|reflexivity].
Qed.

Lemma num_or_not_nan (x : float) : is_nan (num_or x 0) = false.
Proof.
  unfold num_or. destruct (truthy x) eqn:E; [by apply truthy_not_nan|reflexivity].
Qed.

Lemma ltb_0_not_nan (x : float) : (0 <? x) = true -> is_nan x = false.
Proof.
  intros H. apply F64Facts.not_nan_Prim2SF. intros E.
  rewrite FloatAxioms.ltb_spec, E in H. discriminate.
Qed.

Lemma ltb_0_frank (x : float) : (0 <? x) = true -> (0 < F64.frank x)%Z.
Proof.
  intros H. pose proof (ltb_0_not_nan x H) as Hn.
  rewrite F64Facts.ltb_frank, F64Facts.frank_0 in H by done.
  by apply Z.ltb_lt.
Qed.

Lemma ltb_0_truthy (x : float) : (0 <? x) = true -> truthy x = true.
Proof.
  intros H. pose proof (ltb_0_not_nan x H) as Hn. pose proof (ltb_0_frank x H).
  unfold truthy. rewrite Hn, F64Facts.eqb_frank, F64Facts.frank_0 by done.
  cbn [negb]. rewrite andb_true_r. apply negb_true_iff, Z.eqb_neq. lia.
Qed.

Lemma usd_factor_finite (currency : string) (fx : float) :
  is_finite fx = true -> (fx =? 0) = false ->
  is_finite (usd_factor currency fx) = true
  /\ (usd_factor currency fx =? 0) = false.
Proof.
  intros Hf Hz. unfold usd_factor.
  by destruct (String.eqb currency "USD").
Qed.

(** *** The two comparators rank by market cap *)

Lemma byPeerMarketCap_ranks (l : list Peer.t) :
  ranks_by byPeerMarketCap peer_rank l.
Proof.
  intros a b _ _. unfold after, byPeerMarketCap, peer_rank.
  apply F64Facts.sub_pos_frank; apply num_or_not_nan.
Qed.

Lemma byMarketCap_ranks (l : list PeerCandidate.t) :
  Forall (fun p => is_nan (PeerCandidate.marketCap p) = false) l ->
  ranks_by byMarketCap candidate_rank l.
Proof.
  intros Hall a b Ha Hb. unfold after, byMarketCap, candidate_rank.
  apply F64Facts.sub_pos_frank; by eapply Forall_forall in Hall.
Qed.

Section GetPeers.

Context (yf : Provider) (industryList : list Directory.entry).

(** [getPeers] is empty or the ten first of the sorted verified peers. *)
Lemma getPeers_shape (ticker : string) (exchangeRate : float) :
  getPeers yf industryList ticker exchangeRate = []
  \/ exists targetIndustry recommendations,
       Yf.recommendationsBySymbol yf ticker = Resolves recommendations
       /\ getPeers yf industryList ticker exchangeRate
          = slice0 10
              (sort byMarketCap
                 (omap (verify_symbol yf industryList ticker targetIndustry
                          (directory_industry industryList (before_dot ticker))
                          exchangeRate)
                    (slice0 20
                       (gather industryList recommendations
                          (directory_industry industryList (before_dot ticker))
                          (before_dot ticker))))).
Proof.
  unfold getPeers.
  destruct (_ ≫= QuoteSummary.assetProfile) as [profile|]; [|by left].
  destruct (Yf.recommendationsBySymbol yf ticker) as [|recommendations] eqn:E;
    [by left|].
  right. eexists _, recommendations. split; [reflexivity|].
  by rewrite verifiedPeers_omap.
Qed.

Lemma verify_symbol_Some (ticker targetIndustry : string)
    (excelIndustry : option string) (exchangeRate : float)
    (symbol : string) (p : PeerCandidate.t) :
  verify_symbol yf industryList ticker targetIndustry excelIndustry
                exchangeRate symbol = Some p ->
  PeerCandidate.slug p = symbol /\ symbol <> ticker
  /\ exists raw currency,
       PeerCandidate.marketCap p
       = or_default raw 0 * usd_factor currency exchangeRate.
Proof.
  intros H. apply verifyPeer_Some in H as (H1 & H2 & H3). eauto 6.
Qed.

Lemma verified_not_nan (ticker targetIndustry : string)
    (excelIndustry : option string) (exchangeRate : float) (l : list string) :
  is_finite exchangeRate = true -> (exchangeRate =? 0) = false ->
  Forall (fun p => is_nan (PeerCandidate.marketCap p) = false)
    (omap (verify_symbol yf industryList ticker targetIndustry excelIndustry
             exchangeRate) l).
Proof.
  intros Hf Hz. apply Forall_forall. intros p Hp.
  apply list_elem_of_omap in Hp as (symbol & _ & Hp).
  apply verify_symbol_Some in Hp as (_ & _ & raw & currency & ->).
  destruct (usd_factor_finite currency exchangeRate Hf Hz).
  apply F64Facts.mul_not_nan; [apply or_default_not_nan|done|done].
Qed.

End GetPeers.

(** C5, at the input where it fails.  The recommender names one symbol
    twice and the target has no row in the directory, so the candidates do
    not pass through the [Set]: the symbol is verified twice and the
    returned list holds it twice. *)
Theorem getPeers_repeats_symbol :
  getPeers twice_provider [] "TGT.NS" 83
  = [PeerCandidate.mk "AAA.NS" "Technology > Software" 100;
     PeerCandidate.mk "AAA.NS" "Technology > Software" 100]
  /\ ~ NoDup (map PeerCandidate.slug (getPeers twice_provider [] "TGT.NS" 83)).
Proof.
  assert (E : getPeers twice_provider [] "TGT.NS" 83
    = [PeerCandidate.mk "AAA.NS" "Technology > Software" 100;
       PeerCandidate.mk "AAA.NS" "Technology > Software" 100])
    by (vm_compute; reflexivity).
  split; [exact E|]. rewrite E. cbn. intros Hnd.
  apply NoDup_cons in Hnd as [Hin _]. apply Hin. apply list_elem_of_here.
Qed.

(** The same provider with the target in the directory: the candidates
    pass through the [Set] and the symbol is returned once. *)
Example getPeers_set_branch_once :
  getPeers twice_provider [Directory.mk "TGT" "Target" "Software"] "TGT.NS" 83
  = [PeerCandidate.mk "AAA.NS" "Technology > Software" 100].
Proof. vm_compute. reflexivity. Qed.

(** The facts of the list [getPeers] returns, together. *)
Lemma getPeers_facts (yf : Provider) (industryList : list Directory.entry)
    (ticker : string) (exchangeRate : float) :
  let peers := getPeers yf industryList ticker exchangeRate in
  (length peers <= 10)%nat
  /\ (forall p, p ∈ peers -> PeerCandidate.slug p <> ticker)
  /\ (str_truthy (directory_industry industryList (before_dot ticker)) = true
      \/ (forall recs, Yf.recommendationsBySymbol yf ticker = Resolves (Some recs)
                       -> NoDup recs) ->
      NoDup (map PeerCandidate.slug peers))
  /\ (is_finite exchangeRate = true -> (exchangeRate =? 0) = false ->
      (forall i j a b, (i < j)%nat -> peers !! i = Some a -> peers !! j = Some b ->
         (PeerCandidate.marketCap b <=? PeerCandidate.marketCap a) = true)
      /\ exists verified,
           peers = slice0 10 (sort byMarketCap verified)
           /\ sort byMarketCap verified ≡ₚ verified
           /\ forall k, List.filter (fun p => candidate_rank p =? k)%Z
                          (sort byMarketCap verified)
                        = List.filter (fun p => candidate_rank p =? k)%Z verified).
Proof.
  intros peers. subst peers.
  destruct (getPeers_shape yf industryList ticker exchangeRate)
    as [->|(targetIndustry & recommendations & Hrec & ->)].
  { split; [cbn; lia|]. split; [intros p Hp; by apply elem_of_nil in Hp|].
    split; [intros _; constructor|]. intros _ _. split.
    - intros i j a b _ Ha. by rewrite lookup_nil in Ha.
    - exists []. split; [reflexivity|]. split; [reflexivity|done]. }
  set (excelIndustry := directory_industry industryList (before_dot ticker)).
  set (cands := gather industryList recommendations excelIndustry (before_dot ticker)).
  set (verified := omap (verify_symbol yf industryList ticker targetIndustry
                           excelIndustry exchangeRate) (slice0 20 cands)).
  split; [|split; [|split]].
  - unfold slice0. rewrite length_take. lia.
  - intros p Hp. unfold slice0 in Hp.
    pose proof (elem_of_sublist _ _ _ Hp (sublist_take _ _)) as Hp'.
    apply sort_elem_of, list_elem_of_omap in Hp' as (symbol & _ & Hv).
    apply verify_symbol_Some in Hv as (-> & Hne & _). done.
  - intros Hsrc.
    assert (Hc : NoDup cands).
    { apply gather_NoDup. destruct Hsrc as [?|Hr]; [by left|right].
      destruct recommendations as [recs|]; [by apply Hr|constructor]. }
    eapply sublist_NoDup; [|apply (fmap_sublist PeerCandidate.slug), sublist_take].
    eapply NoDup_Permutation_proper;
      [apply (fmap_Permutation PeerCandidate.slug), sort_perm|].
    eapply sublist_NoDup; [|apply omap_slug_sublist].
    + eapply sublist_NoDup; [exact Hc|apply sublist_take].
    + intros x y Hv. by apply verify_symbol_Some in Hv as (? & _).
  - intros Hf Hz.
    pose proof (verified_not_nan yf industryList ticker targetIndustry
                  excelIndustry exchangeRate (slice0 20 cands) Hf Hz) as Hnn.
    fold verified in Hnn.
    pose proof (byMarketCap_ranks verified Hnn) as Hr.
    split.
    + intros i j a b Hij Ha Hb. unfold slice0 in Ha, Hb.
      apply lookup_take_Some in Ha as [Ha _]. apply lookup_take_Some in Hb as [Hb _].
      pose proof (StronglySorted_lookup _ _ i j a b
                    (sort_sorted byMarketCap candidate_rank verified Hr) Hij Ha Hb)
        as Hle. cbn in Hle.
      assert (Hna : is_nan (PeerCandidate.marketCap a) = false).
      { eapply Forall_forall in Hnn; [exact Hnn|].
        eapply sort_elem_of, list_elem_of_lookup_2, Ha. }
      assert (Hnb : is_nan (PeerCandidate.marketCap b) = false).
      { eapply Forall_forall in Hnn; [exact Hnn|].
        eapply sort_elem_of, list_elem_of_lookup_2, Hb. }
      rewrite F64Facts.leb_frank by done. by apply Z.leb_le.
    + exists verified. split; [reflexivity|]. split; [apply sort_perm|].
      intros k. by apply sort_stable.
Qed.



(** *** Values the provider does not give *)

Lemma zero_factor_is_zero (currency : string) (fx : float) :
  is_finite fx = true -> is_zero (0 * usd_factor currency fx) = true.
Proof.
  intros Hf. apply F64Facts.mul_0_l. unfold usd_factor.
  by destruct (String.eqb currency "USD").
Qed.

Lemma zero_factor_falsy (f : float) : truthy (0 * f) = false.
Proof. apply F64Facts.mul_0_l_falsy. Qed.

Lemma leb_true_not_nan (x y : float) :
  (x <=? y) = true -> is_nan x = false /\ is_nan y = false.
Proof.
  rewrite FloatAxioms.leb_spec. intros H.
  split; apply F64Facts.not_nan_Prim2SF; intros E; rewrite E in H;
    [discriminate|by destruct (Prim2SF x)].
Qed.

(** In the final list a peer whose market cap does not count (zero or
    [NaN]) has no peer of positive market cap after it. *)
Lemma finalPeers_zero_last (yf : Provider) (dateMap : gmap string float)
    (exchangeRate : float) (peerList : list PeerCandidate.t)
    (i j : nat) (p q : Peer.t) :
  (i < j)%nat ->
  finalPeers yf dateMap exchangeRate peerList !! i = Some p ->
  finalPeers yf dateMap exchangeRate peerList !! j = Some q ->
  truthy (Peer.marketCap p) = false ->
  (0 <? Peer.marketCap q) = false.
Proof.
  intros Hij Hp Hq Hz. unfold finalPeers in Hp, Hq.
  pose proof (StronglySorted_lookup _ _ i j p q
    (sort_sorted byPeerMarketCap peer_rank _ (byPeerMarketCap_ranks _)) Hij Hp Hq)
    as Hle. cbn in Hle. unfold peer_rank, num_or in Hle. rewrite Hz in Hle.
  destruct (0 <? Peer.marketCap q) eqn:E; [|reflexivity].
  rewrite (ltb_0_truthy _ E) in Hle. apply ltb_0_frank in E.
  rewrite F64Facts.frank_0 in Hle. lia.
Qed.

(** In the list [getPeers] returns, the exchange rate being a finite
    non-zero number, a candidate of market cap zero has no candidate of
    positive market cap after it. *)
Lemma getPeers_zero_last (yf : Provider) (industryList : list Directory.entry)
    (ticker : string) (exchangeRate : float) (i j : nat) (p q : PeerCandidate.t) :
  is_finite exchangeRate = true -> (exchangeRate =? 0) = false ->
  (i < j)%nat ->
  getPeers yf industryList ticker exchangeRate !! i = Some p ->
  getPeers yf industryList ticker exchangeRate !! j = Some q ->
  is_zero (PeerCandidate.marketCap p) = true ->
  (0 <? PeerCandidate.marketCap q) = false.
Proof.
  intros Hf Hnz Hij Hp Hq Hz.
  destruct (getPeers_facts yf industryList ticker exchangeRate)
    as (_ & _ & _ & Hs).
  destruct (Hs Hf Hnz) as [Hsorted _].
  pose proof (Hsorted i j p q Hij Hp Hq) as Hle.
  destruct (leb_true_not_nan _ _ Hle) as [Hnq Hnp].
  rewrite F64Facts.leb_frank in Hle by done. apply Z.leb_le in Hle.
  unfold is_zero in Hz.
  rewrite F64Facts.eqb_frank, F64Facts.frank_0 in Hz by done.
  apply Z.eqb_eq in Hz.
  rewrite F64Facts.ltb_frank, F64Facts.frank_0 by done.
  apply Z.ltb_ge. lia.
Qed.

(** C10.  In the target's object and in a peer's object a monetary field
    (market cap, enterprise value, revenue, EBITDA) whose value the
    provider does not give is [0] times the field's currency factor, which
    is a zero for every finite exchange rate, and never absent (the field
    is a number); a ratio field (P/E, P/B, dividend yield, debt to equity,
    profit margin) is the provider's value, absent when the provider gives
    none.  A candidate whose summary has no market cap is ranked with [0]
    times its factor.  Such a market cap counts as [0] in the final sort,
    where no peer of positive market cap comes after it; and the same in
    the list [getPeers] returns, for a finite non-zero exchange rate. *)
Theorem unavailable_fields :
  (forall req fullTicker metrics quote financials fx,
     let tradingCurrency := str_or (quote_currency quote) "INR" in
     let financialCurrency := str_or (fin_currency financials) tradingCurrency in
     let priceFactor := usd_factor tradingCurrency fx in
     let financialFactor := usd_factor financialCurrency fx in
     let t := targetData req fullTicker metrics quote financials fx in
     (quote_marketCap quote = None -> Target.marketCap t = 0 * priceFactor)
     /\ (fin_enterpriseValue financials = None ->
         Target.enterpriseValue t = 0 * priceFactor)
     /\ (fin_totalRevenue financials = None -> Target.revenue t = 0 * financialFactor)
     /\ (fin_ebitda financials = None -> Target.ebitda t = 0 * financialFactor)
     /\ Target.peRatio t = fin_detail financials ≫= SummaryDetail.trailingPE
     /\ Target.pbRatio t = fin_stats financials ≫= KeyStatistics.priceToBook
     /\ Target.dividendYield t = fin_detail financials ≫= SummaryDetail.dividendYield
     /\ Target.debtToEquity t = fin_data financials ≫= FinancialData.debtToEquity
     /\ Target.profitMargin t = fin_data financials ≫= FinancialData.profitMargins)
  /\ (forall peer pMet pQuote pFin fx,
        let pTradingCurr := str_or (quote_currency pQuote) "INR" in
        let pFinancialCurr := str_or (fin_currency pFin) pTradingCurr in
        let pPriceFact := usd_factor pTradingCurr fx in
        let pFinancialFact := usd_factor pFinancialCurr fx in
        let p := peerData peer pMet pQuote pFin fx in
        (quote_marketCap pQuote = None -> Peer.marketCap p = 0 * pPriceFact)
        /\ (fin_enterpriseValue pFin = None -> Peer.enterpriseValue p = 0 * pPriceFact)
        /\ (fin_totalRevenue pFin = None -> Peer.revenue p = 0 * pFinancialFact)
        /\ (fin_ebitda pFin = None -> Peer.ebitda p = 0 * pFinancialFact)
        /\ Peer.peRatio p = fin_detail pFin ≫= SummaryDetail.trailingPE
        /\ Peer.pbRatio p = fin_stats pFin ≫= KeyStatistics.priceToBook
        /\ Peer.dividendYield p = fin_detail pFin ≫= SummaryDetail.dividendYield
        /\ Peer.debtToEquity p = fin_data pFin ≫= FinancialData.debtToEquity
        /\ Peer.profitMargin p = fin_data pFin ≫= FinancialData.profitMargins)
  /\ (forall currency fx,
        is_finite fx = true -> is_zero (0 * usd_factor currency fx) = true)
  /\ (forall currency fx, truthy (0 * usd_factor currency fx) = false)
  /\ (forall yf industryList ticker targetIndustry excelIndustry fx s symbol p,
        verifyPeer yf industryList ticker targetIndustry excelIndustry fx s symbol
        = Some p ->
        fin_detail s ≫= SummaryDetail.marketCap = None ->
        exists currency, PeerCandidate.marketCap p = 0 * usd_factor currency fx)
  /\ (forall yf dateMap fx peerList i j p q,
        (i < j)%nat ->
        finalPeers yf dateMap fx peerList !! i = Some p ->
        finalPeers yf dateMap fx peerList !! j = Some q ->
        truthy (Peer.marketCap p) = false ->
        (0 <? Peer.marketCap q) = false)
  /\ (forall yf industryList ticker fx i j p q,
        is_finite fx = true -> (fx =? 0) = false ->
        (i < j)%nat ->
        getPeers yf industryList ticker fx !! i = Some p ->
        getPeers yf industryList ticker fx !! j = Some q ->
        is_zero (PeerCandidate.marketCap p) = true ->
        (0 <? PeerCandidate.marketCap q) = false).
Proof.
  split; [|split; [|split; [|split; [|split; [|split]]]]].
  - intros. repeat split; intros H; cbn [t targetData Target.marketCap
      Target.enterpriseValue Target.revenue Target.ebitda]; by rewrite H.
  - intros. repeat split; intros H; cbn [p peerData Peer.marketCap
      Peer.enterpriseValue Peer.revenue Peer.ebitda]; by rewrite H.
  - apply zero_factor_is_zero.
  - intros. apply zero_factor_falsy.
  - intros * Hv Hnone. apply verifyPeer_Some in Hv as (_ & _ & ->).
    rewrite Hnone. eauto.
  - apply finalPeers_zero_last.
  - apply getPeers_zero_last.
Qed.

(** The fields of a target, evaluated: a USD market cap of [2] at rate
    [83]; an INR one; and a target with no quote and no fundamentals. *)
Example usd_market_cap_scaled :
  Target.marketCap
    (targetData sample_request "TGT.NS" sample_metrics
       (Some (quote_of (Some "USD"%string) (Some 2))) None 83) = 166.
Proof. vm_compute. reflexivity. Qed.

Example inr_market_cap_unchanged :
  Target.marketCap
    (targetData sample_request "TGT.NS" sample_metrics
       (Some (quote_of (Some "INR"%string) (Some 2))) None 83) = 2.
Proof. vm_compute. reflexivity. Qed.

Example missing_values_emitted :
  let t := targetData sample_request "TGT.NS" sample_metrics None None 83 in
  Target.marketCap t = 0 /\ Target.revenue t = 0
  /\ Target.enterpriseValue t = 0 /\ Target.ebitda t = 0
  /\ Target.evRevenueMultiple t = None /\ Target.peRatio t = None
  /\ Target.pbRatio t = None /\ Target.dividendYield t = None
  /\ Target.debtToEquity t = None /\ Target.profitMargin t = None.
Proof. repeat split. Qed.

(** Two peers, the first without a quote: it is emitted with market cap
    [0] and comes after the peer of market cap [50]. *)
Example peer_without_quote_last :
  map (fun p => (Peer.ticker p, Peer.marketCap p))
      (finalPeers one_quote_provider sample_dateMap 83 two_candidates)
  = [("BBB.NS"%string, 50); ("AAA.NS"%string, 0)].
Proof. vm_compute. reflexivity. Qed.

(* ================================================================== *)
(** * Properties of the peer assembly                                  *)
(* ================================================================== *)

Section PeerAssembly.

Context (yf : Provider) (dateMap : gmap string float) (exchangeRate : float).

Lemma peerResult_ticker (peer : PeerCandidate.t) (p : Peer.t) :
  peerResult yf dateMap exchangeRate peer = Some p ->
  Peer.ticker p = PeerCandidate.slug peer.
Proof.
  unfold peerResult.
  destruct (fetchHistoricalData yf (PeerCandidate.slug peer)) as [rows|];
    [|discriminate].
  destruct (length rows <? 2)%nat; [discriminate|].
  destruct (align_prices dateMap rows) as [pS pM]. by intros [= <-].
Qed.

(** A peer is dropped exactly when its history is missing or has fewer
    than two rows. *)
Lemma peerResult_None (peer : PeerCandidate.t) :
  peerResult yf dateMap exchangeRate peer = None
  <-> fetchHistoricalData yf (PeerCandidate.slug peer) = None
      \/ exists rows, fetchHistoricalData yf (PeerCandidate.slug peer) = Some rows
                      /\ (length rows < 2)%nat.
Proof.
  unfold peerResult.
  destruct (fetchHistoricalData yf (PeerCandidate.slug peer)) as [rows|];
    [|by split; [left|]].
  destruct (Nat.ltb_spec (length rows) 2) as [Hlt|Hge].
  - split; [intros _; right; eauto|done].
  - destruct (align_prices dateMap rows) as [pS pM].
    split; [discriminate|]. intros [?|(rows' & [= <-] & ?)]; [discriminate|lia].
Qed.

(** With a history of two rows or more the peer's object is built,
    whatever the metrics, the quote and the fundamentals are. *)
Lemma peerResult_Some (peer : PeerCandidate.t) (rows : list HistoricalRow) :
  fetchHistoricalData yf (PeerCandidate.slug peer) = Some rows ->
  (2 <= length rows)%nat ->
  peerResult yf dateMap exchangeRate peer
  = Some (peerData peer
            (calculateFinancialMetrics (align_prices dateMap rows).1
                                       (align_prices dateMap rows).2)
            (catch_null (Yf.quote yf (PeerCandidate.slug peer)))
            (catch_null (Yf.quoteSummary yf (PeerCandidate.slug peer)
               [ModFinancialData; ModDefaultKeyStatistics; ModSummaryDetail]))
            exchangeRate).
Proof.
  intros Hrows Hlen. unfold peerResult. rewrite Hrows.
  destruct (Nat.ltb_spec (length rows) 2) as [Hlt|Hge]; [lia|].
  by destruct (align_prices dateMap rows) as [pS pM].
Qed.

Lemma finalPeers_elem_of (peerList : list PeerCandidate.t) (p : Peer.t) :
  p ∈ finalPeers yf dateMap exchangeRate peerList
  <-> exists peer, peer ∈ peerList
                   /\ peerResult yf dateMap exchangeRate peer = Some p.
Proof.
  unfold finalPeers. rewrite sort_elem_of, list_elem_of_omap. split.
  - intros (o & Ho & Hp). cbn in Hp. subst o.
    apply list_elem_of_In, in_map_iff in Ho as (peer & Hpeer & Hin).
    exists peer. by rewrite <- list_elem_of_In in Hin.
  - intros (peer & Hin & Hp). exists (Some p). split; [|done].
    apply list_elem_of_In, in_map_iff. exists peer.
    by rewrite <- list_elem_of_In.
Qed.

(** The results of the peers with the history fetch of [c] failing are
    the results without [c]'s. *)
Lemma peerResults_fail_history (c : string) (peerList : list PeerCandidate.t) :
  omap id (map (peerResult (fail_history yf c) dateMap exchangeRate) peerList)
  = List.filter (not_ticker c)
      (omap id (map (peerResult yf dateMap exchangeRate) peerList)).
Proof.
  induction peerList as [|peer peerList IH]; [reflexivity|].
  cbn [map].
  rewrite (omap_cons_app id (peerResult (fail_history yf c) _ _ peer) (map _ _)),
    (omap_cons_app id (peerResult yf _ _ peer) (map _ _)), IH.
  rewrite List.filter_app. f_equal.
  destruct (String.eqb_spec (PeerCandidate.slug peer) c) as [Hc|Hc].
  - assert (E : peerResult (fail_history yf c) dateMap exchangeRate peer = None).
    { unfold peerResult, fetchHistoricalData, fail_history. cbn [Yf.historical].
      by rewrite Hc, String.eqb_refl. }
    rewrite E.
    destruct (peerResult yf dateMap exchangeRate peer) as [p|] eqn:Ep;
      [|reflexivity].
    apply peerResult_ticker in Ep. cbn. unfold not_ticker.
    by rewrite Ep, Hc, String.eqb_refl.
  - assert (E : peerResult (fail_history yf c) dateMap exchangeRate peer
                = peerResult yf dateMap exchangeRate peer).
    { unfold peerResult, fetchHistoricalData, fail_history.
      cbn [Yf.historical Yf.quote Yf.quoteSummary].
      by destruct (String.eqb_spec (PeerCandidate.slug peer) c). }
    rewrite E.
    destruct (peerResult yf dateMap exchangeRate peer) as [p|] eqn:Ep;
      [|reflexivity].
    apply peerResult_ticker in Ep. cbn. unfold not_ticker.
    rewrite Ep. by destruct (String.eqb_spec (PeerCandidate.slug peer) c).
Qed.

Lemma finalPeers_fail_history (c : string) (peerList : list PeerCandidate.t) :
  finalPeers (fail_history yf c) dateMap exchangeRate peerList
  = List.filter (not_ticker c) (finalPeers yf dateMap exchangeRate peerList).
Proof.
  unfold finalPeers. rewrite peerResults_fail_history.
  apply (sort_filter byPeerMarketCap peer_rank), byPeerMarketCap_ranks.
Qed.

End PeerAssembly.

Lemma fetchHistoricalData_fail_history (yf : Provider) (c s : string) :
  s <> c -> fetchHistoricalData (fail_history yf c) s = fetchHistoricalData yf s.
Proof.
  intros Hne. unfold fetchHistoricalData, fail_history. cbn [Yf.historical].
  by destruct (String.eqb_spec s c).
Qed.

(** A failed history fetch of a symbol that is neither the target nor the
    benchmark changes the response by leaving that peer out. *)
Lemma handler_fail_history (yf : Provider) (industryList : list Directory.entry)
    (req : Request) (c : string) :
  c <> fullTicker_of req -> c <> marketTicker_of (req_exchange req) ->
  handler (fail_history yf c) industryList req
  = without_peer c (handler yf industryList req).
Proof.
  intros Hf Hm. unfold handler.
  rewrite !fetchHistoricalData_fail_history by done.
  change (Yf.quote (fail_history yf c)) with (Yf.quote yf).
  change (Yf.quoteSummary (fail_history yf c)) with (Yf.quoteSummary yf).
  change (getPeers (fail_history yf c)) with (getPeers yf).
  destruct (fetchHistoricalData yf (marketTicker_of (req_exchange req)))
    as [marketData|]; [|reflexivity].
  destruct (fetchHistoricalData yf (fullTicker_of req)) as [stockData|];
    [|reflexivity].
  destruct ((length marketData =? 0)%nat || (length stockData =? 0)%nat);
    [reflexivity|].
  destruct (align_prices (build_dateMap marketData) stockData) as [sP mP].
  destruct (calculateFinancialMetrics sP mP) as [metrics|]; [|reflexivity].
  cbn [without_peer]. by rewrite finalPeers_fail_history.
Qed.

Section VerifyIsolation.

Context (yf : Provider) (industryList : list Directory.entry)
        (ticker targetIndustry : string) (excelIndustry : option string)
        (exchangeRate : float).

Lemma verify_symbol_fail_quote (c symbol : string) :
  symbol <> c ->
  verify_symbol (fail_quote yf c) industryList ticker targetIndustry
                excelIndustry exchangeRate symbol
  = verify_symbol yf industryList ticker targetIndustry excelIndustry
                  exchangeRate symbol.
Proof.
  intros Hne. unfold verify_symbol, verifyPeer, fail_quote.
  cbn [Yf.quote Yf.quoteSummary].
  by destruct (String.eqb_spec symbol c).
Qed.

Lemma verify_symbol_fail_summary (c symbol : string) :
  symbol <> c ->
  verify_symbol (fail_summary yf c) industryList ticker targetIndustry
                excelIndustry exchangeRate symbol
  = verify_symbol yf industryList ticker targetIndustry excelIndustry
                  exchangeRate symbol.
Proof.
  intros Hne. unfold verify_symbol, verifyPeer, fail_summary.
  cbn [Yf.quote Yf.quoteSummary].
  by destruct (String.eqb_spec symbol c).
Qed.

Lemma verify_symbol_fail_summary_same (c : string) :
  verify_symbol (fail_summary yf c) industryList ticker targetIndustry
                excelIndustry exchangeRate c = None.
Proof.
  unfold verify_symbol, verifyPeer, fail_summary. cbn [Yf.quoteSummary].
  by rewrite String.eqb_refl.
Qed.

End VerifyIsolation.

(** C7, as stated, fails.  A candidate whose quote fetch fails during
    enrichment is not removed: [getPeers] returns it; and a peer whose
    quote fetch and whose fundamentals fetch both fail, its history being
    fetched, is in the final list, under its symbol as name and with
    market cap [0]. *)
Lemma failed_quote_keeps_candidate :
  (catch_null (Yf.quote history_only_provider "AAA.NS") = None
   /\ getPeers history_only_provider [] "TGT.NS" 83 = [sample_peer])
  /\ (let yf := fail_summary history_only_provider "AAA.NS" in
      catch_null (Yf.quote yf "AAA.NS") = None
      /\ catch_null (Yf.quoteSummary yf "AAA.NS"
           [ModFinancialData; ModDefaultKeyStatistics; ModSummaryDetail]) = None
      /\ exists p, finalPeers yf sample_dateMap 83 [sample_peer] = [p]
                   /\ Peer.ticker p = "AAA.NS"%string
                   /\ Peer.name p = "AAA.NS"%string
                   /\ Peer.marketCap p = 0
                   /\ Peer.beta p = None).
Proof.
  split; [split; vm_compute; reflexivity|].
  cbn zeta. split; [reflexivity|]. split; [reflexivity|].
  eexists. split; [vm_compute; reflexivity|]. repeat split.
Qed.

(** C7 (as amended).  A peer is dropped exactly when its history fetch
    fails or gives fewer than two rows.  A peer whose history has two rows
    or more is in the final list, whether or not its metrics, its quote and
    its fundamentals are there; when its metrics are absent its five
    statistical fields are null.  A failed history fetch of one symbol
    leaves the final list as it would be with that peer taken out, and,
    the symbol being neither the target nor the benchmark, leaves the
    response as it would be with that peer taken out: the target's object
    and the other peers' objects are the same.  In verification a failed
    summary fetch rejects that candidate, and a failed summary or quote
    fetch of one symbol leaves the verification of every other symbol as
    it is. *)
Theorem peer_failures_isolated :
  (forall yf dateMap fx peer,
     peerResult yf dateMap fx peer = None
     <-> fetchHistoricalData yf (PeerCandidate.slug peer) = None
         \/ exists rows,
              fetchHistoricalData yf (PeerCandidate.slug peer) = Some rows
              /\ (length rows < 2)%nat)
  /\ (forall yf dateMap fx peerList peer rows,
        peer ∈ peerList ->
        fetchHistoricalData yf (PeerCandidate.slug peer) = Some rows ->
        (2 <= length rows)%nat ->
        let pMet := calculateFinancialMetrics (align_prices dateMap rows).1
                                              (align_prices dateMap rows).2 in
        let p := peerData peer pMet
                   (catch_null (Yf.quote yf (PeerCandidate.slug peer)))
                   (catch_null (Yf.quoteSummary yf (PeerCandidate.slug peer)
                      [ModFinancialData; ModDefaultKeyStatistics; ModSummaryDetail]))
                   fx in
        p ∈ finalPeers yf dateMap fx peerList
        /\ Peer.ticker p = PeerCandidate.slug peer
        /\ (pMet = None ->
            Peer.beta p = None /\ Peer.volatility p = None /\ Peer.alpha p = None
            /\ Peer.correlation p = None /\ Peer.rSquared p = None))
  /\ (forall yf dateMap fx peerList c,
        finalPeers (fail_history yf c) dateMap fx peerList
        = List.filter (not_ticker c) (finalPeers yf dateMap fx peerList))
  /\ (forall yf industryList req c,
        c <> fullTicker_of req -> c <> marketTicker_of (req_exchange req) ->
        handler (fail_history yf c) industryList req
        = without_peer c (handler yf industryList req))
  /\ (forall yf industryList ticker targetIndustry excelIndustry fx c,
        verify_symbol (fail_summary yf c) industryList ticker targetIndustry
                      excelIndustry fx c = None
        /\ forall symbol, symbol <> c ->
             verify_symbol (fail_summary yf c) industryList ticker targetIndustry
                           excelIndustry fx symbol
             = verify_symbol yf industryList ticker targetIndustry excelIndustry
                             fx symbol
             /\ verify_symbol (fail_quote yf c) industryList ticker targetIndustry
                              excelIndustry fx symbol
                = verify_symbol yf industryList ticker targetIndustry excelIndustry
                                fx symbol).
Proof.
  split; [|split; [|split; [|split]]].
  - apply peerResult_None.
  - intros yf dateMap fx peerList peer rows Hin Hrows Hlen pMet p.
    split; [|split].
    + apply finalPeers_elem_of. exists peer. split; [done|].
      by apply peerResult_Some.
    + reflexivity.
    + intros Hnone. subst p. cbn [peerData Peer.beta Peer.volatility Peer.alpha
        Peer.correlation Peer.rSquared]. by rewrite Hnone.
  - intros. apply finalPeers_fail_history.
  - apply handler_fail_history.
  - intros. split; [apply verify_symbol_fail_summary_same|].
    intros symbol Hne. split;
      [by apply verify_symbol_fail_summary|by apply verify_symbol_fail_quote].
Qed.

(* ================================================================== *)
(** * Properties of the string functions                               *)
(* ================================================================== *)

Section StringFacts.

Lemma prefix_nil (s : string) : String.prefix "" s = true.
Proof. by destruct s. Qed.

Lemma prefix_cons (c d : ascii) (s1 s2 : string) :
  String.prefix (String c s1) (String d s2) = Ascii.eqb c d && String.prefix s1 s2.
Proof.
  cbn. destruct (ascii_dec c d) as [->|Hne].
  - by rewrite Ascii.eqb_refl.
  - apply Ascii.eqb_neq in Hne. by rewrite Hne.
Qed.

Lemma append_cons (c : ascii) (s b : string) :
  String.append (String c s) b = String c (String.append s b).
Proof. reflexivity. Qed.

Lemma append_nil (b : string) : String.append "" b = b.
Proof. reflexivity. Qed.

Lemma prefix_append (s b : string) : String.prefix s (String.append s b) = true.
Proof.
  induction s as [|c s IH]; [apply prefix_nil|].
  by rewrite append_cons, prefix_cons, Ascii.eqb_refl, IH.
Qed.

Lemma includes_cons (d : ascii) (s sub : string) :
  includes (String d s) sub = String.prefix sub (String d s) || includes s sub.
Proof. reflexivity. Qed.

Lemma includes_char_cons (c d : ascii) (s : string) :
  includes (String d s) (String c "") = Ascii.eqb c d || includes s (String c "").
Proof. by rewrite includes_cons, prefix_cons, prefix_nil, andb_true_r. Qed.

Lemma includes_char_nil (c : ascii) : includes "" (String c "") = false.
Proof. reflexivity. Qed.

Lemma includes_nil_l (c : ascii) (sub : string) : includes "" (String c sub) = false.
Proof. reflexivity. Qed.

Lemma split_go_cons (sep : string) (c : ascii) (rest : string) :
  split_go sep 0 (String c rest)
  = if String.prefix sep (String c rest)
    then EmptyString :: split_go sep (String.length sep - 1) rest
    else match split_go sep 0 rest with
         | piece :: pieces => String c piece :: pieces
         | [] => [String c EmptyString]
         end.
Proof. reflexivity. Qed.

(** A string without the separator is one piece. *)
Lemma split_none (sep s : string) :
  includes s sep = false -> split sep s = [s].
Proof.
  unfold split. induction s as [|c s IH]; intros H; [reflexivity|].
  rewrite includes_cons in H. apply orb_false_iff in H as [Hp Hi].
  by rewrite split_go_cons, Hp, (IH Hi).
Qed.



(** Splitting after a first piece that does not hold the character. *)
Lemma split_char_app (c : ascii) (a b : string) :
  includes a (String c "") = false ->
  split (String c "") (String.append a (String c b))
  = a :: split (String c "") b.
Proof.
  unfold split. induction a as [|d a IH]; intros H.
  - rewrite append_nil, split_go_cons, prefix_cons, prefix_nil.
    by rewrite Ascii.eqb_refl.
  - rewrite includes_char_cons in H. apply orb_false_iff in H as [Hd Ha].
    rewrite append_cons, split_go_cons, prefix_cons, prefix_nil, andb_true_r, Hd.
    by rewrite (IH Ha).
Qed.

(** The separator [" > "] after a first piece without [">"]. *)
Lemma split_arrow_app (a b : string) :
  includes a ">" = false ->
  split " > " (String.append a (String.append " > " b)) = a :: split " > " b.
Proof.
  unfold split. induction a as [|d a IH]; intros H.
  - rewrite append_nil, !append_cons, append_nil.
    rewrite split_go_cons, !prefix_cons, prefix_nil. reflexivity.
  - rewrite includes_char_cons in H. apply orb_false_iff in H as [Hd Ha].
    rewrite append_cons, split_go_cons, prefix_cons.
    assert (Hp : String.prefix "> " (String.append a (String.append " > " b)) = false).
    { destruct a as [|e a].
      - reflexivity.
      - rewrite includes_char_cons in Ha. apply orb_false_iff in Ha as [He _].
        by rewrite append_cons, prefix_cons, He. }
    by rewrite Hp, andb_false_r, (IH Ha).
Qed.

End StringFacts.

(* ================================================================== *)
(** * Properties of [loadExcelData]                                    *)
(* ================================================================== *)

Section ExcelFacts.

Import Excel.

Context (trim toLowerCase : string -> string).


(** The directory is the one before, or one entry for each data row that
    has a symbol. *)
Lemma loadExcelData_shape (sheet : option (list Row))
    (industryList : list Directory.entry) :
  loadExcelData trim toLowerCase sheet industryList = industryList
  \/ exists header rows nameIdx tickerIdx industryIdx,
       sheet = Some (header :: rows)
       /\ findIndex is_ticker (headers_of trim toLowerCase header) = At tickerIdx
       /\ index_of (findIndex is_name (headers_of trim toLowerCase header)) = nameIdx
       /\ index_of (findIndex is_industry (headers_of trim toLowerCase header))
          = industryIdx
       /\ loadExcelData trim toLowerCase sheet industryList
          = List.filter (fun item => negb (String.eqb (Directory.symbol item) ""))
              (map (entry_of trim nameIdx tickerIdx industryIdx) rows).
Proof.
  unfold loadExcelData. destruct sheet as [[|header rows]|]; [by left| |by left].
  destruct (findIndex is_name _) eqn:En; [by left| |];
    (destruct (findIndex is_ticker _) as [| |tickerIdx] eqn:Et; [by left|by left|]);
    (destruct (findIndex is_industry _) eqn:Ei; [by left| |]);
    right; eexists header, rows, _, tickerIdx, _;
    (split; [reflexivity|]); (split; [exact Et|]);
    (split; [rewrite En; reflexivity|]);
    (split; [rewrite Ei; reflexivity|reflexivity]).
Qed.

(** [findIndex] throws when it comes to a hole that its callback cannot
    read before any match. *)
Lemma findIndex_from_throws (p : option string -> option bool)
    (pre post : list (option string)) (i : nat) :
  Forall (fun h => p h = Some false) pre -> p None = None ->
  findIndex_from p (pre ++ None :: post) i = Throws.
Proof.
  intros Hpre Hp. revert i. induction Hpre as [|h pre Hh _ IH]; intros i; cbn.
  - by rewrite Hp.
  - by rewrite Hh, IH.
Qed.

Lemma findIndex_from_NotFound (p : option string -> option bool)
    (headers : list (option string)) (i : nat) :
  findIndex_from p headers i = NotFound <-> Forall (fun h => p h = Some false) headers.
Proof.
  revert i. induction headers as [|h headers IH]; intros i; cbn.
  - split; [constructor|done].
  - destruct (p h) as [[|]|] eqn:E.
    + split; [done|]. intros [H _]%Forall_cons. congruence.
    + rewrite IH. split; [by constructor|by intros [_ H]%Forall_cons].
    + split; [done|]. intros [H _]%Forall_cons. congruence.
Qed.

Lemma headers_of_app (pre post : Row) :
  headers_of trim toLowerCase (pre ++ post)
  = headers_of trim toLowerCase pre ++ headers_of trim toLowerCase post.
Proof. unfold headers_of. apply map_app. Qed.

End ExcelFacts.

Section ExcelDirectory.

Import Excel.

Lemma includes_append_char (c : ascii) (a b : string) :
  includes (String.append a (String c b)) (String c "") = true.
Proof.
  induction a as [|d a IH].
  - by rewrite append_nil, includes_char_cons, Ascii.eqb_refl.
  - by rewrite append_cons, includes_char_cons, IH, orb_true_r.
Qed.

Lemma filter_length_le {A} (f : A -> bool) (l : list A) :
  (length (List.filter f l) <= length l)%nat.
Proof.
  induction l as [|x l IH]; [done|]. cbn. destruct (f x); cbn; lia.
Qed.

Lemma verifyPeer_no_directory (yf : Provider) (industryList : list Directory.entry)
    (ticker targetIndustry : string) (excelIndustry : option string)
    (exchangeRate : float) (s : option QuoteSummary.t) (symbol : string) :
  str_truthy excelIndustry = false ->
  verifyPeer yf industryList ticker targetIndustry excelIndustry exchangeRate s symbol
  = verifyPeer yf [] ticker targetIndustry None exchangeRate s symbol.
Proof. intros H. unfold verifyPeer. by rewrite H. Qed.

Lemma getPeers_no_directory (yf : Provider) (industryList : list Directory.entry)
    (ticker : string) (exchangeRate : float) :
  str_truthy (directory_industry industryList (before_dot ticker)) = false ->
  getPeers yf industryList ticker exchangeRate = getPeers yf [] ticker exchangeRate.
Proof.
  intros H. unfold getPeers.
  destruct (_ ≫= QuoteSummary.assetProfile) as [profile|]; [|done].
  destruct (Yf.recommendationsBySymbol yf ticker) as [|recommendations]; [done|].
  rewrite !verifiedPeers_omap. unfold gather. rewrite H. cbn [directory_industry
    List.find fmap option_fmap option_map str_truthy].
  do 2 f_equal. apply list_omap_pointwise. intros symbol.
  unfold verify_symbol. by apply verifyPeer_no_directory.
Qed.

Lemma directory_industry_blank (industryList : list Directory.entry) (base : string) :
  Forall (fun item => Directory.industry item = EmptyString) industryList ->
  str_truthy (directory_industry industryList base) = false.
Proof.
  intros Hall. unfold directory_industry.
  destruct (List.find _ industryList) as [item|] eqn:E; [|done].
  apply find_some in E as [Hin _]. apply list_elem_of_In in Hin.
  eapply Forall_forall in Hall; [|exact Hin]. cbn. by rewrite Hall.
Qed.

End ExcelDirectory.


(** The sample sheet: the exchange prefix and the blanks are taken off,
    and the row without a ticker is dropped. *)
Example sample_sheet_loaded :
  Samples.load Samples.sample_sheet
  = [ Directory.mk "TCS" "Tata Consultancy" "Software";
      Directory.mk "INFY" "Infosys" "Software" ].
Proof. vm_compute. reflexivity. Qed.

(** X3.  Nothing is loaded, and the directory stays as it was, when there
    is no sheet, when the sheet has no row, when no header cell is a
    ticker header, and when the header row has an empty cell with no name
    header, or no ticker header, to its left: there the search of the
    headers throws. *)
Theorem loadExcelData_nothing_loaded (trim toLowerCase : string -> string)
    (industryList : list Directory.entry) :
  Excel.loadExcelData trim toLowerCase None industryList = industryList
  /\ Excel.loadExcelData trim toLowerCase (Some []) industryList = industryList
  /\ (forall header rows,
        Forall (fun h => Excel.is_ticker h = Some false)
               (Excel.headers_of trim toLowerCase header) ->
        Excel.loadExcelData trim toLowerCase (Some (header :: rows)) industryList
        = industryList)
  /\ (forall pre post rows,
        Forall (fun h => Excel.is_name h = Some false)
               (Excel.headers_of trim toLowerCase pre)
        \/ Forall (fun h => Excel.is_ticker h = Some false)
                  (Excel.headers_of trim toLowerCase pre) ->
        Excel.loadExcelData trim toLowerCase (Some ((pre ++ None :: post) :: rows))
                            industryList
        = industryList).
Proof.
  split; [reflexivity|]. split; [reflexivity|]. split.
  - intros header rows Hall. unfold Excel.loadExcelData, Excel.findIndex.
    apply (findIndex_from_NotFound _ _ 0) in Hall. rewrite Hall.
    by destruct (Excel.findIndex_from Excel.is_name _ 0).
  - intros pre post rows Hpre. unfold Excel.loadExcelData, Excel.findIndex.
    rewrite headers_of_app. cbn [Excel.headers_of map fmap option_fmap option_map].
    fold (Excel.headers_of trim toLowerCase pre).
    fold (Excel.headers_of trim toLowerCase post).
    destruct Hpre as [Hn|Ht].
    + by rewrite (findIndex_from_throws Excel.is_name _ _ 0 Hn).
    + rewrite (findIndex_from_throws Excel.is_ticker _ _ 0 Ht) by done.
      by destruct (Excel.findIndex_from Excel.is_name _ 0).
Qed.

(** An empty first header cell: nothing is loaded, though the sheet has a
    ticker column and a row with a ticker. *)
Example blank_header_nothing_loaded :
  Samples.load Samples.blank_header_sheet = [].
Proof. vm_compute. reflexivity. Qed.

(** X4.  The symbol of a raw ticker: the raw ticker itself when it holds
    no colon; what follows the colon in [EXCHANGE:SYMBOL]; and, with two
    colons, what stands between the first and the second. *)
Theorem symbol_of_exchange_prefix :
  (forall rawTicker,
     includes rawTicker ":" = false -> Excel.symbol_of rawTicker = rawTicker)
  /\ (forall exch sym,
        includes exch ":" = false -> includes sym ":" = false ->
        Excel.symbol_of (String.append exch (String ":" sym)) = sym)
  /\ (forall exch sym more,
        includes exch ":" = false -> includes sym ":" = false ->
        Excel.symbol_of
          (String.append exch (String ":" (String.append sym (String ":" more))))
        = sym).
Proof.
  split; [|split].
  - intros rawTicker H. unfold Excel.symbol_of. by rewrite H.
  - intros exch sym He Hs. unfold Excel.symbol_of.
    rewrite includes_append_char, split_char_app by done.
    by rewrite (split_none ":" sym Hs).
  - intros exch sym more He Hs. unfold Excel.symbol_of.
    rewrite includes_append_char, split_char_app by done.
    by rewrite split_char_app.
Qed.

(** X5.  When the target has no industry in the directory (it is not
    listed, or its industry cell is empty), [getPeers] gives what it gives
    with an empty directory: the candidates are the recommender's alone.
    This is so for every target when the sheet has no industry column. *)
Theorem getPeers_without_directory_industry :
  (forall yf industryList ticker exchangeRate,
     str_truthy (directory_industry industryList (before_dot ticker)) = false ->
     getPeers yf industryList ticker exchangeRate = getPeers yf [] ticker exchangeRate)
  /\ (forall trim toLowerCase header rows yf ticker exchangeRate,
        Excel.findIndex Excel.is_industry (Excel.headers_of trim toLowerCase header)
        = Excel.NotFound ->
        getPeers yf (Excel.loadExcelData trim toLowerCase (Some (header :: rows)) [])
                 ticker exchangeRate
        = getPeers yf [] ticker exchangeRate).
Proof.
  split; [apply getPeers_no_directory|].
  intros trim toLowerCase header rows yf ticker exchangeRate Hi.
  apply getPeers_no_directory, directory_industry_blank.
  destruct (loadExcelData_shape trim toLowerCase (Some (header :: rows)) [])
    as [->|(header' & rows' & nameIdx & tickerIdx & industryIdx
            & [= <- <-] & _ & _ & Hidx & ->)]; [constructor|].
  rewrite Hi in Hidx. subst industryIdx.
  apply Forall_forall. intros item Hin.
  apply list_elem_of_In, filter_In in Hin as [Hin _].
  by apply in_map_iff in Hin as (rowData & <- & _).
Qed.

(** A directory loaded from a sheet without an industry column lists the
    target, and the peers are those found with no directory. *)
Example no_industry_column_peers :
  Samples.load Samples.no_industry_sheet
  = [Directory.mk "TGT" "Target" ""; Directory.mk "AAA" "Other" ""]
  /\ getPeers twice_provider (Samples.load Samples.no_industry_sheet) "TGT.NS" 83
     = getPeers twice_provider [] "TGT.NS" 83.
Proof. split; vm_compute; reflexivity. Qed.

(* ================================================================== *)
(** * Properties of the store                                          *)
(* ================================================================== *)

Section JsMapFacts.

Context {K V : Type} (same : K -> K -> bool).
Hypothesis same_refl : forall k, same k k = true.
Hypothesis same_join : forall a k k', same a k = true -> same a k' = true -> same k k' = true.

Lemma JsMap_set_fresh (m : list (K * V)) (k : K) (v : V) :
  JsMap.has same m k = false -> JsMap.set same m k v = m ++ [(k, v)].
Proof. intros H. unfold JsMap.set. by rewrite H. Qed.

Lemma JsMap_set_length (m : list (K * V)) (k : K) (v : V) :
  length (JsMap.set same m k v)
  = if JsMap.has same m k then length m else S (length m).
Proof.
  unfold JsMap.set. destruct (JsMap.has same m k).
  - apply length_map.
  - rewrite length_app. cbn. lia.
Qed.

Lemma JsMap_has_get (m : list (K * V)) (k : K) :
  JsMap.has same m k = match JsMap.get same m k with Some _ => true | None => false end.
Proof.
  unfold JsMap.has, JsMap.get. induction m as [|[a w] m IH]; [done|]. cbn.
  destruct (same a k); [done|exact IH].
Qed.

Lemma JsMap_get_set_same (m : list (K * V)) (k : K) (v : V) :
  JsMap.get same (JsMap.set same m k v) k = Some v.
Proof using same_refl.
  unfold JsMap.set, JsMap.get, JsMap.has.
  destruct (existsb _ m) eqn:E.
  - induction m as [|[a w] m IH]; [discriminate|]. cbn in E |- *.
    destruct (same a k) eqn:Ea; cbn; rewrite Ea; [done|]. cbn in E. by apply IH.
  - induction m as [|[a w] m IH]; cbn.
    + by rewrite same_refl.
    + cbn in E. apply orb_false_iff in E as [Ea E]. rewrite Ea. by apply IH.
Qed.

Lemma JsMap_get_set_other (m : list (K * V)) (k k' : K) (v : V) :
  same k k' = false ->
  JsMap.get same (JsMap.set same m k v) k' = JsMap.get same m k'.
Proof using same_join.
  intros Hne. unfold JsMap.set, JsMap.get, JsMap.has.
  destruct (existsb _ m) eqn:E; clear E.
  - induction m as [|[a w] m IH]; [done|]. cbn.
    destruct (same a k) eqn:Ea; cbn.
    + destruct (same a k') eqn:Ea'; [|exact IH].
      by rewrite (same_join a k k' Ea Ea') in Hne.
    + destruct (same a k'); [done|exact IH].
  - induction m as [|[a w] m IH]; cbn.
    + by rewrite Hne.
    + destruct (same a k'); [done|exact IH].
Qed.

End JsMapFacts.

Lemma ltb_true_not_nan (x y : float) :
  (x <? y) = true -> is_nan x = false /\ is_nan y = false.
Proof.
  intros H. rewrite FloatAxioms.ltb_spec in H.
  split; apply F64Facts.not_nan_Prim2SF; intros E; rewrite E in H;
    [discriminate|by destruct (Prim2SF x)].
Qed.

Lemma ltb_true_frank (x y : float) :
  (x <? y) = true -> (F64.frank x < F64.frank y)%Z.
Proof.
  intros H. destruct (ltb_true_not_nan x y H) as [Hx Hy].
  rewrite F64Facts.ltb_frank in H by done. by apply Z.ltb_lt.
Qed.

Lemma same_number_refl (x : float) : JsMap.same_number x x = true.
Proof.
  unfold JsMap.same_number. destruct (is_nan x) eqn:E.
  - by rewrite orb_true_r.
  - rewrite F64Facts.eqb_frank, Z.eqb_refl by done. done.
Qed.

Lemma ltb_not_same_number (x y : float) :
  (x <? y) = true -> JsMap.same_number x y = false.
Proof.
  intros H. destruct (ltb_true_not_nan x y H) as [Hx Hy].
  pose proof (ltb_true_frank x y H).
  unfold JsMap.same_number. rewrite Hx, F64Facts.eqb_frank by done.
  cbn. rewrite orb_false_r. apply Z.eqb_neq. lia.
Qed.

Lemma eqb_join (a k k' : string) :
  String.eqb a k = true -> String.eqb a k' = true -> String.eqb k k' = true.
Proof. rewrite !String.eqb_eq. congruence. Qed.

Section StoreFacts.

Context {Data : Type}.

Lemma StronglySorted_snoc {A} (R : A -> A -> Prop) (l : list A) (x : A) :
  StronglySorted R l -> Forall (fun a => R a x) l -> StronglySorted R (l ++ [x]).
Proof.
  intros Hs Hall. induction Hs as [|a l Hs IH Ha]; cbn.
  - repeat constructor.
  - apply Forall_cons in Hall as [Hax Hall]. constructor; [by apply IH|].
    apply Forall_app. split; [done|by repeat constructor].
Qed.

Lemma below_counter_fresh (m : list (float * Search.t)) (n : float) :
  Forall (fun kv => (fst kv <? n) = true) m ->
  JsMap.has JsMap.same_number m n = false.
Proof.
  intros Hall. unfold JsMap.has. induction Hall as [|kv m Hkv _ IH]; [done|].
  cbn. by rewrite (ltb_not_same_number _ _ Hkv), IH.
Qed.

Lemma createSearch_fresh (now : float) (search : InsertSearch.t)
    (st : MemStorage.t Data) :
  MemStorage.ids_in_order st ->
  MemStorage.searches (snd (MemStorage.createSearch now search st))
  = MemStorage.searches st
    ++ [(MemStorage.nextId st, fst (MemStorage.createSearch now search st))].
Proof.
  intros [_ Hb]. cbn. by apply JsMap_set_fresh, below_counter_fresh.
Qed.

Lemma createSearch_ids_in_order (now : float) (search : InsertSearch.t)
    (st : MemStorage.t Data) :
  MemStorage.ids_in_order st ->
  (MemStorage.nextId st <? MemStorage.nextId st + 1) = true ->
  MemStorage.ids_in_order (snd (MemStorage.createSearch now search st)).
Proof.
  intros Hi Hn. unfold MemStorage.ids_in_order.
  rewrite createSearch_fresh by done. destruct Hi as [Hs Hb]. split.
  - by apply StronglySorted_snoc.
  - cbn [MemStorage.createSearch snd MemStorage.nextId].
    apply Forall_app. split; [|by repeat constructor].
    eapply Forall_impl; [exact Hb|]. intros kv Hkv. cbn beta in Hkv |- *.
    pose proof (ltb_true_frank _ _ Hkv). pose proof (ltb_true_frank _ _ Hn).
    destruct (ltb_true_not_nan _ _ Hkv) as [? _].
    destruct (ltb_true_not_nan _ _ Hn) as [_ ?].
    rewrite F64Facts.ltb_frank by done. apply Z.ltb_lt. lia.
Qed.

Lemma byCreatedAt_ranks (l : list Search.t) :
  Forall (fun s => is_nan (Search.createdAt s) = false) l ->
  ranks_by MemStorage.byCreatedAt MemStorage.created_rank l.
Proof.
  intros Hall a b Ha Hb. unfold after, MemStorage.byCreatedAt, MemStorage.created_rank.
  apply F64Facts.sub_pos_frank; by eapply Forall_forall in Hall.
Qed.

End StoreFacts.

(** X6.  In a store whose ids are in order (each below the counter, as
    in a new store), and whose counter has a successor, [createSearch]
    gives the new search the counter's value as its id and the clock's
    reading as its time, appends it to the searches without replacing
    any, leaves the company profiles alone, and keeps the ids in order:
    the id is one no stored search has. *)
Theorem createSearch_appends {Data : Type} (now : float) (search : InsertSearch.t)
    (st : MemStorage.t Data) :
  MemStorage.ids_in_order st ->
  (MemStorage.nextId st <? MemStorage.nextId st + 1) = true ->
  let s := fst (MemStorage.createSearch now search st) in
  let st' := snd (MemStorage.createSearch now search st) in
  Search.id s = MemStorage.nextId st
  /\ Search.createdAt s = now
  /\ Search.ticker s = InsertSearch.ticker search
  /\ Search.beta s = InsertSearch.beta search
  /\ Search.peers s = InsertSearch.peers search
  /\ MemStorage.searches st' = MemStorage.searches st ++ [(MemStorage.nextId st, s)]
  /\ Forall (fun kv => JsMap.same_number (fst kv) (Search.id s) = false)
            (MemStorage.searches st)
  /\ MemStorage.companyProfiles st' = MemStorage.companyProfiles st
  /\ MemStorage.nextId st' = MemStorage.nextId st + 1
  /\ MemStorage.ids_in_order st'.
Proof.
  intros Hi Hn s st'. repeat (split; [reflexivity|]).
  split; [by apply createSearch_fresh|]. split.
  - destruct Hi as [_ Hb]. eapply Forall_impl; [exact Hb|].
    intros kv Hkv. by apply ltb_not_same_number.
  - repeat (split; [reflexivity|]). by apply createSearch_ids_in_order.
Qed.

Lemma createSearch_appends_witness :
  MemStorage.searches
    (snd (MemStorage.createSearch 1000 Samples.sample_search
            (MemStorage.new (Data := unit))))
  = [(1, fst (MemStorage.createSearch 1000 Samples.sample_search
                (MemStorage.new (Data := unit))))].
Proof.
  apply (createSearch_appends 1000 Samples.sample_search (MemStorage.new (Data := unit))).
  - split; constructor.
  - reflexivity.
Defined.

(** Three searches from a new store get the ids [1], [2] and [3].  At a
    counter of [2^53], which has no successor, two searches get one id and
    the second replaces the first. *)
Example ids_from_new_store :
  map fst (MemStorage.searches Samples.store_of_three) = [1; 2; 3].
Proof. vm_compute. reflexivity. Qed.

Example saturated_counter_overwrites :
  length (MemStorage.searches
            (snd (MemStorage.createSearch 2000 Samples.sample_search
                    (snd (MemStorage.createSearch 1000 Samples.sample_search
                            Samples.saturated_store))))) = 1%nat.
Proof. vm_compute. reflexivity. Qed.

(** X7.  [getRecentSearches], the creation times being numbers: at most
    ten searches, all of them stored; newest first; no stored search left
    out is newer than one returned; all the stored searches when there
    are ten or fewer; and searches of one creation time in the order they
    were stored, the list being the first ten of the stable sort. *)
Theorem getRecentSearches_newest_first {Data : Type} (st : MemStorage.t Data) :
  Forall (fun s => is_nan (Search.createdAt s) = false)
         (JsMap.values (MemStorage.searches st)) ->
  let stored := JsMap.values (MemStorage.searches st) in
  let recent := MemStorage.getRecentSearches st in
  length recent = Nat.min 10 (length stored)
  /\ (forall s, s ∈ recent -> s ∈ stored)
  /\ (forall i j a b, (i < j)%nat -> recent !! i = Some a -> recent !! j = Some b ->
        (Search.createdAt b <=? Search.createdAt a) = true)
  /\ (forall s r, s ∈ stored -> s ∉ recent -> r ∈ recent ->
        (Search.createdAt s <=? Search.createdAt r) = true)
  /\ ((length stored <= 10)%nat -> recent ≡ₚ stored)
  /\ recent = slice0 10 (sort MemStorage.byCreatedAt stored)
  /\ forall k, List.filter (fun s => MemStorage.created_rank s =? k)%Z
                 (sort MemStorage.byCreatedAt stored)
               = List.filter (fun s => MemStorage.created_rank s =? k)%Z stored.
Proof.
  intros Hnn stored recent.
  pose proof (byCreatedAt_ranks stored Hnn) as Hr.
  pose proof (sort_sorted MemStorage.byCreatedAt MemStorage.created_rank stored Hr)
    as Hsorted.
  assert (Hle : forall i j a b, (i < j)%nat ->
            sort MemStorage.byCreatedAt stored !! i = Some a ->
            sort MemStorage.byCreatedAt stored !! j = Some b ->
            (Search.createdAt b <=? Search.createdAt a) = true).
  { intros i j a b Hij Ha Hb.
    pose proof (StronglySorted_lookup _ _ i j a b Hsorted Hij Ha Hb) as Hk.
    cbn in Hk. unfold MemStorage.created_rank in Hk.
    assert (Hna : is_nan (Search.createdAt a) = false).
    { eapply Forall_forall in Hnn; [exact Hnn|].
      eapply sort_elem_of, list_elem_of_lookup_2, Ha. }
    assert (Hnb : is_nan (Search.createdAt b) = false).
    { eapply Forall_forall in Hnn; [exact Hnn|].
      eapply sort_elem_of, list_elem_of_lookup_2, Hb. }
    rewrite F64Facts.leb_frank by done. by apply Z.leb_le. }
  unfold recent, MemStorage.getRecentSearches, slice0. fold stored.
  split; [by rewrite length_take, sort_length|].
  split; [|split; [|split; [|split; [|split]]]].
  - intros s Hs. eapply sort_elem_of, elem_of_sublist; [exact Hs|apply sublist_take].
  - intros i j a b Hij Ha Hb.
    apply lookup_take_Some in Ha as [Ha _]. apply lookup_take_Some in Hb as [Hb _].
    by eapply Hle.
  - intros s r Hs Hout Hin.
    apply (sort_elem_of MemStorage.byCreatedAt), list_elem_of_lookup_1 in Hs as [j Hj].
    apply list_elem_of_lookup_1 in Hin as [i Hi].
    apply lookup_take_Some in Hi as [Hi Hi10].
    assert (10 <= j)%nat as Hj10.
    { destruct (decide (j < 10)%nat) as [Hlt|]; [|lia]. exfalso. apply Hout.
      eapply list_elem_of_lookup_2. apply lookup_take_Some. by split. }
    apply (Hle i j r s); [lia|done|done].
  - intros Hlen. rewrite take_ge by (rewrite sort_length; lia). apply sort_perm.
  - reflexivity.
  - intros k. by apply sort_stable.
Qed.

Lemma getRecentSearches_newest_first_witness :
  map Search.createdAt (MemStorage.getRecentSearches Samples.store_of_three)
  = [3000; 2000; 1000]
  /\ length (MemStorage.getRecentSearches Samples.store_of_three)
     = Nat.min 10 (length (JsMap.values (MemStorage.searches Samples.store_of_three))).
Proof.
  split; [vm_compute; reflexivity|].
  apply (getRecentSearches_newest_first Samples.store_of_three).
  repeat constructor.
Defined.

(** X8.  [upsertCompanyProfile] then [getCompanyProfile]: the profile
    stored under a ticker is the one last written for it, stamped with the
    clock's reading of that write; the other tickers read as before; a
    ticker that was there keeps one entry, a new one adds one; the
    searches and the counter are not touched; and a new store has no
    profile. *)
Theorem upsert_then_get {Data : Type} (now : float)
    (profile : InsertCompanyProfile.t Data) (st : MemStorage.t Data) :
  let p := fst (MemStorage.upsertCompanyProfile now profile st) in
  let st' := snd (MemStorage.upsertCompanyProfile now profile st) in
  p = CompanyProfile.mk (InsertCompanyProfile.ticker profile)
                        (InsertCompanyProfile.data profile) now
  /\ MemStorage.getCompanyProfile (InsertCompanyProfile.ticker profile) st' = Some p
  /\ (forall ticker, ticker <> InsertCompanyProfile.ticker profile ->
        MemStorage.getCompanyProfile ticker st' = MemStorage.getCompanyProfile ticker st)
  /\ length (MemStorage.companyProfiles st')
     = match MemStorage.getCompanyProfile (InsertCompanyProfile.ticker profile) st with
       | Some _ => length (MemStorage.companyProfiles st)
       | None => S (length (MemStorage.companyProfiles st))
       end
  /\ (forall now2 profile2,
        InsertCompanyProfile.ticker profile2 = InsertCompanyProfile.ticker profile ->
        MemStorage.getCompanyProfile (InsertCompanyProfile.ticker profile)
          (snd (MemStorage.upsertCompanyProfile now2 profile2 st'))
        = Some (CompanyProfile.mk (InsertCompanyProfile.ticker profile)
                                  (InsertCompanyProfile.data profile2) now2))
  /\ MemStorage.searches st' = MemStorage.searches st
  /\ MemStorage.nextId st' = MemStorage.nextId st
  /\ forall ticker, MemStorage.getCompanyProfile ticker (MemStorage.new (Data := Data)) = None.
Proof.
  intros p st'. split; [reflexivity|]. split; [|split; [|split; [|split]]].
  - apply JsMap_get_set_same, String.eqb_refl.
  - intros ticker Hne. apply JsMap_get_set_other; [apply eqb_join|].
    apply String.eqb_neq. congruence.
  - cbn [st' MemStorage.upsertCompanyProfile snd MemStorage.companyProfiles].
    rewrite JsMap_set_length, JsMap_has_get. unfold MemStorage.getCompanyProfile.
    by destruct (JsMap.get _ _ _).
  - intros now2 profile2 Ht.
    cbn [MemStorage.upsertCompanyProfile snd MemStorage.getCompanyProfile
         MemStorage.companyProfiles]. rewrite Ht.
    apply JsMap_get_set_same, String.eqb_refl.
  - done.
Qed.

(** A profile written twice under one ticker: one entry, the second
    write's. *)
Example upsert_twice_one_entry :
  let st := snd (MemStorage.upsertCompanyProfile 2000
                   (InsertCompanyProfile.mk "TCS.NS" "IT Services")
                   (snd (MemStorage.upsertCompanyProfile 1000 Samples.sample_profile
                           MemStorage.new))) in
  MemStorage.companyProfiles st
  = [("TCS.NS", CompanyProfile.mk "TCS.NS" "IT Services" 2000)]%string.
Proof. vm_compute. reflexivity. Qed.

Section RouteFacts.

Context {Data : Type} (yf : Provider) (industryList : list Directory.entry).

Lemma calculate_route_response (now : float) (startDate endDate : string)
    (req : Request) (st : MemStorage.t Data) :
  fst (calculate_route yf industryList now startDate endDate req st)
  = handler yf industryList req.
Proof. unfold calculate_route. by destruct (handler yf industryList req). Qed.

Lemma handler_Json_ticker (req : Request) (target : Target.t) (peers : list Peer.t) :
  handler yf industryList req = Json target peers ->
  Target.ticker target = fullTicker_of req.
Proof.
  unfold handler.
  destruct (fetchHistoricalData yf (marketTicker_of _)) as [marketData|]; [|done].
  destruct (fetchHistoricalData yf (fullTicker_of req)) as [stockData|]; [|done].
  destruct (_ || _); [done|].
  destruct (align_prices _ _) as [sPrices mPrices].
  destruct (calculateFinancialMetrics _ _) as [metrics|]; [|done].
  by intros [= <- _].
Qed.

Lemma calculate_route_Json (now : float) (startDate endDate : string)
    (req : Request) (st : MemStorage.t Data) (target : Target.t) (peers : list Peer.t) :
  handler yf industryList req = Json target peers ->
  calculate_route yf industryList now startDate endDate req st
  = (Json target peers,
     snd (MemStorage.createSearch now
            (InsertSearch.mk (fullTicker_of req) (req_exchange req) startDate endDate
                             (Some (Target.beta target)) peers) st)).
Proof. intros H. unfold calculate_route. by rewrite H. Qed.

End RouteFacts.

(** X9.  The route with the store.  The response is the handler's and
    does not depend on the store.  A 404 or a 400 leaves the store as it
    was.  A 200 creates one search, at the clock's reading: its ticker is
    the response's, which is the full ticker, its beta is the response's
    beta, its peers are the response's peers; the company profiles are
    left alone; and in a store whose ids are in order and whose counter
    has a successor the search is added to the stored ones. *)
Theorem calculate_route_records {Data : Type} (yf : Provider)
    (industryList : list Directory.entry) (now : float) (startDate endDate : string)
    (req : Request) (st : MemStorage.t Data) :
  let response := fst (calculate_route yf industryList now startDate endDate req st) in
  let st' := snd (calculate_route yf industryList now startDate endDate req st) in
  response = handler yf industryList req
  /\ (response = Status404 \/ response = Status400 -> st' = st)
  /\ MemStorage.companyProfiles st' = MemStorage.companyProfiles st
  /\ forall target peers,
       response = Json target peers ->
       let search :=
         InsertSearch.mk (Target.ticker target) (req_exchange req) startDate endDate
                         (Some (Target.beta target)) peers in
       st' = snd (MemStorage.createSearch now search st)
       /\ Target.ticker target = fullTicker_of req
       /\ (MemStorage.ids_in_order st ->
           (MemStorage.nextId st <? MemStorage.nextId st + 1) = true ->
           JsMap.values (MemStorage.searches st')
           = JsMap.values (MemStorage.searches st)
             ++ [fst (MemStorage.createSearch now search st)]).
Proof.
  intros response st'.
  assert (Hr : response = handler yf industryList req)
    by apply calculate_route_response.
  split; [exact Hr|]. split; [|split].
  - unfold st', calculate_route. rewrite <- Hr. by intros [->| ->].
  - unfold st', calculate_route. rewrite <- Hr. by destruct response.
  - intros target peers Heq. cbv zeta. rewrite Heq in Hr. symmetry in Hr.
    unfold st'. rewrite (calculate_route_Json _ _ _ _ _ _ _ _ _ Hr). cbn [snd].
    apply handler_Json_ticker in Hr. rewrite Hr.
    split; [reflexivity|]. split; [reflexivity|].
    intros Hi Hn. rewrite createSearch_fresh by done.
    unfold JsMap.values. by rewrite map_app.
Qed.

(* ================================================================== *)
(** * More of the handler                                              *)
(* ================================================================== *)

Section HandlerFacts.

Lemma string_length_append (s t : string) :
  String.length (String.append s t) = (String.length s + String.length t)%nat.
Proof.
  induction s as [|c s IH]; [reflexivity|].
  rewrite append_cons. cbn [String.length]. by rewrite IH.
Qed.

Lemma substring_append_skip (s t : string) (k : nat) :
  substring (String.length s) k (String.append s t) = substring 0 k t.
Proof.
  induction s as [|c s IH]; [reflexivity|].
  rewrite append_cons. cbn [String.length substring]. exact IH.
Qed.

Lemma substring_all (t : string) : substring 0 (String.length t) t = t.
Proof.
  induction t as [|c t IH]; [reflexivity|].
  cbn [String.length substring]. by rewrite IH.
Qed.

Lemma endsWith_append (s suffix : string) :
  endsWith (String.append s suffix) suffix = true.
Proof.
  unfold endsWith. rewrite string_length_append.
  replace (String.length s + String.length suffix - String.length suffix)%nat
    with (String.length s) by lia.
  rewrite substring_append_skip, substring_all, String.eqb_refl, andb_true_r.
  apply Nat.leb_le. lia.
Qed.

Lemma omap_Forall_present {A} (f : A -> option float) (l : list A) :
  Forall (fun r => present (f r) = true) l ->
  Forall (fun x => truthy x = true) (omap f l).
Proof.
  induction 1 as [|r l Hr _ IH]; [constructor|]. cbn.
  destruct (f r) as [x|]; [|discriminate]. cbn. by constructor.
Qed.

(** The two arrays of the alignment: of one length, no longer than the
    series walked, and every price a number that counts. *)
Lemma align_prices_facts (dateMap : gmap string float) (rows : list HistoricalRow) :
  length (fst (align_prices dateMap rows)) = length (snd (align_prices dateMap rows))
  /\ (length (fst (align_prices dateMap rows)) <= length rows)%nat
  /\ Forall (fun x => truthy x = true) (fst (align_prices dateMap rows))
  /\ Forall (fun x => truthy x = true) (snd (align_prices dateMap rows)).
Proof.
  unfold align_prices. rewrite align_prices_acc. cbn [fst snd app].
  set (kept := List.filter _ rows).
  assert (Hk : Forall (fun r => present (dateMap !! date r) = true
                                /\ present (close r) = true) kept).
  { apply Forall_forall. intros r Hr.
    apply list_elem_of_In, filter_In in Hr as [_ Hr].
    by apply andb_true_iff in Hr. }
  assert (Hc : Forall (fun r => present (close r) = true) kept)
    by (eapply Forall_impl; [exact Hk|]; by intros r [_ ?]).
  assert (Hm : Forall (fun r => present (dateMap !! date r) = true) kept)
    by (eapply Forall_impl; [exact Hk|]; by intros r [? _]).
  split; [|split; [|split]].
  - by rewrite (omap_length_present close), (omap_length_present _ _ Hm).
  - rewrite (omap_length_present close) by done. apply filter_length_le.
  - by apply omap_Forall_present.
  - by apply (omap_Forall_present (fun r => dateMap !! date r)).
Qed.

Lemma calculateFinancialMetrics_short (s m : list float) :
  (length s < 3)%nat -> calculateFinancialMetrics s m = None.
Proof.
  intros Hlen. destruct (calculateFinancialMetrics s m) as [r|] eqn:E; [|done].
  apply calculateFinancialMetrics_Some in E as (_ & H2 & _).
  rewrite length_simple_returns in H2. lia.
Qed.

Lemma sort_nil {A} (cmp : A -> A -> float) : sort cmp [] = [].
Proof. reflexivity. Qed.

End HandlerFacts.

(** X10.  The status of the response.  It is 404 exactly when the history
    of the benchmark or of the target cannot be fetched or is empty; 400
    exactly when both are there and the aligned prices give no metrics; and
    a 200 carries the metrics of the aligned prices under the full ticker.
    A target history of fewer than three rows never gives a 200. *)
Theorem handler_status (yf : Provider) (industryList : list Directory.entry)
    (req : Request) :
  let marketData := fetchHistoricalData yf (marketTicker_of (req_exchange req)) in
  let stockData := fetchHistoricalData yf (fullTicker_of req) in
  (handler yf industryList req = Status404
   <-> marketData = None \/ marketData = Some [] \/ stockData = None
       \/ stockData = Some [])
  /\ (handler yf industryList req = Status400
      <-> exists m s, marketData = Some m /\ stockData = Some s
            /\ m <> [] /\ s <> []
            /\ calculateFinancialMetrics (fst (align s m)) (snd (align s m)) = None)
  /\ (forall target peers,
        handler yf industryList req = Json target peers ->
        exists m s metrics,
          marketData = Some m /\ stockData = Some s
          /\ calculateFinancialMetrics (fst (align s m)) (snd (align s m))
             = Some metrics
          /\ Target.ticker target = fullTicker_of req
          /\ Target.beta target = beta metrics
          /\ Target.alpha target = alpha metrics
          /\ Target.correlation target = correlation metrics
          /\ Target.rSquared target = rSquared metrics
          /\ Target.volatility target = volatility metrics
          /\ (3 <= length s)%nat)
  /\ (forall s, stockData = Some s -> (length s < 3)%nat ->
        handler yf industryList req = Status404
        \/ handler yf industryList req = Status400).
Proof.
  intros marketData stockData.
  assert (Hshort : forall m s, (length s < 3)%nat ->
            calculateFinancialMetrics (fst (align s m)) (snd (align s m)) = None).
  { intros m s Hs. apply calculateFinancialMetrics_short. unfold align.
    destruct (align_prices_facts (build_dateMap m) s) as (_ & Hle & _). lia. }
  unfold handler. fold marketData stockData.
  destruct marketData as [m|] eqn:Em; destruct stockData as [s|] eqn:Es.
  2-4: split; [split; [auto|done]|];
       split; [split; [done|by intros (? & ? & ? & ? & _)]|];
       split; [done|by left].
  destruct m as [|m0 m]; [|destruct s as [|s0 s]].
  1-2: cbn [length Nat.eqb orb];
       split; [split; [auto|done]|];
       split; [split; [done|by intros (? & ? & [= <-] & [= <-] & ? & ? & _)]|];
       split; [done|by left].
  cbn [length Nat.eqb orb].
  fold (align (s0 :: s) (m0 :: m)).
  destruct (align (s0 :: s) (m0 :: m)) as [sPrices mPrices] eqn:Ea.
  pose proof (Hshort (m0 :: m) (s0 :: s)) as Hshort'. rewrite Ea in Hshort'.
  cbn [fst snd] in Hshort'.
  destruct (calculateFinancialMetrics sPrices mPrices) as [metrics|] eqn:Ec.
  - split; [split; [done|by intros [|[|[|]]]]|].
    split; [split; [done|]|].
    { intros (m' & s' & [= <-] & [= <-] & _ & _ & H).
      rewrite Ea in H. cbn [fst snd] in H. congruence. }
    split.
    + intros target peers [= <- <-]. exists (m0 :: m), (s0 :: s), metrics.
      rewrite Ea. cbn [fst snd]. repeat (split; [done|]).
      destruct (decide (length (s0 :: s) < 3)%nat) as [Hlt|]; [|lia].
      specialize (Hshort' Hlt). congruence.
    + intros s' [= <-] Hlt. specialize (Hshort' Hlt). congruence.
  - split; [split; [done|by intros [|[|[|]]]]|].
    split; [split; [|done]|].
    { intros _. exists (m0 :: m), (s0 :: s). rewrite Ea. by cbn [fst snd]. }
    split; [done|by right].
Qed.

(** Three providers: histories that cannot be fetched, histories of two
    rows, and the histories of Scenario A. *)
Example status_samples :
  handler twice_provider [] sample_request = Status404
  /\ handler history_only_provider [] sample_request = Status400
  /\ response_peers Samples.scenario_response <> [].
Proof. repeat split; vm_compute; discriminate. Qed.

(** X11.  The full ticker always ends with the suffix of the exchange;
    a ticker that has the suffix is taken as it is, so the full ticker of
    a full ticker is itself. *)
Theorem fullTicker_has_suffix (req : Request) :
  let suffix := suffix_of (req_exchange req) in
  endsWith (fullTicker_of req) suffix = true
  /\ fullTicker_of (mkRequest (fullTicker_of req) (req_exchange req) (req_period req))
     = fullTicker_of req
  /\ (endsWith (req_ticker req) suffix = true -> fullTicker_of req = req_ticker req)
  /\ (endsWith (req_ticker req) suffix = false ->
      fullTicker_of req = String.append (req_ticker req) suffix).
Proof.
  intros suffix.
  assert (Hends : endsWith (fullTicker_of req) suffix = true).
  { unfold fullTicker_of. fold suffix.
    destruct (endsWith (req_ticker req) suffix) eqn:E; [exact E|].
    apply endsWith_append. }
  split; [exact Hends|]. split; [|split].
  - unfold fullTicker_of at 1. cbn [req_ticker req_exchange]. fold suffix.
    by rewrite Hends.
  - intros H. unfold fullTicker_of. fold suffix. by rewrite H.
  - intros H. unfold fullTicker_of. fold suffix. by rewrite H.
Qed.

(** The full tickers of [TCS] and of [TCS.NS] on the NSE are one; a
    ticker with the suffix of the other exchange gets a second suffix. *)
Example fullTicker_samples :
  fullTicker_of (mkRequest "TCS" "NSE" None) = "TCS.NS"%string
  /\ fullTicker_of (mkRequest "TCS.NS" "NSE" None) = "TCS.NS"%string
  /\ fullTicker_of (mkRequest "TCS.NS" "BSE" None) = "TCS.NS.BO"%string.
Proof. repeat split. Qed.

(** X12.  The prices the alignment hands to the regression, for the
    target and for every peer: as many stock prices as market prices, no
    more than the rows walked, and every one a number other than zero and
    [NaN]; so no return is computed over a zero or a missing price. *)
Theorem aligned_prices_count (dateMap : gmap string float)
    (rows : list HistoricalRow) :
  let sPrices := fst (align_prices dateMap rows) in
  let mPrices := snd (align_prices dateMap rows) in
  length sPrices = length mPrices
  /\ (length sPrices <= length rows)%nat
  /\ Forall (fun x => truthy x = true) sPrices
  /\ Forall (fun x => truthy x = true) mPrices
  /\ (forall i, (i < length sPrices)%nat ->
        is_zero (idx sPrices i) = false /\ is_nan (idx sPrices i) = false
        /\ is_zero (idx mPrices i) = false /\ is_nan (idx mPrices i) = false).
Proof.
  intros sPrices mPrices.
  destruct (align_prices_facts dateMap rows) as (Hlen & Hle & Hs & Hm).
  fold sPrices mPrices in Hlen, Hle, Hs, Hm.
  repeat (split; [done|]).
  intros i Hi.
  assert (Hnth : forall l, Forall (fun x => truthy x = true) l ->
            (i < length l)%nat ->
            is_zero (idx l i) = false /\ is_nan (idx l i) = false).
  { intros l Hl Hil. unfold idx.
    assert (Ht : truthy (nth i l nan) = true).
    { eapply Forall_forall in Hl; [exact Hl|].
      apply list_elem_of_In, nth_In. exact Hil. }
    unfold truthy in Ht. apply andb_true_iff in Ht as [Hz Hn].
    apply negb_true_iff in Hz. apply negb_true_iff in Hn. done. }
  destruct (Hnth sPrices Hs Hi) as [? ?].
  destruct (Hnth mPrices Hm) as [? ?]; [lia|]. done.
Qed.

(** X13.  A failing recommender costs the peers and nothing else: the
    response has the status and the target it has when the recommender
    answers, and no peer. *)
Theorem recommender_failure_isolated (yf : Provider)
    (industryList : list Directory.entry) (req : Request) :
  handler (fail_recommendations yf) industryList req
  = without_peers (handler yf industryList req).
Proof.
  unfold handler, fetchHistoricalData. cbn [fail_recommendations Yf.historical
    Yf.quote Yf.quoteSummary].
  destruct (catch_null (Yf.historical yf (marketTicker_of _))) as [m|]; [|done].
  destruct (catch_null (Yf.historical yf (fullTicker_of req))) as [s|]; [|done].
  destruct (_ || _); [done|].
  destruct (align_prices _ _) as [sPrices mPrices].
  destruct (calculateFinancialMetrics _ _) as [metrics|]; [|done].
  cbn [without_peers]. f_equal.
  assert (Hp : forall fx, getPeers (fail_recommendations yf) industryList
                            (fullTicker_of req) fx = []).
  { intros fx. unfold getPeers. cbn [fail_recommendations Yf.quoteSummary
      Yf.recommendationsBySymbol]. by destruct (_ ≫= QuoteSummary.assetProfile). }
  rewrite Hp. reflexivity.
Qed.

(* ================================================================== *)
(** * More of [getPeers]                                               *)
(* ================================================================== *)

Section PeerSoundness.

Context (yf : Provider) (industryList : list Directory.entry).

Lemma fold_set_add_elem_of (arr acc : list string) (x : string) :
  x ∈ fold_left set_add arr acc -> x ∈ acc \/ x ∈ arr.
Proof.
  revert acc; induction arr as [|s arr IH]; intros acc H; [by left|].
  cbn [fold_left] in H. apply IH in H as [H|H].
  - unfold set_add in H. case_bool_decide; [by left|].
    apply elem_of_app in H as [H|H]; [by left|].
    apply list_elem_of_singleton in H as ->. right. by left.
  - right. by right.
Qed.

Lemma Array_from_Set_elem_of (arr : list string) (x : string) :
  x ∈ Array_from_Set arr -> x ∈ arr.
Proof.
  intros H. apply fold_set_add_elem_of in H as [H|H]; [|done].
  by apply elem_of_nil in H.
Qed.

Lemma gather_elem_of (recommendations : option (list string))
    (excelIndustry : option string) (tickerBase x : string) :
  x ∈ gather industryList recommendations excelIndustry tickerBase ->
  x ∈ default [] recommendations
  \/ (str_truthy excelIndustry = true
      /\ x ∈ industryPeers industryList (default "" excelIndustry) tickerBase).
Proof.
  unfold gather. destruct (str_truthy excelIndustry); [|by left].
  intros H. apply Array_from_Set_elem_of, elem_of_app in H as [H|H]; [by left|].
  by right.
Qed.

(** What lets a candidate through the verification. *)
Lemma verifyPeer_Some_industry (ticker targetIndustry : string)
    (excelIndustry : option string) (exchangeRate : float)
    (s : option QuoteSummary.t) (symbol : string) (p : PeerCandidate.t) :
  verifyPeer yf industryList ticker targetIndustry excelIndustry exchangeRate
             s symbol = Some p ->
  exists profile,
    s ≫= QuoteSummary.assetProfile = Some profile
    /\ (AssetProfile.industry profile = Some targetIndustry
        \/ (str_truthy excelIndustry = true
            /\ directory_industry industryList (before_dot symbol) = excelIndustry))
    /\ PeerCandidate.sector p
       = String.append (str_or (AssetProfile.sector profile) "Unknown")
           (String.append " > " (str_or (AssetProfile.industry profile) "Unknown")).
Proof.
  unfold verifyPeer.
  destruct (s ≫= QuoteSummary.assetProfile) as [profile|]; [|discriminate].
  destruct (String.eqb symbol ticker); [discriminate|].
  match goal with |- context [negb ?b] => destruct b eqn:Hsame end; [|discriminate].
  cbn [negb]. intros [= <-]. exists profile. split; [done|]. split; [|done].
  apply orb_true_iff in Hsame as [H|H].
  - left. destruct (AssetProfile.industry profile) as [i|]; [|discriminate].
    by apply String.eqb_eq in H as ->.
  - right. apply andb_true_iff in H as [H1 H2]. by apply bool_decide_eq_true in H2.
Qed.

End PeerSoundness.

(** X14.  Every peer [getPeers] returns was verified: the target has a
    profile and the recommender answered; the peer's symbol is one of the
    twenty first candidates, each of which the recommender named or the
    directory lists, with [.NS], in the target's industry; it is not the
    target; its own summary has a profile; its industry there is the
    target's, or the directory gives the peer's symbol the target's
    directory industry; and its sector string is built from that
    profile. *)
Theorem getPeers_verified (yf : Provider) (industryList : list Directory.entry)
    (ticker : string) (exchangeRate : float) (p : PeerCandidate.t) :
  p ∈ getPeers yf industryList ticker exchangeRate ->
  let excelIndustry := directory_industry industryList (before_dot ticker) in
  exists targetProfile recommendations profile,
    catch_null (Yf.quoteSummary yf ticker [ModAssetProfile; ModSummaryDetail])
      ≫= QuoteSummary.assetProfile = Some targetProfile
    /\ Yf.recommendationsBySymbol yf ticker = Resolves recommendations
    /\ PeerCandidate.slug p
       ∈ slice0 20 (gather industryList recommendations excelIndustry
                           (before_dot ticker))
    /\ (PeerCandidate.slug p ∈ default [] recommendations
        \/ (str_truthy excelIndustry = true
            /\ PeerCandidate.slug p
               ∈ industryPeers industryList (default "" excelIndustry)
                               (before_dot ticker)))
    /\ PeerCandidate.slug p <> ticker
    /\ catch_null (Yf.quoteSummary yf (PeerCandidate.slug p)
                     [ModAssetProfile; ModSummaryDetail; ModFinancialData])
         ≫= QuoteSummary.assetProfile = Some profile
    /\ (AssetProfile.industry profile
        = Some (str_or (AssetProfile.industry targetProfile) "")
        \/ (str_truthy excelIndustry = true
            /\ directory_industry industryList (before_dot (PeerCandidate.slug p))
               = excelIndustry))
    /\ PeerCandidate.sector p
       = String.append (str_or (AssetProfile.sector profile) "Unknown")
           (String.append " > " (str_or (AssetProfile.industry profile) "Unknown")).
Proof.
  intros Hp excelIndustry. unfold getPeers in Hp. fold excelIndustry in Hp.
  destruct (_ ≫= QuoteSummary.assetProfile) as [targetProfile|] eqn:Et;
    [|by apply elem_of_nil in Hp].
  destruct (Yf.recommendationsBySymbol yf ticker) as [|recommendations] eqn:Er;
    [by apply elem_of_nil in Hp|].
  rewrite verifiedPeers_omap in Hp. unfold slice0 at 1 in Hp.
  pose proof (elem_of_sublist _ _ _ Hp (sublist_take _ _)) as Hp'.
  apply sort_elem_of, list_elem_of_omap in Hp' as (symbol & Hsym & Hv).
  pose proof (verify_symbol_Some _ _ _ _ _ _ _ _ Hv) as (Hslug & Hne & _).
  unfold verify_symbol in Hv.
  apply verifyPeer_Some_industry in Hv as (profile & Hprof & Hind & Hsec).
  subst symbol. exists targetProfile, recommendations, profile.
  split; [done|]. split; [done|]. split; [done|]. split.
  { unfold slice0 in Hsym.
    apply (gather_elem_of industryList recommendations excelIndustry).
    eapply elem_of_sublist; [exact Hsym|apply sublist_take]. }
  done.
Qed.

Lemma getPeers_verified_witness :
  exists targetProfile recommendations profile,
    catch_null (Yf.quoteSummary twice_provider "TGT.NS" [ModAssetProfile; ModSummaryDetail])
      ≫= QuoteSummary.assetProfile = Some targetProfile
    /\ Yf.recommendationsBySymbol twice_provider "TGT.NS" = Resolves recommendations
    /\ "AAA.NS"%string
       ∈ slice0 20 (gather [] recommendations (directory_industry [] (before_dot "TGT.NS"))
                           (before_dot "TGT.NS"))
    /\ ("AAA.NS"%string ∈ default [] recommendations
        \/ (str_truthy (directory_industry [] (before_dot "TGT.NS")) = true
            /\ "AAA.NS"%string
               ∈ industryPeers [] (default "" (directory_industry [] (before_dot "TGT.NS")))
                               (before_dot "TGT.NS")))
    /\ "AAA.NS"%string <> "TGT.NS"%string
    /\ catch_null (Yf.quoteSummary twice_provider "AAA.NS"
                     [ModAssetProfile; ModSummaryDetail; ModFinancialData])
         ≫= QuoteSummary.assetProfile = Some profile
    /\ (AssetProfile.industry profile
        = Some (str_or (AssetProfile.industry targetProfile) "")
        \/ (str_truthy (directory_industry [] (before_dot "TGT.NS")) = true
            /\ directory_industry [] (before_dot "AAA.NS")
               = directory_industry [] (before_dot "TGT.NS")))
    /\ "Technology > Software"%string
       = String.append (str_or (AssetProfile.sector profile) "Unknown")
           (String.append " > " (str_or (AssetProfile.industry profile) "Unknown")).
Proof.
  apply (getPeers_verified twice_provider [] "TGT.NS" 83
           (PeerCandidate.mk "AAA.NS" "Technology > Software" 100)).
  apply list_elem_of_In. vm_compute. left. reflexivity.
Defined.

(* ================================================================== *)
(** * Properties of the results view                                   *)
(* ================================================================== *)

Section ViewFacts.

Lemma str_or_nonempty (s : option string) (d : string) :
  d <> EmptyString -> str_or s d <> EmptyString.
Proof.
  intros Hd. unfold str_or. destruct s as [v|]; [|done].
  by destruct (String.eqb_spec v "").
Qed.

Lemma Array_includes_elem_of (arr : list string) (x : string) :
  Array_includes arr x = true <-> x ∈ arr.
Proof.
  unfold Array_includes. rewrite existsb_exists. split.
  - intros (y & Hin & Heq). apply String.eqb_eq in Heq as ->.
    by apply list_elem_of_In.
  - intros Hin. exists x. split; [by apply list_elem_of_In|apply String.eqb_refl].
Qed.

Lemma Array_includes_false (arr : list string) (x : string) :
  Array_includes arr x = false <-> x ∉ arr.
Proof.
  rewrite <- Array_includes_elem_of. by destruct (Array_includes arr x).
Qed.

Lemma elem_of_filter_ne (prev : list string) (id m : string) :
  m ∈ List.filter (fun m => negb (String.eqb m id)) prev <-> m ∈ prev /\ m <> id.
Proof.
  rewrite !list_elem_of_In, filter_In, negb_true_iff, String.eqb_neq. tauto.
Qed.

Lemma filter_ne_id (prev : list string) (id : string) :
  id ∉ prev -> List.filter (fun m => negb (String.eqb m id)) prev = prev.
Proof.
  intros Hid. induction prev as [|m prev IH]; [done|]. cbn.
  apply not_elem_of_cons in Hid as [Hne Hid].
  destruct (String.eqb_spec m id) as [->|_]; [done|]. cbn. by rewrite IH.
Qed.

Lemma elem_of_toggleMetric (id m : string) (prev : list string) :
  m ∈ Results.toggleMetric id prev
  <-> (m <> id /\ m ∈ prev) \/ (m = id /\ id ∉ prev).
Proof.
  unfold Results.toggleMetric. destruct (Array_includes prev id) eqn:E.
  - apply Array_includes_elem_of in E. rewrite elem_of_filter_ne. tauto.
  - apply Array_includes_false in E. rewrite elem_of_app, list_elem_of_singleton.
    split.
    + intros [H| ->]; [|by right]. left. split; [|done]. by intros ->.
    + intros [[_ ?]|[-> _]]; [by left|by right].
Qed.

Lemma Array_includes_ext (a b : list string) (x : string) :
  (x ∈ a <-> x ∈ b) -> Array_includes a x = Array_includes b x.
Proof.
  intros H. destruct (Array_includes b x) eqn:E.
  - by apply Array_includes_elem_of, H, Array_includes_elem_of.
  - apply Array_includes_false. rewrite H. by apply Array_includes_false.
Qed.

Lemma active_ext (a b : list string) :
  (forall m, m ∈ a <-> m ∈ b) -> Results.active a = Results.active b.
Proof.
  intros H. unfold Results.active. apply List.filter_ext.
  intros m. by apply Array_includes_ext.
Qed.

End ViewFacts.

(** X15.  The industry the view shows for a peer is the one the server
    put in the peer's sector string: when the sector's name (or
    [Unknown]) holds no [>] and the industry's name (or [Unknown]) does
    not hold the separator, splitting the string at the separator gives
    the industry back, in the table, in the CSV cell (never [N/A]), and as
    the heading read off the first peer. *)
Theorem sector_industry_round_trip (yf : Provider)
    (industryList : list Directory.entry) (ticker targetIndustry : string)
    (excelIndustry : option string) (exchangeRate : float)
    (s : option QuoteSummary.t) (symbol : string) (p : PeerCandidate.t)
    (profile : AssetProfile.t) :
  verifyPeer yf industryList ticker targetIndustry excelIndustry exchangeRate
             s symbol = Some p ->
  s ≫= QuoteSummary.assetProfile = Some profile ->
  includes (str_or (AssetProfile.sector profile) "Unknown") ">" = false ->
  includes (str_or (AssetProfile.industry profile) "Unknown") " > " = false ->
  let industry := str_or (AssetProfile.industry profile) "Unknown" in
  Results.sector_industry (PeerCandidate.sector p) = Some industry
  /\ Results.csv_industry (PeerCandidate.sector p) = industry
  /\ (forall pMet pQuote pFin fx rest,
        let peer := peerData p pMet pQuote pFin fx in
        Results.sector_industry (Peer.sector peer) = Some industry
        /\ Results.targetIndustry (peer :: rest) = Some industry).
Proof.
  intros Hv Hprof Hsec Hind industry.
  apply verifyPeer_Some_industry in Hv as (profile' & Hprof' & _ & Hsector).
  assert (profile' = profile) as -> by congruence.
  assert (Hdec : Results.sector_industry (PeerCandidate.sector p) = Some industry).
  { unfold Results.sector_industry. rewrite Hsector, split_arrow_app by done.
    by rewrite (split_none " > " _ Hind). }
  split; [exact Hdec|]. split.
  - unfold Results.csv_industry. rewrite Hdec. unfold str_or at 1.
    destruct (String.eqb_spec industry "") as [He|]; [|done].
    by apply str_or_nonempty in He.
  - intros pMet pQuote pFin fx rest peer. split; exact Hdec.
Qed.

Lemma sector_industry_round_trip_witness :
  Results.sector_industry "Technology > Software" = Some "Software"%string
  /\ Results.csv_industry "Technology > Software" = "Software"%string.
Proof.
  pose proof (sector_industry_round_trip twice_provider [] "TGT.NS" "Software" None 83
                (Some software_summary) "AAA.NS"
                (PeerCandidate.mk "AAA.NS" "Technology > Software" 100)
                (AssetProfile.mk (Some "Software"%string) (Some "Technology"%string))
                eq_refl eq_refl eq_refl eq_refl) as (H1 & H2 & _).
  exact (conj H1 H2).
Defined.

(** A sector name that holds the separator: the view shows a part of the
    sector's name for the industry. *)
Example sector_with_separator :
  Results.sector_industry (String.append "Media > Print" (String.append " > " "Publishing"))
  = Some "Print"%string.
Proof. vm_compute. reflexivity. Qed.

(** X16.  [toggleMetric] flips one metric and leaves the others: after
    it the metric is visible exactly when it was not, and every other
    metric is visible exactly when it was; a list without repeats stays
    so.  The columns shown are entries of [METRICS_CONFIG] in its order,
    whatever the order of the toggles, and depend only on which metrics
    are visible; toggling a metric twice gives the columns back, and gives
    the list itself back when the metric was hidden. *)
Theorem toggleMetric_flips (id : string) (prev : list string) :
  Array_includes (Results.toggleMetric id prev) id = negb (Array_includes prev id)
  /\ (forall m, m <> id ->
        Array_includes (Results.toggleMetric id prev) m = Array_includes prev m)
  /\ (NoDup prev -> NoDup (Results.toggleMetric id prev))
  /\ sublist (Results.active prev) Results.METRICS_CONFIG
  /\ (forall prev', (forall m, m ∈ prev <-> m ∈ prev') ->
        Results.active prev = Results.active prev')
  /\ Results.active (Results.toggleMetric id (Results.toggleMetric id prev))
     = Results.active prev
  /\ (Array_includes prev id = false ->
      Results.toggleMetric id (Results.toggleMetric id prev) = prev).
Proof.
  split; [|split; [|split; [|split; [|split; [|split]]]]].
  - destruct (Array_includes prev id) eqn:E; cbn [negb].
    + apply Array_includes_false. rewrite elem_of_toggleMetric.
      apply Array_includes_elem_of in E. tauto.
    + apply Array_includes_elem_of, elem_of_toggleMetric.
      apply Array_includes_false in E. tauto.
  - intros m Hne. apply Array_includes_ext. rewrite elem_of_toggleMetric. tauto.
  - intros Hnd. unfold Results.toggleMetric.
    destruct (Array_includes prev id) eqn:E.
    + eapply sublist_NoDup; [exact Hnd|apply filter_sublist].
    + apply Array_includes_false in E. apply NoDup_app.
      split; [done|]. split; [|apply NoDup_singleton].
      intros x Hx Hs. by apply list_elem_of_singleton in Hs as ->.
  - apply filter_sublist.
  - apply active_ext.
  - apply active_ext. intros m. rewrite !elem_of_toggleMetric.
    destruct (decide (m = id)) as [->|Hne]; [|tauto].
    destruct (decide (id ∈ prev)); tauto.
  - intros E. apply Array_includes_false in E.
    unfold Results.toggleMetric at 2.
    rewrite (proj2 (Array_includes_false prev id) E).
    unfold Results.toggleMetric.
    assert (Hin : Array_includes (prev ++ [id]) id = true).
    { apply Array_includes_elem_of, elem_of_app. right.
      by apply list_elem_of_singleton. }
    rewrite Hin, List.filter_app, filter_ne_id by done.
    cbn. by rewrite String.eqb_refl, app_nil_r.
Qed.

(** The first view: six columns; with [volatility] toggled off and
    [peRatio] off and on again, five, in the order of the table. *)
Example columns_after_toggles :
  map Results.id (Results.active Results.initial_visibleMetrics)
  = ["marketCap"; "revenue"; "enterpriseValue"; "evRevenueMultiple"; "peRatio";
     "volatility"]%string
  /\ map Results.id
       (Results.active
          (Results.toggleMetric "peRatio"
             (Results.toggleMetric "peRatio"
                (Results.toggleMetric "volatility" Results.initial_visibleMetrics))))
     = ["marketCap"; "revenue"; "enterpriseValue"; "evRevenueMultiple";
        "peRatio"]%string.
Proof. split; vm_compute; reflexivity. Qed.

Section StatsFacts.

Lemma ascending_ranks (l : list float) :
  Forall (fun b => is_nan b = false) l ->
  ranks_by Results.ascending (fun b => - F64.frank b)%Z l.
Proof.
  intros Hall a b Ha Hb. unfold after, Results.ascending.
  rewrite F64Facts.sub_pos_frank by (by eapply Forall_forall in Hall).
  apply eq_iff_eq_true. rewrite !Z.ltb_lt. lia.
Qed.

Lemma sortedBetas_length (peers : list Peer.t) :
  length (Results.sortedBetas peers) = length (Results.validBetas peers).
Proof. apply sort_length. Qed.

Lemma sortedBetas_ascending (peers : list Peer.t) (i j : nat) (a b : float) :
  Forall (fun b => is_nan b = false) (Results.validBetas peers) ->
  (i < j)%nat ->
  Results.sortedBetas peers !! i = Some a ->
  Results.sortedBetas peers !! j = Some b ->
  (a <=? b) = true.
Proof.
  intros Hnn Hij Ha Hb.
  pose proof (sort_sorted _ _ _ (ascending_ranks _ Hnn)) as Hs.
  pose proof (StronglySorted_lookup _ _ i j a b Hs Hij Ha Hb) as Hk. cbn in Hk.
  assert (Hna : is_nan a = false).
  { eapply Forall_forall in Hnn; [exact Hnn|].
    eapply sort_elem_of, list_elem_of_lookup_2, Ha. }
  assert (Hnb : is_nan b = false).
  { eapply Forall_forall in Hnn; [exact Hnn|].
    eapply sort_elem_of, list_elem_of_lookup_2, Hb. }
  rewrite F64Facts.leb_frank by done. apply Z.leb_le. lia.
Qed.

Lemma idx_lookup (l : list float) (i : nat) (x : float) :
  l !! i = Some x -> idx l i = x.
Proof. intros H. unfold idx. by rewrite nth_lookup, H. Qed.

End StatsFacts.

(** X17.  The two benchmark figures of the view.  The average and the
    median are absent exactly when no peer has a beta; the peers without
    one do not count.  The betas being numbers, the sorted betas are the
    betas in ascending order; for an odd count the median is their middle
    element, one of the betas; for an even count it is half the sum of
    the two middle elements. *)
Theorem peer_statistics (peers : list Peer.t) :
  let betas := Results.validBetas peers in
  let sorted := Results.sortedBetas peers in
  let n := length betas in
  (Results.avgBeta peers = None <-> betas = [])
  /\ (Results.medianBeta peers = None <-> betas = [])
  /\ (betas <> [] ->
      Results.avgBeta peers = Some (reduce_add betas / of_nat n))
  /\ (forall b, b ∈ betas <-> exists p, p ∈ peers /\ Peer.beta p = Some b)
  /\ (Forall (fun b => is_nan b = false) betas ->
      sorted ≡ₚ betas
      /\ (forall i j a b, (i < j)%nat -> sorted !! i = Some a -> sorted !! j = Some b ->
            (a <=? b) = true)
      /\ ((n mod 2 = 1)%nat ->
          exists x, Results.medianBeta peers = Some x
                    /\ sorted !! (n / 2)%nat = Some x /\ x ∈ betas)
      /\ ((n mod 2 = 0)%nat -> betas <> [] ->
          exists lo hi, sorted !! (n / 2 - 1)%nat = Some lo
                        /\ sorted !! (n / 2)%nat = Some hi
                        /\ (lo <=? hi) = true
                        /\ Results.medianBeta peers = Some ((lo + hi) / 2))).
Proof.
  intros betas sorted n.
  assert (Hlen : length sorted = n) by apply sortedBetas_length.
  assert (Hpos : betas <> [] -> (0 < n)%nat).
  { intros Hne. unfold n. destruct betas; [done|cbn; lia]. }
  split; [|split; [|split; [|split]]].
  - unfold Results.avgBeta. fold betas. destruct betas; [done|]. by cbn.
  - unfold Results.medianBeta, Results.mid. fold sorted. rewrite Hlen.
    destruct (decide (betas = [])) as [He|Hne].
    + unfold n. rewrite He. done.
    + specialize (Hpos Hne). split; [|done].
      destruct (n =? 0)%nat eqn:E0; [apply Nat.eqb_eq in E0; lia|].
      destruct (negb (n mod 2 =? 0)%nat); [|discriminate].
      intros Hnone. apply lookup_ge_None in Hnone.
      pose proof (Nat.div_lt n 2). lia.
  - intros Hne. unfold Results.avgBeta. fold betas n.
    specialize (Hpos Hne). by destruct (Nat.ltb_spec 0 n); [|lia].
  - intros b. unfold betas, Results.validBetas. rewrite list_elem_of_omap.
    split; intros (p & ? & ?); by exists p.
  - intros Hnn. split; [apply sort_perm|]. split.
    { intros i j a b. by apply sortedBetas_ascending. }
    split.
    + intros Hodd.
      assert (Hn0 : (0 < n)%nat).
      { destruct (decide (n = 0%nat)) as [E|]; [|lia].
        rewrite E in Hodd. discriminate. }
      assert (Hmid : (n / 2 < length sorted)%nat).
      { rewrite Hlen. apply Nat.div_lt; lia. }
      apply lookup_lt_is_Some in Hmid as [x Hx]. exists x.
      split; [|split; [exact Hx|]].
      * unfold Results.medianBeta, Results.mid. fold sorted. rewrite Hlen.
        destruct (n =? 0)%nat eqn:E0; [apply Nat.eqb_eq in E0; lia|].
        rewrite Hodd. exact Hx.
      * eapply sort_elem_of, list_elem_of_lookup_2, Hx.
    + intros Heven Hne. specialize (Hpos Hne).
      assert (H2 : (2 <= n)%nat).
      { destruct (decide (n = 1%nat)) as [E|]; [|lia].
        rewrite E in Heven. discriminate. }
      assert (Hdiv : (1 <= n / 2)%nat) by (apply Nat.div_le_lower_bound; lia).
      assert (Hhi : (n / 2 < length sorted)%nat).
      { rewrite Hlen. apply Nat.div_lt; lia. }
      assert (Hlo : (n / 2 - 1 < length sorted)%nat) by lia.
      apply lookup_lt_is_Some in Hhi as [hi Hhi].
      apply lookup_lt_is_Some in Hlo as [lo Hlo].
      exists lo, hi. split; [exact Hlo|]. split; [exact Hhi|]. split.
      * apply (sortedBetas_ascending peers (n / 2 - 1) (n / 2)); [done|lia|done|done].
      * unfold Results.medianBeta, Results.mid. fold sorted. rewrite Hlen.
        destruct (n =? 0)%nat eqn:E0; [apply Nat.eqb_eq in E0; lia|].
        rewrite Heven. cbn [Nat.eqb negb].
        by rewrite (idx_lookup _ _ _ Hlo), (idx_lookup _ _ _ Hhi).
Qed.

(** Four peers, one without a beta: the median of [2], [0.5] and [1] is
    [1]; of [2] and [0.5] it is [1.25]; with no peer there is none. *)
Example median_samples :
  Results.medianBeta Samples.three_betas = Some 1
  /\ Results.medianBeta Samples.two_betas = Some 1.25
  /\ Results.avgBeta Samples.two_betas = Some 1.25
  /\ Results.medianBeta [] = None.
Proof. repeat split; vm_compute; reflexivity. Qed.

Section BetaConfigFacts.

Lemma label_cases (beta : float) :
  Results.label (Results.getBetaConfig (Some beta))
  = if Results.threshold_aggressive <? beta then "Aggressive"%string
    else if beta <? Results.threshold_defensive then "Defensive"%string
    else "Neutral"%string.
Proof.
  unfold Results.getBetaConfig.
  destruct (Results.threshold_aggressive <? beta); [reflexivity|].
  by destruct (beta <? Results.threshold_defensive).
Qed.

Lemma ltb_nan_l (x y : float) : is_nan x = true -> (x <? y) = false.
Proof.
  intros H. rewrite FloatAxioms.ltb_spec, (F64Facts.Prim2SF_nan x H). reflexivity.
Qed.

Lemma ltb_nan_r (x y : float) : is_nan y = true -> (x <? y) = false.
Proof.
  intros H. rewrite FloatAxioms.ltb_spec, (F64Facts.Prim2SF_nan y H).
  by destruct (Prim2SF x).
Qed.

End BetaConfigFacts.

(** X18.  The label of a beta.  An absent beta is [N/A] and a [NaN] is
    [Neutral]; a number is [Aggressive] above [1.2], [Defensive] below
    [0.8] and [Neutral] from [0.8] to [1.2], the two bounds included; and
    the label never goes down the scale when the beta goes up. *)
Theorem getBetaConfig_scale :
  Results.label (Results.getBetaConfig None) = "N/A"%string
  /\ (forall beta, is_nan beta = true ->
        Results.label (Results.getBetaConfig (Some beta)) = "Neutral"%string)
  /\ (forall beta, is_nan beta = false ->
        let label := Results.label (Results.getBetaConfig (Some beta)) in
        (label = "Aggressive"%string
         <-> (Results.threshold_aggressive <? beta) = true)
        /\ (label = "Defensive"%string
            <-> (beta <? Results.threshold_defensive) = true)
        /\ (label = "Neutral"%string
            <-> (Results.threshold_defensive <=? beta) = true
                /\ (beta <=? Results.threshold_aggressive) = true))
  /\ (forall b1 b2, (b1 <=? b2) = true ->
        (Results.risk_level (Results.label (Results.getBetaConfig (Some b1)))
         <= Results.risk_level (Results.label (Results.getBetaConfig (Some b2))))%nat).
Proof.
  assert (Ha : is_nan Results.threshold_aggressive = false) by reflexivity.
  assert (Hd : is_nan Results.threshold_defensive = false) by reflexivity.
  assert (Hda : (F64.frank Results.threshold_defensive
                 < F64.frank Results.threshold_aggressive)%Z).
  { apply ltb_true_frank. reflexivity. }
  split; [reflexivity|]. split; [|split].
  - intros beta Hn. by rewrite label_cases, ltb_nan_r, ltb_nan_l.
  - intros beta Hn label. unfold label. rewrite label_cases.
    rewrite !F64Facts.ltb_frank, !F64Facts.leb_frank by assumption.
    revert Hda. generalize (F64.frank Results.threshold_aggressive) as fa.
    generalize (F64.frank Results.threshold_defensive) as fd.
    generalize (F64.frank beta) as fb. clear. intros fb fd fa Hda.
    rewrite !Z.leb_le.
    destruct (Z.ltb_spec fa fb); destruct (Z.ltb_spec fb fd);
      (split; [|split]); split;
      first [discriminate|intros [? ?]; lia|intros _; first [reflexivity|lia]
            |lia|done].
  - intros b1 b2 Hle. destruct (leb_true_not_nan _ _ Hle) as [H1 H2].
    rewrite F64Facts.leb_frank in Hle by assumption. apply Z.leb_le in Hle.
    rewrite !label_cases, !F64Facts.ltb_frank by assumption.
    revert Hda Hle. generalize (F64.frank Results.threshold_aggressive) as fa.
    generalize (F64.frank Results.threshold_defensive) as fd.
    generalize (F64.frank b1) as f1. generalize (F64.frank b2) as f2.
    clear. intros f2 f1 fd fa Hda Hle.
    destruct (Z.ltb_spec fa f1); destruct (Z.ltb_spec fa f2);
      destruct (Z.ltb_spec f1 fd); destruct (Z.ltb_spec f2 fd);
      cbn; lia.
Qed.

(** The labels at the bounds and beside them. *)
Example labels_at_the_bounds :
  map (fun b => Results.label (Results.getBetaConfig (Some b)))
      [0.5; 0x1.999999999999ap-1; 1; 0x1.3333333333333p+0; 1.25]
  = ["Defensive"; "Neutral"; "Neutral"; "Neutral"; "Aggressive"]%string.
Proof. vm_compute. reflexivity. Qed.

(* ================================================================== *)
(** * Properties of the loading view                                   *)
(* ================================================================== *)

Section LoadingFacts.

Lemma stage_after_S (k : nat) :
  Loading.stage_after (S k) = Loading.stage_tick (Loading.stage_after k).
Proof. reflexivity. Qed.

Lemma progress_after_S (k : nat) :
  Loading.progress_after (S k) = Loading.progress_tick (Loading.progress_after k).
Proof. reflexivity. Qed.

Lemma stage_after_late (k : nat) : Loading.stage_after (5 + k) = 5.
Proof.
  induction k as [|k IH]; [vm_compute; reflexivity|].
  replace (5 + S k)%nat with (S (5 + k)) by lia.
  rewrite stage_after_S, IH. vm_compute. reflexivity.
Qed.

Lemma progress_after_late (k : nat) : Loading.progress_after (80 + k) = 95.
Proof.
  induction k as [|k IH]; [vm_compute; reflexivity|].
  replace (80 + S k)%nat with (S (80 + k)) by lia.
  rewrite progress_after_S, IH. vm_compute. reflexivity.
Qed.

Lemma progress_after_early :
  forallb (fun k => Loading.progress_after k <? 95) (seq 0 80) = true.
Proof. vm_compute. reflexivity. Qed.

Lemma stage_after_early :
  forallb (fun k => Loading.stage_after k =? of_nat k) (seq 0 6) = true.
Proof. vm_compute. reflexivity. Qed.

End LoadingFacts.

(** X19.  The loading view after any number of ticks.  The stage is the
    number of ticks of its timer up to five, where it stays; it is always
    an index of [LOADING_STAGES], so there is always a text to show, the
    last one from the fifth tick on.  The progress stays below [95] for
    the first 79 ticks of its timer and is [95] from the 80th on: it never
    passes [95]. *)
Theorem loading_bounds (k : nat) :
  (Loading.stage_after k =? of_nat (Nat.min k 5)) = true
  /\ Loading.stage_text (Loading.stage_after k)
     = Loading.LOADING_STAGES !! Nat.min k 5
  /\ is_Some (Loading.stage_text (Loading.stage_after k))
  /\ (Loading.progress_after k <=? 95) = true
  /\ ((k < 80)%nat -> (Loading.progress_after k <? 95) = true)
  /\ ((80 <= k)%nat -> Loading.progress_after k = 95).
Proof.
  assert (Hstage : forall j, (j <= 5)%nat ->
            Loading.stage_after j = of_nat j
            /\ Loading.stage_text (of_nat j) = Loading.LOADING_STAGES !! j).
  { intros j Hj.
    destruct j as [|[|[|[|[|[|j]]]]]]; [..|lia]; split; vm_compute; reflexivity. }
  assert (Hs : Loading.stage_after k = of_nat (Nat.min k 5)).
  { destruct (Nat.le_gt_cases k 5) as [Hle|Hgt].
    - rewrite Nat.min_l by done. by apply Hstage.
    - rewrite Nat.min_r by lia. replace k with (5 + (k - 5))%nat by lia.
      rewrite stage_after_late. vm_compute. reflexivity. }
  assert (Ht : Loading.stage_text (Loading.stage_after k)
               = Loading.LOADING_STAGES !! Nat.min k 5).
  { rewrite Hs. apply Hstage. lia. }
  split; [|split; [exact Ht|split]].
  - rewrite Hs. destruct (Hstage (Nat.min k 5)) as [_ _]; [lia|].
    assert (Hmin : (Nat.min k 5 <= 5)%nat) by lia.
    revert Hmin. generalize (Nat.min k 5). intros j Hj.
    destruct j as [|[|[|[|[|[|j]]]]]]; [..|lia]; vm_compute; reflexivity.
  - rewrite Ht. apply lookup_lt_is_Some. cbn. lia.
  - assert (Hearly : (k < 80)%nat -> (Loading.progress_after k <? 95) = true).
    { intros Hk. pose proof progress_after_early as H.
      rewrite forallb_forall in H. apply H, in_seq. lia. }
    assert (Hlate : (80 <= k)%nat -> Loading.progress_after k = 95).
    { intros Hk. replace k with (80 + (k - 80))%nat by lia.
      apply progress_after_late. }
    split; [|split; [exact Hearly|exact Hlate]].
    destruct (Nat.lt_ge_cases k 80) as [Hk|Hk].
    + specialize (Hearly Hk). destruct (ltb_true_not_nan _ _ Hearly) as [? ?].
      rewrite F64Facts.ltb_frank in Hearly by done. apply Z.ltb_lt in Hearly.
      rewrite F64Facts.leb_frank by done. apply Z.leb_le. lia.
    + rewrite (Hlate Hk). reflexivity.
Qed.

(* ================================================================== *)
(** * The regression with the two series exchanged                     *)
(* ================================================================== *)

Section Symmetry.

(** The product of two numbers does not depend on their order. *)
Lemma mul_comm (x y : float) : x * y = y * x.
Proof.
  apply Prim2SF_inj. rewrite !FloatAxioms.mul_spec.
  destruct (Prim2SF x) as [sx|sx| |sx mx ex];
    destruct (Prim2SF y) as [sy|sy| |sy my ey]; cbn [SF64mul SFmul];
    rewrite ?(xorb_comm sx sy); try reflexivity.
  by rewrite (Pos.mul_comm mx my), (Z.add_comm ex ey).
Qed.

Lemma centred_fold_comm (xs ys : list float) (mx my acc : float) :
  fold_left (fun acc xy => acc + (fst xy - mx) * (snd xy - my)) (combine xs ys) acc
  = fold_left (fun acc xy => acc + (fst xy - my) * (snd xy - mx)) (combine ys xs) acc.
Proof.
  revert ys acc; induction xs as [|x xs IH]; intros [|y ys] acc; try reflexivity.
  cbn [combine fold_left fst snd]. by rewrite IH, (mul_comm (x - mx) (y - my)).
Qed.

Lemma centred_sum_comm (xs ys : list float) (mx my : float) :
  centred_sum xs ys mx my = centred_sum ys xs my mx.
Proof. apply centred_fold_comm. Qed.

Lemma covariance_of_comm (sr mr : list float) :
  covariance_of sr mr = covariance_of mr sr.
Proof. apply centred_sum_comm. Qed.

End Symmetry.

(** X20.  Exchanging the two series: the result is absent for the one
    order exactly when it is for the other, and when present the
    correlation and the R squared are the same numbers, bit for bit. *)
Theorem correlation_symmetric (s m : list float) :
  (calculateFinancialMetrics s m = None <-> calculateFinancialMetrics m s = None)
  /\ forall r r',
       calculateFinancialMetrics s m = Some r ->
       calculateFinancialMetrics m s = Some r' ->
       correlation r' = correlation r /\ rSquared r' = rSquared r.
Proof.
  split.
  - rewrite !calculateFinancialMetrics_unfold, !length_simple_returns.
    rewrite (Nat.eqb_sym (length m) (length s)).
    destruct (length s =? length m)%nat eqn:E; [|done].
    apply Nat.eqb_eq in E. rewrite <- E. cbn [negb orb].
    destruct (length s <? 2)%nat; [done|].
    destruct (length s - 1 <? 2)%nat; [done|].
    rewrite (orb_comm (is_zero (variance_of (simple_returns s)))).
    by destruct (_ || _).
  - intros r r' Hr Hr'.
    apply calculateFinancialMetrics_Some in Hr as (_ & _ & _ & _ & ->).
    apply calculateFinancialMetrics_Some in Hr' as (_ & _ & _ & _ & ->).
    cbn [metrics_of_returns correlation rSquared].
    assert (Hc : correlation_coded (simple_returns m) (simple_returns s)
                 = correlation_coded (simple_returns s) (simple_returns m)).
    { unfold correlation_coded.
      by rewrite (covariance_of_comm (simple_returns m)),
        (mul_comm (Math_sqrt (variance_of (simple_returns m)))). }
    by rewrite Hc.
Qed.

(** Scenario A with the series exchanged: another beta, the same
    correlation. *)
Example scenarioA_exchanged :
  (beta <$> calculateFinancialMetrics scenarioA_market scenarioA_stock)
  <> (beta <$> calculateFinancialMetrics scenarioA_stock scenarioA_market)
  /\ (correlation <$> calculateFinancialMetrics scenarioA_market scenarioA_stock)
     = (correlation <$> calculateFinancialMetrics scenarioA_stock scenarioA_market).
Proof.
  split; [|vm_compute; reflexivity].
  intros H.
  apply (f_equal (fun o => match o with Some x => x <? 1 | None => false end)) in H.
  vm_compute in H. discriminate.
Qed.

(* ================================================================== *)
(** * The peers of the response                                        *)
(* ================================================================== *)

Section ResponsePeers.

Context (yf : Provider) (industryList : list Directory.entry).





End ResponsePeers.



(** The sample response: the target of Scenario A and one peer. *)
Example scenario_response_peers :
  map Peer.ticker (response_peers Samples.scenario_response) = ["AAA.NS"%string]
  /\ Target.beta (response_target Samples.scenario_response
                    (targetData sample_request "TGT.NS" sample_metrics None None 83))
     = 0x1.28aac928bf09fp+1.
Proof. split; vm_compute; reflexivity. Qed.

(* ================================================================== *)
(** * The sign of the R squared and of the volatility                  *)
(* ================================================================== *)

Section Signs.

Import F64 F64Facts.
Local Open Scope Z_scope.

Lemma binary_round_aux_plus (m e : Z) (l : location) :
  0 <= m -> not_below_zero (binary_round_aux prec emax false m e l).
Proof.
  intros Hm. unfold binary_round_aux.
  pose proof (shr_fexp_nonneg m e l Hm) as H1.
  destruct (shr_fexp prec emax m e l) as [r1 e1]. cbn [fst] in H1.
  pose proof (round_nearest_even_nonneg _ (loc_of_shr_record r1) H1) as H2.
  pose proof (shr_fexp_nonneg _ e1 loc_Exact H2) as H3.
  destruct (shr_fexp prec emax _ e1 loc_Exact) as [r2 e2]. cbn [fst] in H3.
  destruct (shr_m r2) as [|m3|m3]; [left; eauto| |lia].
  right. destruct (e2 <=? emax - prec); [right; eauto|by left].
Qed.

Lemma not_below_zero_leb (x : spec_float) :
  not_below_zero x -> SFleb (S754_zero false) x = true.
Proof. by intros [[s ->]|[->|(m & e & ->)]]. Qed.

(** A square is [NaN] or not below zero. *)
Lemma SFmul_square (x : spec_float) :
  x <> S754_nan -> not_below_zero (SFmul prec emax x x).
Proof.
  intros Hx. destruct x as [s|s| |s m e]; cbn [SFmul]; rewrite ?xorb_nilpotent.
  - left. eauto.
  - right. by left.
  - done.
  - by apply binary_round_aux_plus.
Qed.

(** A square root is [NaN], a zero or a value of the sign [+]. *)
Lemma SFsqrt_plus (x : spec_float) :
  SFsqrt prec emax x = S754_nan \/ not_below_zero (SFsqrt prec emax x).
Proof.
  destruct x as [s|[|]| |[|] m e]; cbn [SFsqrt]; auto.
  - right. left. eauto.
  - right. right. by left.
  - right. unfold SFsqrt_core_binary. cbv zeta.
    match goal with |- context [Z.sqrtrem ?a] =>
      pose proof (Z.sqrtrem_sqrt a) as Hq; pose proof (Z.sqrt_nonneg a) as Hn;
      destruct (Z.sqrtrem a) as [q r] end.
    cbn [fst] in Hq. subst q. by apply binary_round_aux_plus.
Qed.

(** Such a value times a number above zero is [NaN] or not below zero. *)
Lemma SFmul_plus (x y : spec_float) (m : positive) (e : Z) :
  not_below_zero x -> y = S754_finite false m e ->
  not_below_zero (SFmul prec emax x y).
Proof.
  intros [[s ->]|[->|(mx & ex & ->)]] ->; cbn [SFmul]; rewrite ?xorb_false_r.
  - left. eauto.
  - right. by left.
  - by apply binary_round_aux_plus.
Qed.

End Signs.

Lemma sq_not_below_zero (c : float) :
  is_nan c = false -> (0 <=? sq c) = true.
Proof.
  intros Hc. unfold sq. rewrite FloatAxioms.leb_spec, FloatAxioms.mul_spec.
  apply not_below_zero_leb, SFmul_square. by apply F64Facts.Prim2SF_not_nan.
Qed.

Lemma sqrt_times_not_below_zero (a : float) :
  is_nan (Math_sqrt a * Math_sqrt 252) = true
  \/ (0 <=? Math_sqrt a * Math_sqrt 252) = true.
Proof.
  unfold Math_sqrt.
  destruct (SFsqrt_plus (Prim2SF a)) as [Hn|Hp].
  - left. apply F64Facts.is_nan_Prim2SF.
    rewrite FloatAxioms.mul_spec, FloatAxioms.sqrt_spec.
    unfold SF64sqrt. by rewrite Hn.
  - right. rewrite FloatAxioms.leb_spec, FloatAxioms.mul_spec, FloatAxioms.sqrt_spec.
    apply not_below_zero_leb.
    eapply SFmul_plus; [exact Hp|]. vm_compute. reflexivity.
Qed.

(** X22.  In every result the R squared and the volatility are [NaN] or
    not below zero; the R squared is not below zero whenever the
    correlation is a number. *)
Theorem metrics_never_negative (s m : list float) (r : Metrics) :
  calculateFinancialMetrics s m = Some r ->
  (is_nan (correlation r) = false -> (0 <=? rSquared r) = true)
  /\ (is_nan (rSquared r) = true \/ (0 <=? rSquared r) = true)
  /\ (is_nan (volatility r) = true \/ (0 <=? volatility r) = true)
  /\ (rSquared r <? 0) = false
  /\ (volatility r <? 0) = false.
Proof.
  intros H. apply calculateFinancialMetrics_Some in H as (_ & _ & _ & _ & ->).
  cbn [metrics_of_returns correlation rSquared volatility].
  set (c := correlation_coded _ _). set (a := variance_of _ / _).
  assert (Hsq : is_nan (sq c) = true \/ (0 <=? sq c) = true).
  { destruct (is_nan c) eqn:Ec; [left|right; by apply sq_not_below_zero].
    apply F64Facts.is_nan_Prim2SF. unfold sq.
    rewrite FloatAxioms.mul_spec, (F64Facts.Prim2SF_nan c Ec). reflexivity. }
  pose proof (sqrt_times_not_below_zero a) as Hv.
  assert (Hlt : forall x, is_nan x = true \/ (0 <=? x) = true -> (x <? 0) = false).
  { intros x [Hn|Hle]; [by apply ltb_nan_l|].
    destruct (leb_true_not_nan _ _ Hle) as [H0 Hx].
    rewrite F64Facts.leb_frank in Hle by done. apply Z.leb_le in Hle.
    rewrite F64Facts.ltb_frank by done. apply Z.ltb_ge. exact Hle. }
  split; [apply sq_not_below_zero|]. split; [exact Hsq|]. split; [exact Hv|].
  split; by apply Hlt.
Qed.

Lemma metrics_never_negative_witness :
  (is_nan 0x1.f546fbb76c722p-1 = false -> (0 <=? 0x1.eac774754723ap-1) = true)
  /\ (is_nan 0x1.eac774754723ap-1 = true \/ (0 <=? 0x1.eac774754723ap-1) = true)
  /\ (is_nan 0x1.4acdd1eaf5d04p-2 = true \/ (0 <=? 0x1.4acdd1eaf5d04p-2) = true)
  /\ (0x1.eac774754723ap-1 <? 0) = false
  /\ (0x1.4acdd1eaf5d04p-2 <? 0) = false.
Proof.
  apply (metrics_never_negative scenarioA_stock scenarioA_market
           (mkMetrics 0x1.28aac928bf09fp+1 (-0x1.66a8ff3a41e00p-15)
              0x1.f546fbb76c722p-1 0x1.eac774754723ap-1 0x1.4acdd1eaf5d04p-2)).
  vm_compute. reflexivity.
Defined.

(* ================================================================== *)
(** * A search created, then the recent searches                       *)
(* ================================================================== *)

Section RecentAfterCreate.

Context {A : Type} (cmp : A -> A -> float).

(** An element that every element sorts after goes to the front. *)
Lemma insert_left_front (x : A) (acc : list A) :
  Forall (fun y => after (cmp y x) = true) acc ->
  insert_left cmp x acc = acc ++ [x].
Proof.
  induction 1 as [|y acc Hy _ IH]; [reflexivity|].
  cbn [insert_left app]. by rewrite Hy, IH.
Qed.

Lemma sort_snoc_front (l : list A) (x : A) :
  Forall (fun y => after (cmp y x) = true) l ->
  sort cmp (l ++ [x]) = x :: sort cmp l.
Proof.
  intros Hall. unfold sort. rewrite fold_left_app. cbn [fold_left].
  rewrite insert_left_front.
  - by rewrite rev_unit.
  - apply Forall_forall. intros y Hy.
    eapply Forall_forall in Hall; [exact Hall|].
    pose proof (fold_insert_perm cmp l []) as Hp. rewrite app_nil_r in Hp.
    by rewrite <- Hp.
Qed.

End RecentAfterCreate.

(** X23.  A search created at a time later than every stored one, in a
    store whose ids are in order and whose counter has a successor, is
    the first of the recent searches; the recent searches of before
    follow it, the tenth of them dropped. *)
Theorem createSearch_then_recent {Data : Type} (now : float)
    (search : InsertSearch.t) (st : MemStorage.t Data) :
  MemStorage.ids_in_order st ->
  (MemStorage.nextId st <? MemStorage.nextId st + 1) = true ->
  Forall (fun s => (Search.createdAt s <? now) = true)
         (JsMap.values (MemStorage.searches st)) ->
  let s := fst (MemStorage.createSearch now search st) in
  let st' := snd (MemStorage.createSearch now search st) in
  MemStorage.getRecentSearches st'
  = s :: slice0 9 (MemStorage.getRecentSearches st)
  /\ MemStorage.getRecentSearches st' !! 0%nat = Some s
  /\ (forall r, r ∈ slice0 9 (MemStorage.getRecentSearches st) ->
        r ∈ MemStorage.getRecentSearches st').
Proof.
  intros Hi Hn Hold s st'.
  assert (Heq : MemStorage.getRecentSearches st'
                = s :: slice0 9 (MemStorage.getRecentSearches st)).
  { unfold MemStorage.getRecentSearches, st'.
    rewrite createSearch_fresh by done. fold s.
    unfold JsMap.values. rewrite map_app. cbn [map snd].
    rewrite sort_snoc_front.
    - unfold slice0. cbn [take]. f_equal. rewrite take_take. f_equal.
    - eapply Forall_impl; [exact Hold|]. intros y Hy. cbn beta in Hy.
      destruct (ltb_true_not_nan _ _ Hy) as [H1 H2].
      unfold after, MemStorage.byCreatedAt. cbn [s MemStorage.createSearch fst
        Search.createdAt].
      rewrite F64Facts.sub_pos_frank by done.
      apply Z.ltb_lt. by apply ltb_true_frank. }
  split; [exact Heq|]. rewrite Heq. split; [reflexivity|].
  intros r Hr. by right.
Qed.

Lemma createSearch_then_recent_witness :
  map Search.createdAt
    (MemStorage.getRecentSearches
       (snd (MemStorage.createSearch 4000 Samples.sample_search Samples.store_of_three)))
  = [4000; 3000; 2000; 1000].
Proof.
  pose proof (createSearch_then_recent 4000 Samples.sample_search
                Samples.store_of_three) as H.
  destruct H as (H & _ & _).
  - split; repeat constructor.
  - reflexivity.
  - repeat constructor.
  - rewrite H. vm_compute. reflexivity.
Defined.

